(** * LC-3 virtual machine: a shallow embedding of [lc3_vm.c]

    The C program keeps its whole state in globals ([memory], [reg],
    [running]) and talks to the host through stdio.  Here the globals and
    the two host streams are gathered in one record, and every C function
    that touches them becomes a computation in a small state-and-fault
    monad.  A [uint16_t] is a [Z] in [0, 65536), with every conversion to
    [uint16_t] written out as [u16]; the two arrays are lists read with
    stdpp's lookup and written with stdpp's insert, so that an index outside
    the array is visible as a fault instead of being silently absorbed. *)

From Stdlib Require Import ZArith Lia Bool String Ascii.
From stdpp Require Import base tactics option list.

Local Open Scope Z_scope.

(** ** Machine words *)

(** [UINT16_MAX] of <stdint.h>. *)
Definition UINT16_MAX : Z := 65535.

(** Conversion of an integer value to [uint16_t]. *)
Definition u16 (z : Z) : Z := z mod 65536.

Definition word_ok (w : Z) : Prop := 0 <= w < 65536.

Definition word_okb (w : Z) : bool := (0 <=? w) && (w <? 65536).

(** ** Enumerations of the source *)

Definition R_R0 : Z := 0.
Definition R_R1 : Z := 1.
Definition R_R2 : Z := 2.
Definition R_R3 : Z := 3.
Definition R_R4 : Z := 4.
Definition R_R5 : Z := 5.
Definition R_R6 : Z := 6.
Definition R_R7 : Z := 7.
Definition R_PC : Z := 8.
Definition R_COND : Z := 9.
Definition R_COUNT : Z := 10.

Definition OP_BR : Z := 0.
Definition OP_ADD : Z := 1.
Definition OP_LD : Z := 2.
Definition OP_ST : Z := 3.
Definition OP_JSR : Z := 4.
Definition OP_AND : Z := 5.
Definition OP_LDR : Z := 6.
Definition OP_STR : Z := 7.
Definition OP_RTI : Z := 8.
Definition OP_NOT : Z := 9.
Definition OP_LDI : Z := 10.
Definition OP_STI : Z := 11.
Definition OP_JMP : Z := 12.
Definition OP_RES : Z := 13.
Definition OP_LEA : Z := 14.
Definition OP_TRAP : Z := 15.

Definition FL_POS : Z := Z.shiftl 1 0.
Definition FL_ZRO : Z := Z.shiftl 1 1.
Definition FL_NEG : Z := Z.shiftl 1 2.

Definition PC_START : Z := 0x3000.

Definition TRAP_GETC : Z := 0x20.
Definition TRAP_OUT : Z := 0x21.
Definition TRAP_PUTS : Z := 0x22.
Definition TRAP_IN : Z := 0x23.
Definition TRAP_PUTSP : Z := 0x24.
Definition TRAP_HALT : Z := 0x25.

Definition MR_KBSR : Z := 0xFE00.
Definition MR_KBDR : Z := 0xFE02.

(** ** Machine state *)

(** Standard input as the program reaches it.  The program never calls
    [setvbuf], so [getchar] serves stdio's buffer, which it fills from
    descriptor 0, while the [select] of [check_key] looks at descriptor 0
    itself.

    - [buffered]: the bytes stdio has taken from the descriptor and not yet
      handed to the program, oldest first.
    - [pending]: the bytes that wait on descriptor 0, oldest first.
    - [at_eof]: the descriptor is at end of file, nothing more will arrive:
      once [pending] is used up, a [read] returns 0 at once.
    - [bufsiz]: the size of stdio's buffer, the most one [read] takes. *)
Record instream : Type := Instream {
  buffered : list Z;
  pending : list Z;
  at_eof : bool;
  bufsiz : Z
}.

(** The globals of the program, together with the two host streams the
    program reaches through stdio.

    - [memory] is [uint16_t memory[UINT16_MAX]]: a list whose length is the
      number of elements of the C array.
    - [reg] is [uint16_t reg[R_COUNT]].
    - [stdin] is standard input.
    - [stdout] is the sequence of bytes written to standard output so far. *)
Record machine : Type := Machine {
  memory : list Z;
  reg : list Z;
  running : bool;
  stdin : instream;
  stdout : list Z
}.

Definition with_memory (m : list Z) (st : machine) : machine :=
  Machine m (reg st) (running st) (stdin st) (stdout st).

Definition with_reg (r : list Z) (st : machine) : machine :=
  Machine (memory st) r (running st) (stdin st) (stdout st).

Definition with_running (b : bool) (st : machine) : machine :=
  Machine (memory st) (reg st) b (stdin st) (stdout st).

Definition with_stdin (i : instream) (st : machine) : machine :=
  Machine (memory st) (reg st) (running st) i (stdout st).

Definition with_stdout (o : list Z) (st : machine) : machine :=
  Machine (memory st) (reg st) (running st) (stdin st) o.

(** ** Outcomes and the machine monad *)

(** A C function either returns, or indexes [memory] outside the array
    (undefined behaviour), or sits in a blocking [getchar] with nothing to
    read, in the state [st] it had reached by then, or calls [abort]. *)
Inductive outcome (A : Type) : Type :=
| Ok (a : A)
| OutOfBounds
| Blocked (st : machine)
| Aborted.

Arguments Ok {A} a.
Arguments OutOfBounds {A}.
Arguments Blocked {A} st.
Arguments Aborted {A}.

Definition M (A : Type) : Type := machine -> outcome (A * machine).

Definition ret {A} (a : A) : M A := fun st => Ok (a, st).

Definition bind {A B} (m : M A) (k : A -> M B) : M B :=
  fun st =>
    match m st with
    | Ok (a, st') => k a st'
    | OutOfBounds => OutOfBounds
    | Blocked st' => Blocked st'
    | Aborted => Aborted
    end.

Declare Scope lc3_scope.
Delimit Scope lc3_scope with lc3.
Notation "x <- m ;; k" := (bind m (fun x => k))
  (at level 100, m at next level, right associativity) : lc3_scope.
Notation "m ;;; k" := (bind m (fun _ => k))
  (at level 100, right associativity) : lc3_scope.
Local Open Scope lc3_scope.

(** ** Array accesses *)

(** [reg[r]] as an rvalue.  Every register index in the program is either
    an enumeration constant or a three-bit field, so it is below
    [R_COUNT]. *)
Definition get_reg (r : Z) : M Z :=
  fun st => Ok (reg st !!! Z.to_nat r, st).

(** [reg[r] = v]. *)
Definition set_reg (r : Z) (v : Z) : M unit :=
  fun st => Ok (tt, with_reg (<[Z.to_nat r := v]> (reg st)) st).

(** [memory[i]] as an rvalue, [i] an index counted from the start of the
    array. *)
Definition load (i : Z) : M Z :=
  fun st =>
    match memory st !! Z.to_nat i with
    | Some v => Ok (v, st)
    | None => OutOfBounds
    end.

(** [memory[i] = v]. *)
Definition store (i : Z) (v : Z) : M unit :=
  fun st =>
    match memory st !! Z.to_nat i with
    | Some _ => Ok (tt, with_memory (<[Z.to_nat i := v]> (memory st)) st)
    | None => OutOfBounds
    end.

(** ** Host collaborators *)

(** [EOF] of <stdio.h>. *)
Definition EOF : Z := -1.

(** What [select] reports for descriptor 0: a [read] would not wait,
    because bytes are pending or the descriptor is at end of file.  Bytes
    that stdio has buffered are out of its sight. *)
Definition fd_readable (i : instream) : bool :=
  match pending i with
  | [] => at_eof i
  | _ :: _ => true
  end.

(** [getchar()] on the stream: the character it returns and the stream it
    leaves, or [None] when it has to wait.  It hands out the oldest
    buffered byte; with an empty buffer it fills the buffer with one
    [read] of at most [bufsiz] bytes from descriptor 0 first; when that
    [read] meets end of file it returns [EOF]. *)
Definition next_char (i : instream) : option (Z * instream) :=
  match buffered i with
  | c :: rest => Some (c, Instream rest (pending i) (at_eof i) (bufsiz i))
  | [] =>
      match take (Z.to_nat (bufsiz i)) (pending i) with
      | c :: rest =>
          Some (c, Instream rest (drop (Z.to_nat (bufsiz i)) (pending i))
                     (at_eof i) (bufsiz i))
      | [] => if at_eof i then Some (EOF, i) else None
      end
  end.

(** [select] on descriptor 0 with a zero timeout: the number of ready
    descriptors. *)
Definition select_stdin : M Z :=
  fun st => Ok (if fd_readable (stdin st) then 1 else 0, st).

(** [getchar()]. *)
Definition getchar : M Z :=
  fun st =>
    match next_char (stdin st) with
    | Some (c, i) => Ok (c, with_stdin i st)
    | None => Blocked st
    end.

(** [putc(c, stdout)]: the argument is written as an [unsigned char]. *)
Definition putc (c : Z) : M unit :=
  fun st => Ok (tt, with_stdout (stdout st ++ [c mod 256]) st).

Fixpoint put_bytes (l : list Z) : M unit :=
  match l with
  | [] => ret tt
  | c :: rest => putc c ;;; put_bytes rest
  end.

(** Character codes of a string literal. *)
Definition bytes_of_string (s : string) : list Z :=
  map (fun c => Z.of_nat (nat_of_ascii c)) (list_ascii_of_string s).

(** ** Memory access functions of the source *)

Definition check_key : M bool :=
  r <- select_stdin ;;
  ret (negb (r =? 0)).

Definition mem_write (address : Z) (val : Z) : M unit :=
  store address val.

Definition mem_read (address : Z) : M Z :=
  (if address =? MR_KBSR then
     k <- check_key ;;
     if k then
       store MR_KBSR (Z.shiftl 1 15) ;;;
       c <- getchar ;;
       store MR_KBDR (u16 c)
     else
       store MR_KBSR 0
   else ret tt) ;;;
  load address.

Definition sign_extend (x : Z) (bit_count : Z) : Z :=
  if negb (Z.land (Z.shiftr x (bit_count - 1)) 0x1 =? 0)
  then u16 (Z.lor x (Z.shiftl 0xFFFF bit_count))
  else x.

Definition update_flags (reg_index : Z) : M unit :=
  r <- get_reg reg_index ;;
  if r =? 0 then set_reg R_COND FL_ZRO
  else if negb (Z.shiftr r 15 =? 0) then set_reg R_COND FL_NEG
  else set_reg R_COND FL_POS.

(** ** Instruction handlers *)

Definition op_add (instr : Z) : M unit :=
  let dst_reg := Z.land (Z.shiftr instr 9) 0x7 in
  let src_reg1 := Z.land (Z.shiftr instr 6) 0x7 in
  let imm5_flag := negb (Z.land (Z.shiftr instr 5) 0x1 =? 0) in
  (if imm5_flag then
     let imm5 := sign_extend (Z.land instr 0x1F) 5 in
     a <- get_reg src_reg1 ;;
     set_reg dst_reg (u16 (a + imm5))
   else
     let src_reg2 := Z.land instr 0x7 in
     a <- get_reg src_reg1 ;;
     b <- get_reg src_reg2 ;;
     set_reg dst_reg (u16 (a + b))) ;;;
  update_flags dst_reg.

Definition op_and (instr : Z) : M unit :=
  let dst_reg := Z.land (Z.shiftr instr 9) 0x7 in
  let src_reg1 := Z.land (Z.shiftr instr 6) 0x7 in
  let imm5_flag := negb (Z.land (Z.shiftr instr 5) 0x1 =? 0) in
  (if imm5_flag then
     let imm5 := sign_extend (Z.land instr 0x1F) 5 in
     a <- get_reg src_reg1 ;;
     set_reg dst_reg (u16 (Z.land a imm5))
   else
     let src_reg2 := Z.land instr 0x7 in
     a <- get_reg src_reg1 ;;
     b <- get_reg src_reg2 ;;
     set_reg dst_reg (u16 (Z.land a b))) ;;;
  update_flags dst_reg.

Definition op_not (instr : Z) : M unit :=
  let dst_reg := Z.land (Z.shiftr instr 9) 0x7 in
  let src_reg := Z.land (Z.shiftr instr 6) 0x7 in
  a <- get_reg src_reg ;;
  set_reg dst_reg (u16 (Z.lnot a)) ;;;
  update_flags dst_reg.

Definition op_br (instr : Z) : M unit :=
  let pc_offset9 := sign_extend (Z.land instr 0x1FF) 9 in
  let cond_flag := Z.land (Z.shiftr instr 9) 0x7 in
  c <- get_reg R_COND ;;
  if negb (Z.land cond_flag c =? 0) then
    pc <- get_reg R_PC ;;
    set_reg R_PC (u16 (pc + pc_offset9))
  else ret tt.

Definition op_jmp (instr : Z) : M unit :=
  let base_reg := Z.land (Z.shiftr instr 6) 0x7 in
  b <- get_reg base_reg ;;
  set_reg R_PC b.

Definition op_jsr (instr : Z) : M unit :=
  let long_flag := Z.land (Z.shiftr instr 11) 0x1 in
  pc <- get_reg R_PC ;;
  set_reg R_R7 pc ;;;
  if negb (long_flag =? 0) then
    let pc_offset11 := sign_extend (Z.land instr 0x7FF) 11 in
    pc' <- get_reg R_PC ;;
    set_reg R_PC (u16 (pc' + pc_offset11))
  else
    let base_reg := Z.land (Z.shiftr instr 6) 0x7 in
    b <- get_reg base_reg ;;
    set_reg R_PC b.

Definition op_ld (instr : Z) : M unit :=
  let dst_reg := Z.land (Z.shiftr instr 9) 0x7 in
  let pc_offset9 := sign_extend (Z.land instr 0x1FF) 9 in
  pc <- get_reg R_PC ;;
  v <- mem_read (u16 (pc + pc_offset9)) ;;
  set_reg dst_reg v ;;;
  update_flags dst_reg.

Definition op_ldi (instr : Z) : M unit :=
  let dst_reg := Z.land (Z.shiftr instr 9) 0x7 in
  let pc_offset9 := sign_extend (Z.land instr 0x1FF) 9 in
  pc <- get_reg R_PC ;;
  address <- mem_read (u16 (pc + pc_offset9)) ;;
  v <- mem_read address ;;
  set_reg dst_reg v ;;;
  update_flags dst_reg.

Definition op_ldr (instr : Z) : M unit :=
  let dst_reg := Z.land (Z.shiftr instr 9) 0x7 in
  let base_reg := Z.land (Z.shiftr instr 6) 0x7 in
  let pc_offset6 := sign_extend (Z.land instr 0x3F) 6 in
  b <- get_reg base_reg ;;
  v <- mem_read (u16 (b + pc_offset6)) ;;
  set_reg dst_reg v ;;;
  update_flags dst_reg.

Definition op_lea (instr : Z) : M unit :=
  let dst_reg := Z.land (Z.shiftr instr 9) 0x7 in
  let pc_offset9 := sign_extend (Z.land instr 0x1FF) 9 in
  pc <- get_reg R_PC ;;
  set_reg dst_reg (u16 (pc + pc_offset9)) ;;;
  update_flags dst_reg.

Definition op_st (instr : Z) : M unit :=
  let src_reg := Z.land (Z.shiftr instr 9) 0x7 in
  let pc_offset9 := sign_extend (Z.land instr 0x1FF) 9 in
  pc <- get_reg R_PC ;;
  let address := u16 (pc + pc_offset9) in
  s <- get_reg src_reg ;;
  mem_write address s.

Definition op_sti (instr : Z) : M unit :=
  let src_reg := Z.land (Z.shiftr instr 9) 0x7 in
  let pc_offset9 := sign_extend (Z.land instr 0x1FF) 9 in
  pc <- get_reg R_PC ;;
  address <- mem_read (u16 (pc + pc_offset9)) ;;
  s <- get_reg src_reg ;;
  mem_write address s.

Definition op_str (instr : Z) : M unit :=
  let src_reg := Z.land (Z.shiftr instr 9) 0x7 in
  let base_reg := Z.land (Z.shiftr instr 6) 0x7 in
  let pc_offset6 := sign_extend (Z.land instr 0x3F) 6 in
  b <- get_reg base_reg ;;
  let address := u16 (b + pc_offset6) in
  s <- get_reg src_reg ;;
  mem_write address s.

(** ** Trap routines *)

(** [char] is the signed 8-bit type of the platforms the program runs on. *)
Definition to_char (z : Z) : Z :=
  let b := z mod 256 in if b <? 128 then b else b - 256.

Definition trap_getc : M unit :=
  c <- getchar ;;
  set_reg R_R0 (u16 c).

Definition trap_out : M unit :=
  r0 <- get_reg R_R0 ;;
  putc (to_char r0).

(** The loop of [trap_puts].  [ptr_c] is a pointer into [memory], held here
    as its index; it is a pointer, not a [uint16_t], so [++ptr_c] does not
    wrap.  Each iteration that does not leave the loop moves [ptr_c] one
    element further, and [*ptr_c] faults as soon as the index reaches the
    length of the array, so [n] iterations with [n] above the length of the
    array are all the loop can ever make. *)
Fixpoint puts_loop (n : nat) (ptr_c : Z) : M unit :=
  match n with
  | O => fun _ => OutOfBounds
  | S n' =>
      w <- load ptr_c ;;
      if w =? 0 then ret tt
      else putc (to_char w) ;;; puts_loop n' (ptr_c + 1)
  end.

Definition trap_puts : M unit :=
  r0 <- get_reg R_R0 ;;
  (fun st => puts_loop (S (length (memory st))) r0 st) ;;;
  ret tt.

Definition trap_in : M unit :=
  put_bytes (bytes_of_string "Enter a character:") ;;;
  putc 10 ;;;
  c <- getchar ;;
  let ch := to_char c in
  putc ch ;;;
  set_reg R_R0 (u16 ch).

Fixpoint putsp_loop (n : nat) (ptr_c : Z) : M unit :=
  match n with
  | O => fun _ => OutOfBounds
  | S n' =>
      w <- load ptr_c ;;
      if w =? 0 then ret tt
      else
        let ch1 := to_char (Z.land w 0xFF) in
        putc ch1 ;;;
        let ch2 := to_char (Z.shiftr w 8) in
        (if negb (ch2 =? 0) then putc ch2 else ret tt) ;;;
        putsp_loop n' (ptr_c + 1)
  end.

Definition trap_putsp : M unit :=
  r0 <- get_reg R_R0 ;;
  (fun st => putsp_loop (S (length (memory st))) r0 st) ;;;
  ret tt.

(** [puts] writes the string and a newline; [printf] above writes its
    format, which has no conversion, as it is. *)
Definition trap_halt : M unit :=
  put_bytes (bytes_of_string "HATL") ;;;
  putc 10 ;;;
  fun st => Ok (tt, with_running false st).

Definition op_trap (instr : Z) : M unit :=
  let v := Z.land instr 0xFF in
  if v =? TRAP_GETC then trap_getc
  else if v =? TRAP_OUT then trap_out
  else if v =? TRAP_PUTS then trap_puts
  else if v =? TRAP_IN then trap_in
  else if v =? TRAP_PUTSP then trap_putsp
  else if v =? TRAP_HALT then trap_halt
  else ret tt.

(** ** The fetch-execute loop of [main] *)

Definition abort : M unit := fun _ => Aborted.

(** The switch on the opcode. *)
Definition dispatch (instr : Z) : M unit :=
  let op := Z.shiftr instr 12 in
  if op =? OP_ADD then op_add instr
  else if op =? OP_AND then op_and instr
  else if op =? OP_NOT then op_not instr
  else if op =? OP_BR then op_br instr
  else if op =? OP_JMP then op_jmp instr
  else if op =? OP_JSR then op_jsr instr
  else if op =? OP_LD then op_ld instr
  else if op =? OP_LDI then op_ldi instr
  else if op =? OP_LDR then op_ldr instr
  else if op =? OP_LEA then op_lea instr
  else if op =? OP_ST then op_st instr
  else if op =? OP_STI then op_sti instr
  else if op =? OP_STR then op_str instr
  else if op =? OP_TRAP then op_trap instr
  else abort.

(** [mem_read(reg[R_PC]++)]: the increment is complete before the body of
    [mem_read] runs. *)
Definition fetch : M Z :=
  pc <- get_reg R_PC ;;
  set_reg R_PC (u16 (pc + 1)) ;;;
  mem_read pc.

(** One iteration of the body of [while (running)]. *)
Definition step : M unit :=
  instr <- fetch ;;
  dispatch instr.

(** At most [n] iterations of [while (running)]. *)
Fixpoint steps (n : nat) : M unit :=
  match n with
  | O => ret tt
  | S n' =>
      fun st => if running st then (step ;;; steps n') st else Ok (tt, st)
  end.

(** ** Image loader *)

Definition swap16 (x : Z) : Z :=
  u16 (Z.lor (Z.shiftl x 8) (Z.shiftr x 8)).

(** The two-byte elements of a byte stream, each as the value the host (a
    little-endian machine: [swap16] is what turns the big-endian file into
    host order) sees once [fread] has copied its bytes into a
    [uint16_t]. *)
Fixpoint host_words (bytes : list Z) : list Z :=
  match bytes with
  | b0 :: b1 :: rest => (b0 + 256 * b1) :: host_words rest
  | _ => []
  end.

(** [fread(buf, sizeof (uint16_t), n, file)]: the complete elements it
    delivers (at most [n]), the bytes of an incomplete last element that it
    copies as well when fewer than [n] elements were complete, and the
    stream that is left. *)
Definition fread16 (n : nat) (file : list Z) : list Z * list Z * list Z :=
  let elems := take n (host_words file) in
  let after := drop (2 * length elems) file in
  if (length elems <? n)%nat then (elems, after, []) else (elems, [], after).

(** [fread] copying into [memory] from [p_curr] on: the complete elements,
    then the lone byte of an incomplete one, which lands in the low byte of
    the following cell. *)
Fixpoint fread_store (p_curr : Z) (elems : list Z) (partial : list Z) : M unit :=
  match elems with
  | w :: rest => store p_curr w ;;; fread_store (p_curr + 1) rest partial
  | [] =>
      match partial with
      | b :: _ =>
          w <- load p_curr ;;
          store p_curr (Z.lor (Z.land w 0xFF00) b)
      | [] => ret tt
      end
  end.

(** The loop after [fread]: [actual_read] times, the cell under [p_curr] is
    replaced by its [swap16] and [p_curr] moves one cell further. *)
Fixpoint swap_loop (actual_read : nat) (p_curr : Z) : M unit :=
  match actual_read with
  | O => ret tt
  | S n =>
      w <- load p_curr ;;
      store p_curr (swap16 w) ;;;
      swap_loop n (p_curr + 1)
  end.

(** [file] is the content of the stream from its current position.  When
    the first [fread] finds no complete element, [origin] keeps an
    indeterminate value, but the stream is then exhausted: the second
    [fread] delivers nothing and the loop does not run, whatever that value
    is. *)
Definition read_image_file (file : list Z) : M unit :=
  let '(header, _, file1) := fread16 1 file in
  match header with
  | [] => ret tt
  | origin_raw :: _ =>
      let origin := swap16 origin_raw in
      let max_read := u16 (UINT16_MAX - origin) in
      let p_curr := origin in
      let '(elems, partial, _) := fread16 (Z.to_nat max_read) file1 in
      fread_store p_curr elems partial ;;;
      let actual_read := length elems in
      swap_loop actual_read p_curr
  end.

(** [image] is [None] when [fopen] fails. *)
Definition read_image (image : option (list Z)) : M bool :=
  match image with
  | None => ret false
  | Some file => read_image_file file ;;; ret true
  end.

(** [main] up to the loop, for a command line that names an image: the
    result of [read_image] is dropped. *)
Definition main_init (image : option (list Z)) : M unit :=
  _ <- read_image image ;;
  set_reg R_PC PC_START ;;;
  fun st => Ok (tt, with_running true st).

(** Standard input of a process that starts on a terminal with the keys
    [keys] typed ahead: nothing is buffered yet, the terminal is not at end
    of file, and the buffer has the size glibc gives a terminal stream. *)
Definition keyboard (keys : list Z) : instream := Instream [] keys false 1024.

(** The globals as the C start-up leaves them: all zero. *)
Definition initial (input : list Z) : machine :=
  Machine (replicate (Z.to_nat UINT16_MAX) 0) (replicate (Z.to_nat R_COUNT) 0)
          false (keyboard input) [].

(** [main] with the loop cut after [n] iterations. *)
Definition main_for (n : nat) (image : option (list Z)) : M unit :=
  main_init image ;;; steps n.

(** ** Vocabulary of the statements *)

(** Value of register [r] in state [st]. *)
Definition rd (st : machine) (r : Z) : Z := reg st !!! Z.to_nat r.

(** Content of the memory cell at address [a], if the array has one. *)
Definition cell (st : machine) (a : Z) : option Z := memory st !! Z.to_nat a.

Definition byte_ok (b : Z) : Prop := 0 <= b < 256.

Definition byte_okb (b : Z) : bool := (0 <=? b) && (b <? 256).

(** Standard input carries bytes, and stdio's buffer holds at least one. *)
Record wf_stdin (i : instream) : Prop := WfStdin {
  wf_buffered : Forall byte_ok (buffered i);
  wf_pending : Forall byte_ok (pending i);
  wf_bufsiz : 1 <= bufsiz i
}.

(** The states the program can be in: both arrays have their declared
    number of elements, every element is a [uint16_t], and standard input
    is as above. *)
Record wf (st : machine) : Prop := Wf {
  wf_memory_length : length (memory st) = Z.to_nat UINT16_MAX;
  wf_memory : Forall word_ok (memory st);
  wf_reg_length : length (reg st) = Z.to_nat R_COUNT;
  wf_reg : Forall word_ok (reg st);
  wf_input : wf_stdin (stdin st)
}.

Definition wfb (st : machine) : bool :=
  (length (memory st) =? Z.to_nat UINT16_MAX)%nat
  && forallb word_okb (memory st)
  && (length (reg st) =? Z.to_nat R_COUNT)%nat
  && forallb word_okb (reg st)
  && forallb byte_okb (buffered (stdin st))
  && forallb byte_okb (pending (stdin st))
  && (1 <=? bufsiz (stdin st)).

(** The flag that belongs to a register value: negative when bit 15 is
    set, zero when the value is zero, positive otherwise. *)
Definition flag_of (d : Z) : Z :=
  if Z.testbit d 15 then FL_NEG
  else if d =? 0 then FL_ZRO
  else FL_POS.

(** Instruction fields. *)
Definition opcode (instr : Z) : Z := Z.shiftr instr 12.
Definition field_dr (instr : Z) : Z := Z.land (Z.shiftr instr 9) 0x7.
Definition field_base (instr : Z) : Z := Z.land (Z.shiftr instr 6) 0x7.
Definition field_long (instr : Z) : Z := Z.land (Z.shiftr instr 11) 0x1.
Definition pcoffset9 (instr : Z) : Z := sign_extend (Z.land instr 0x1FF) 9.
Definition pcoffset11 (instr : Z) : Z := sign_extend (Z.land instr 0x7FF) 11.
Definition trapvect8 (instr : Z) : Z := Z.land instr 0xFF.

(** The opcodes whose handler writes a destination register and then
    sets the flags on it, as the instruction table lists them. *)
Definition sets_flags (op : Z) : bool :=
  (op =? OP_ADD) || (op =? OP_AND) || (op =? OP_NOT)
  || (op =? OP_LD) || (op =? OP_LDI) || (op =? OP_LDR).

(** Keyboard status as a read of KBSR reports it. *)
Definition kbd_status (i : instream) : Z :=
  if fd_readable i then 0x8000 else 0.

(** The bytes of standard input that the program has not been handed yet,
    oldest first. *)
Definition undelivered (i : instream) : list Z := buffered i ++ pending i.

(** Partial-correctness triples over the machine monad. *)
Definition hoare {A} (P : machine -> Prop) (m : M A)
    (Q : A -> machine -> Prop) : Prop :=
  forall st, P st ->
    match m st with
    | Ok (a, st') => Q a st'
    | _ => True
    end.

(** Big-endian bytes of a word, and the image file of an origin and a
    payload. *)
Definition be16 (w : Z) : list Z := [w / 256; w mod 256].

Definition image_file (origin : Z) (payload : list Z) : list Z :=
  be16 origin ++ concat (map be16 payload).

(** The state a read of KBSR leaves behind: when descriptor 0 is readable,
    KBSR becomes [0x8000] and KBDR what [getchar] returns, as a word;
    otherwise KBSR becomes 0. *)
Definition kbd_poll (st : machine) : machine :=
  if fd_readable (stdin st) then
    match next_char (stdin st) with
    | Some (c, i) =>
        with_memory
          (<[Z.to_nat MR_KBDR := u16 c]>
             (<[Z.to_nat MR_KBSR := 0x8000]> (memory st)))
          (with_stdin i st)
    | None => st
    end
  else with_memory (<[Z.to_nat MR_KBSR := 0]> (memory st)) st.

(** The value of the low [n] bits of [x] read as a two's-complement
    number. *)
Definition signed (n x : Z) : Z :=
  if x <? 2 ^ (n - 1) then x else x - 2 ^ n.

(** A big-endian word as the little-endian host reads its two bytes. *)
Definition host_view (w : Z) : Z := w / 256 + 256 * (w mod 256).

(** The part of the state that output leaves alone. *)
Definition same_but_stdout (st st' : machine) : Prop :=
  memory st' = memory st /\ reg st' = reg st /\
  stdin st' = stdin st /\ running st' = running st.

(** [keeps m Q]: run from a well-formed state, [m] can only return in a
    well-formed state, with a result that satisfies [Q]. *)
Definition keeps {A} (m : M A) (Q : A -> Prop) : Prop :=
  hoare wf m (fun a st' => wf st' /\ Q a).

(** ** Sample machines *)

(** A running machine with the given memory cells (all others zero),
    registers and standard input, and nothing written yet. *)
Definition machine_with_input (cells : list (Z * Z)) (regs : list Z)
    (input : instream) : machine :=
  Machine
    (foldr (fun c m => <[Z.to_nat (fst c) := snd c]> m)
       (replicate (Z.to_nat UINT16_MAX) 0) cells)
    regs true input [].

(** The same with the keys [input] typed ahead. *)
Definition machine_with (cells : list (Z * Z)) (regs : list Z)
    (input : list Z) : machine :=
  machine_with_input cells regs (keyboard input).

(** Registers all zero, the last result zero, PC past an instruction at
    [0x3000]. *)
Definition idle : machine :=
  machine_with [] [0; 0; 0; 0; 0; 0; 0; 0; 0x3001; FL_ZRO] [].

(** [idle] after [LEA R0, #2] ([0xE002]). *)
Definition idle_after_lea : machine :=
  with_reg [0x3003; 0; 0; 0; 0; 0; 0; 0; 0x3001; FL_POS] idle.

(** [idle] after [ADD R0, R0, #-1] ([0x103F]). *)
Definition idle_after_add : machine :=
  with_reg [0xFFFF; 0; 0; 0; 0; 0; 0; 0; 0x3001; FL_NEG] idle.

(** Two keys pending. *)
Definition keys_pending : machine :=
  machine_with [] [0; 0; 0; 0; 0; 0; 0; 0; 0x3001; FL_ZRO] [97; 98].

(** [JSRR R7] ([0x41C0]) at [0x3000], about to be fetched, with R7
    pointing elsewhere. *)
Definition before_jsrr : machine :=
  machine_with [(0x3000, 0x41C0)]
    [0; 0; 0; 0; 0; 0; 0; 0x1234; 0x3000; FL_ZRO] [].

Definition jsrr_fetched : machine :=
  with_reg [0; 0; 0; 0; 0; 0; 0; 0x1234; 0x3001; FL_ZRO] before_jsrr.

(** PC one below KBSR, so that [LDI R1, #1] ([0xA201]) takes its pointer
    from KBSR; a key is pending and the cell at [0x8000] holds [0x42]. *)
Definition ldi_through_kbsr : machine :=
  machine_with [(0x8000, 0x42)]
    [0; 0; 0; 0; 0; 0; 0; 0; 0xFDFF; FL_ZRO] [97].

(** R0 points at a string that runs across KBSR and KBDR, and a key is
    pending. *)
Definition string_over_devices : machine :=
  machine_with [(0xFDFF, 104); (0xFE00, 105); (0xFE01, 33); (0xFE02, 63)]
    [0xFDFF; 0; 0; 0; 0; 0; 0; 0; 0x3001; FL_ZRO] [97].

(** [main] on an image given by origin and payload, cut after [n]
    iterations: what has been written, and whether the loop is still
    running. *)
Definition run_image (n : nat) (origin : Z) (payload : list Z)
    (input : list Z) : outcome (list Z * bool) :=
  match main_for n (Some (image_file origin payload)) (initial input) with
  | Ok (_, st) => Ok (stdout st, running st)
  | OutOfBounds => OutOfBounds
  | Blocked st => Blocked st
  | Aborted => Aborted
  end.

(** ** Further vocabulary *)

(** More instruction fields. *)
Definition field_sr2 (instr : Z) : Z := Z.land instr 0x7.
Definition field_imm (instr : Z) : Z := Z.land (Z.shiftr instr 5) 0x1.
Definition imm5 (instr : Z) : Z := sign_extend (Z.land instr 0x1F) 5.
Definition offset6 (instr : Z) : Z := sign_extend (Z.land instr 0x3F) 6.

(** The second operand of ADD and AND: the sign-extended immediate when
    bit 5 is set, the register SR2 otherwise. *)
Definition operand2 (st : machine) (instr : Z) : Z :=
  if field_imm instr =? 0 then rd st (field_sr2 instr) else imm5 instr.

(** The part of the state that a memory update leaves alone. *)
Definition same_but_memory (st st' : machine) : Prop :=
  reg st' = reg st /\ running st' = running st /\
  stdin st' = stdin st /\ stdout st' = stdout st.

(** A computation that never ends in [abort]. *)
Definition never_aborts {A} (m : M A) : Prop :=
  forall st, m st <> Aborted.

(** The words of a zero-terminated string at the head of [cells], if a
    zero word is among them. *)
Fixpoint c_string (cells : list Z) : option (list Z) :=
  match cells with
  | [] => None
  | w :: rest =>
      if w =? 0 then Some []
      else match c_string rest with
           | Some ws => Some (w :: ws)
           | None => None
           end
  end.

(** The string that starts at address [a]. *)
Definition string_at (st : machine) (a : Z) : option (list Z) :=
  c_string (drop (Z.to_nat a) (memory st)).

(** The characters PUTSP takes from one word: the low byte, then the high
    byte unless it is zero. *)
Definition packed_chars (w : Z) : list Z :=
  (w mod 256) :: (if w / 256 =? 0 then [] else [w / 256]).

(** The machine that [main] is in after [k] iterations over memory that
    holds nothing but zeros. *)
Definition spinning (input : list Z) (k : Z) : machine :=
  Machine (replicate (Z.to_nat UINT16_MAX) 0)
          (<[Z.to_nat R_PC := PC_START + k]> (replicate (Z.to_nat R_COUNT) 0))
          true (keyboard input) [].

(** ** More sample machines *)

(** HALT ([0xF025]) at [0x3000], about to be fetched. *)
Definition before_halt : machine :=
  machine_with [(0x3000, 0xF025)]
    [0; 0; 0; 0; 0; 0; 0; 0; 0x3000; FL_ZRO] [].

Definition halt_fetched : machine :=
  with_reg [0; 0; 0; 0; 0; 0; 0; 0; 0x3001; FL_ZRO] before_halt.

(** R0 = 7 and R1 = [0x4000]; the cell at [0x3002] points to [0x4000]. *)
Definition with_pointer : machine :=
  machine_with [(0x3002, 0x4000)]
    [7; 0x4000; 0; 0; 0; 0; 0; 0; 0x3001; FL_ZRO] [].

(** A TRAP with the unused vector [0x26] ([0xF026]) at [0x3000], about to
    be fetched. *)
Definition before_unknown_trap : machine :=
  machine_with [(0x3000, 0xF026)]
    [1; 2; 3; 4; 5; 6; 7; 8; 0x3000; FL_POS] [97].

Definition unknown_trap_fetched : machine :=
  with_reg [1; 2; 3; 4; 5; 6; 7; 8; 0x3001; FL_POS] before_unknown_trap.

(** PC past an [LDI R0, #1] ([0xA001]) at [0x3000] whose pointer cell,
    [0x3002], holds [0xFFFF]. *)
Definition pointer_to_last_address : machine :=
  machine_with [(0x3002, 0xFFFF)]
    [0; 0; 0; 0; 0; 0; 0; 0; 0x3001; FL_ZRO] [].

(** The state a read of KBSR leaves [keys_pending] in: the first key in
    KBDR, the second in stdio's buffer, nothing on the descriptor. *)
Definition key_in_buffer : machine :=
  machine_with_input [(0xFE02, 97); (0xFE00, 0x8000)]
    [0; 0; 0; 0; 0; 0; 0; 0; 0x3001; FL_ZRO] (Instream [98] [] false 1024).

(** [idle] with standard input at end of file. *)
Definition input_closed : machine :=
  machine_with_input [] [0; 0; 0; 0; 0; 0; 0; 0; 0x3001; FL_ZRO]
    (Instream [] [] true 1024).

(** * Properties *)

(** Projections of updated states. *)
Ltac st_simpl :=
  cbn [memory reg running stdin stdout
       with_memory with_reg with_running with_stdin with_stdout] in *.

(** ** Facts about machine words *)

Lemma land_7_range (x : Z) : 0 <= Z.land x 0x7 <= 7.
Proof.
  change (Z.land x 0x7) with (Z.land x (Z.ones 3)). rewrite Z.land_ones by lia.
  change (2 ^ 3) with 8. pose proof (Z.mod_pos_bound x 8). lia.
Qed.

Lemma u16_range (z : Z) : word_ok (u16 z).
Proof. unfold word_ok, u16. apply Z.mod_pos_bound. lia. Qed.

Lemma u16_small (z : Z) : word_ok z -> u16 z = z.
Proof. unfold word_ok, u16. intros. apply Z.mod_small. lia. Qed.

(** ** Sign extension *)

Lemma land_low_shiftl_high (x y n : Z) :
  0 <= n -> 0 <= x < 2 ^ n -> Z.land x (Z.shiftl y n) = 0.
Proof.
  intros Hn Hx. apply Z.bits_inj'. intros m Hm.
  rewrite Z.land_spec, Z.bits_0. destruct (Z.lt_ge_cases m n).
  - rewrite Z.shiftl_spec_low by done. apply andb_false_r.
  - rewrite <- (Z.mod_small x (2 ^ n)) by done.
    by rewrite Z.mod_pow2_bits_high by lia.
Qed.

(** [sign_extend] is two's-complement sign extension to 16 bits. *)
Lemma sign_extend_signed (x n : Z) :
  1 <= n <= 16 -> 0 <= x < 2 ^ n -> sign_extend x n = u16 (signed n x).
Proof.
  intros Hn Hx. unfold sign_extend, signed, u16.
  assert (2 ^ n = 2 * 2 ^ (n - 1)) as Hpow.
  { rewrite <- Z.pow_succ_r by lia. f_equal. lia. }
  assert (0 < 2 ^ (n - 1)) as Hpos by (apply Z.pow_pos_nonneg; lia).
  assert (2 ^ n <= 65536) as Hle.
  { change 65536 with (2 ^ 16). apply Z.pow_le_mono_r; lia. }
  change (Z.land (Z.shiftr x (n - 1)) 0x1)
    with (Z.land (Z.shiftr x (n - 1)) (Z.ones 1)).
  rewrite Z.land_ones, Z.shiftr_div_pow2 by lia.
  change (2 ^ 1) with 2.
  destruct (x <? 2 ^ (n - 1)) eqn:E.
  - apply Z.ltb_lt in E. rewrite Z.div_small by lia. simpl.
    symmetry. apply Z.mod_small. lia.
  - apply Z.ltb_ge in E.
    assert (x / 2 ^ (n - 1) = 1) as ->.
    { symmetry. apply (Z.div_unique x (2 ^ (n - 1)) 1 (x - 2 ^ (n - 1))); lia. }
    simpl. rewrite <- Z.add_nocarry_lor by (apply land_low_shiftl_high; lia).
    rewrite Z.shiftl_mul_pow2 by lia.
    replace (x + 65535 * 2 ^ n) with (x - 2 ^ n + 2 ^ n * 65536) by lia.
    by rewrite Z.mod_add.
Qed.

Lemma land_ones_range (x n : Z) : 0 <= n -> 0 <= Z.land x (Z.ones n) < 2 ^ n.
Proof.
  intros Hn. rewrite Z.land_ones by done. apply Z.mod_pos_bound.
  by apply Z.pow_pos_nonneg.
Qed.

(** The offsets that the handlers add to PC are the two's-complement
    values of the instruction fields. *)
Lemma pcoffset9_signed (instr : Z) :
  pcoffset9 instr = u16 (signed 9 (Z.land instr 0x1FF)).
Proof.
  apply sign_extend_signed; [lia|]. apply (land_ones_range instr 9). lia.
Qed.

Lemma pcoffset11_signed (instr : Z) :
  pcoffset11 instr = u16 (signed 11 (Z.land instr 0x7FF)).
Proof.
  apply sign_extend_signed; [lia|]. apply (land_ones_range instr 11). lia.
Qed.

Lemma u16_add_u16_r (a b : Z) : u16 (a + u16 b) = u16 (a + b).
Proof. unfold u16. apply Zplus_mod_idemp_r. Qed.

Lemma add_pcoffset9 (a instr : Z) :
  u16 (a + pcoffset9 instr) = u16 (a + signed 9 (Z.land instr 0x1FF)).
Proof. by rewrite pcoffset9_signed, u16_add_u16_r. Qed.

Lemma add_pcoffset11 (a instr : Z) :
  u16 (a + pcoffset11 instr) = u16 (a + signed 11 (Z.land instr 0x7FF)).
Proof. by rewrite pcoffset11_signed, u16_add_u16_r. Qed.

(** ** Well-formedness checks *)

Lemma word_okb_ok (w : Z) : word_okb w = true <-> word_ok w.
Proof. unfold word_okb, word_ok. rewrite andb_true_iff, Z.leb_le, Z.ltb_lt. tauto. Qed.

Lemma byte_okb_ok (b : Z) : byte_okb b = true <-> byte_ok b.
Proof. unfold byte_okb, byte_ok. rewrite andb_true_iff, Z.leb_le, Z.ltb_lt. tauto. Qed.

Lemma forallb_Forall {A} (p : A -> bool) (P : A -> Prop) (l : list A) :
  (forall x, p x = true <-> P x) -> forallb p l = true -> Forall P l.
Proof.
  intros Hp. induction l as [|x l IH]; simpl; intros H.
  - constructor.
  - apply andb_true_iff in H as [Hx Hl]. constructor; [by apply Hp | by apply IH].
Qed.

Lemma wfb_wf (st : machine) : wfb st = true -> wf st.
Proof.
  unfold wfb. rewrite !andb_true_iff.
  intros [[[[[[H1 H2] H3] H4] H5] H6] H7].
  split.
  - by apply Nat.eqb_eq.
  - by apply (forallb_Forall word_okb word_ok); [apply word_okb_ok|].
  - by apply Nat.eqb_eq.
  - by apply (forallb_Forall word_okb word_ok); [apply word_okb_ok|].
  - split.
    + by apply (forallb_Forall byte_okb byte_ok); [apply byte_okb_ok|].
    + by apply (forallb_Forall byte_okb byte_ok); [apply byte_okb_ok|].
    + by apply Z.leb_le.
Qed.

Lemma testbit_15_shiftr (r : Z) :
  word_ok r -> Z.testbit r 15 = negb (Z.shiftr r 15 =? 0).
Proof.
  intros [H0 H1]. rewrite Z.testbit_odd, Z.shiftr_div_pow2 by lia.
  change (2 ^ 15) with 32768.
  assert (r / 32768 = 0 \/ r / 32768 = 1) as [-> | ->]; [|done..].
  assert (0 <= r / 32768 < 2); [|lia].
  split; [apply Z.div_pos; lia | apply Z.div_lt_upper_bound; lia].
Qed.

(** ** The monad *)

Lemma bind_Ok {A B} (m : M A) (k : A -> M B) st b st' :
  bind m k st = Ok (b, st') <->
  exists a st1, m st = Ok (a, st1) /\ k a st1 = Ok (b, st').
Proof.
  unfold bind. split.
  - destruct (m st) as [[a st1]| | |]; try discriminate. eauto.
  - intros (a & st1 & -> & H). done.
Qed.

Lemma bind_eq {A B} (m : M A) (k : A -> M B) st a st1 :
  m st = Ok (a, st1) -> bind m k st = k a st1.
Proof. unfold bind. by intros ->. Qed.

Lemma bind_ext {A B} (m : M A) (k k' : A -> M B) st :
  (forall a st1, m st = Ok (a, st1) -> k a st1 = k' a st1) ->
  bind m k st = bind m k' st.
Proof. intros H. unfold bind. destruct (m st) as [[a st1]| | |]; auto. Qed.

(** ** Registers *)

Lemma rd_set_reg_eq st r v :
  (Z.to_nat r < length (reg st))%nat ->
  rd (with_reg (<[Z.to_nat r := v]> (reg st)) st) r = v.
Proof. intros. unfold rd. simpl. by apply list_lookup_total_insert_eq. Qed.

Lemma rd_set_reg_ne st r r' v :
  Z.to_nat r <> Z.to_nat r' ->
  rd (with_reg (<[Z.to_nat r := v]> (reg st)) st) r' = rd st r'.
Proof. intros. unfold rd. simpl. by apply list_lookup_total_insert_ne. Qed.

Lemma rd_word_ok st r : wf st -> 0 <= r < R_COUNT -> word_ok (rd st r).
Proof.
  intros Hwf Hr. unfold rd. apply Forall_lookup_total_1; [apply Hwf|].
  rewrite (wf_reg_length _ Hwf). unfold R_COUNT in *. lia.
Qed.

Lemma wf_set_reg st r v :
  wf st -> word_ok v -> wf (with_reg (<[Z.to_nat r := v]> (reg st)) st).
Proof.
  intros [] Hv. split; simpl; try done.
  - by rewrite length_insert.
  - by apply Forall_insert.
Qed.

Lemma update_flags_Ok st d :
  word_ok (rd st d) ->
  update_flags d st =
    Ok (tt, with_reg (<[Z.to_nat R_COND := flag_of (rd st d)]> (reg st)) st).
Proof.
  intros Hd. unfold update_flags, bind, get_reg, set_reg, flag_of. fold (rd st d).
  rewrite (testbit_15_shiftr _ Hd).
  destruct (rd st d =? 0) eqn:E.
  - apply Z.eqb_eq in E. rewrite E. done.
  - destruct (Z.shiftr (rd st d) 15 =? 0); done.
Qed.

Lemma flag_of_cases d :
  word_ok (flag_of d) /\
  (flag_of d = FL_NEG \/ flag_of d = FL_ZRO \/ flag_of d = FL_POS).
Proof.
  unfold flag_of, word_ok. change FL_NEG with 4. change FL_ZRO with 2.
  change FL_POS with 1.
  destruct (Z.testbit d 15); [lia|]. destruct (d =? 0); lia.
Qed.

(** What [update_flags] leaves behind, in terms of register values. *)
Lemma update_flags_spec st d :
  wf st -> 0 <= d <= 7 ->
  exists st', update_flags d st = Ok (tt, st') /\ wf st' /\
    rd st' R_COND = flag_of (rd st d) /\
    (forall r, 0 <= r -> r <> R_COND -> rd st' r = rd st r) /\
    memory st' = memory st /\ stdin st' = stdin st /\
    stdout st' = stdout st /\ running st' = running st.
Proof.
  intros Hwf Hd.
  assert (word_ok (rd st d)) as Hok by (apply rd_word_ok; [done | unfold R_COUNT; lia]).
  eexists. split; [by apply update_flags_Ok|].
  split; [|split; [|split]]; [| | |done].
  - apply wf_set_reg; [done | apply (flag_of_cases (rd st d))].
  - apply rd_set_reg_eq. rewrite (wf_reg_length _ Hwf). unfold R_COND, R_COUNT. lia.
  - intros r Hr Hne. apply rd_set_reg_ne. unfold R_COND in *. lia.
Qed.

Lemma field_dr_range instr : 0 <= field_dr instr <= 7.
Proof. apply land_7_range. Qed.

Lemma field_base_range instr : 0 <= field_base instr <= 7.
Proof. apply land_7_range. Qed.

(** The common tail of the handlers that write a destination register:
    [reg[d] = v; update_flags(d);]. *)
Lemma set_reg_update_flags st d v :
  wf st -> 0 <= d <= 7 -> word_ok v ->
  exists st', (set_reg d v ;;; update_flags d) st = Ok (tt, st') /\ wf st' /\
    rd st' d = v /\ rd st' R_COND = flag_of v /\
    (forall r, 0 <= r -> r <> d -> r <> R_COND -> rd st' r = rd st r) /\
    memory st' = memory st /\ stdin st' = stdin st /\
    stdout st' = stdout st /\ running st' = running st.
Proof.
  intros Hwf Hd Hv.
  set (st1 := with_reg (<[Z.to_nat d := v]> (reg st)) st).
  assert (wf st1) as Hwf1 by (by apply wf_set_reg).
  assert (rd st1 d = v) as Hd1.
  { apply rd_set_reg_eq. rewrite (wf_reg_length _ Hwf). unfold R_COUNT. lia. }
  destruct (update_flags_spec st1 d Hwf1 Hd)
    as (st' & Hrun & Hwf' & Hc & Hr & Hm & Hi & Ho & Hg).
  exists st'. split; [exact Hrun|]. split; [done|].
  split; [|split; [|split]].
  - rewrite Hr; [done | lia | unfold R_COND; lia].
  - by rewrite Hc, Hd1.
  - intros r Hr0 Hrd Hrc. rewrite Hr by done. apply rd_set_reg_ne. lia.
  - by rewrite Hm, Hi, Ho, Hg.
Qed.

(** ** [op_lea] *)

(** Claim C1, as the handler has it.  After LEA, DR holds
    [PC + signext(PCoffset9)] modulo 2^16, the offset being the
    two's-complement value of the low nine bits of the instruction, and
    COND has been set by [update_flags] to the flag of that value: the
    condition register is updated, not left alone.  Nothing else
    changes. *)
Theorem op_lea_updates_flags (st : machine) (instr : Z) :
  wf st ->
  exists st', op_lea instr st = Ok (tt, st') /\
    rd st' (field_dr instr) =
      u16 (rd st R_PC + signed 9 (Z.land instr 0x1FF)) /\
    rd st' R_COND = flag_of (rd st' (field_dr instr)) /\
    (forall r, 0 <= r -> r <> field_dr instr -> r <> R_COND ->
       rd st' r = rd st r) /\
    memory st' = memory st /\ stdin st' = stdin st /\
    stdout st' = stdout st /\ running st' = running st.
Proof.
  intros Hwf.
  destruct (set_reg_update_flags st (field_dr instr)
              (u16 (rd st R_PC + pcoffset9 instr)) Hwf
              (field_dr_range instr) (u16_range _))
    as (st' & Hrun & _ & Hd & Hc & Hr & Hrest).
  exists st'. split; [exact Hrun|]. rewrite Hd, <- add_pcoffset9. done.
Qed.

(** ** Memory *)

Lemma in_bounds_lookup st a :
  wf st -> 0 <= a < UINT16_MAX -> is_Some (memory st !! Z.to_nat a).
Proof.
  intros Hwf Ha. apply lookup_lt_is_Some. rewrite (wf_memory_length _ Hwf).
  unfold UINT16_MAX in *. lia.
Qed.

Lemma out_of_bounds_lookup st a :
  wf st -> UINT16_MAX <= a -> memory st !! Z.to_nat a = None.
Proof.
  intros Hwf Ha. apply lookup_ge_None. rewrite (wf_memory_length _ Hwf).
  unfold UINT16_MAX in *. lia.
Qed.

Lemma load_Ok st a v st' :
  load a st = Ok (v, st') <-> cell st a = Some v /\ st' = st.
Proof.
  unfold load, cell. destruct (memory st !! Z.to_nat a); split.
  - by intros [= -> ->].
  - by intros [[= ->] ->].
  - done.
  - by intros [? _].
Qed.

Lemma store_Ok st a v st' :
  store a v st = Ok (tt, st') <->
  is_Some (cell st a) /\
  st' = with_memory (<[Z.to_nat a := v]> (memory st)) st.
Proof.
  unfold store, cell. destruct (memory st !! Z.to_nat a); split.
  - intros [= <-]. eauto.
  - by intros [_ ->].
  - done.
  - by intros [[? ?] _].
Qed.

Lemma wf_store st a v :
  wf st -> word_ok v -> wf (with_memory (<[Z.to_nat a := v]> (memory st)) st).
Proof.
  intros [] Hv. split; simpl; try done.
  - by rewrite length_insert.
  - by apply Forall_insert.
Qed.

(** *** Standard input and the keyboard cells *)

Lemma next_char_spec (i : instream) :
  wf_stdin i ->
  match next_char i with
  | Some (c, i') =>
      wf_stdin i' /\ at_eof i' = at_eof i /\ bufsiz i' = bufsiz i /\
      ((undelivered i = c :: undelivered i' /\ byte_ok c) \/
       (undelivered i = [] /\ at_eof i = true /\ c = EOF /\ i' = i))
  | None => undelivered i = [] /\ at_eof i = false
  end.
Proof.
  destruct i as [b p e n]. unfold next_char, undelivered. simpl.
  intros [Hb Hp Hn]; simpl in *. destruct b as [|c rest].
  - destruct p as [|c rest].
    + rewrite take_nil. destruct e; [|done].
      split; [by split|]. do 2 (split; [done|]). by right.
    + replace (Z.to_nat n) with (S (Z.to_nat (n - 1))) by lia. simpl.
      apply Forall_cons in Hp as [Hc Hrest].
      split; [split; simpl; [by apply Forall_take | by apply Forall_drop | done]|].
      do 2 (split; [done|]). left. by rewrite take_drop.
  - apply Forall_cons in Hb as [Hc Hrest].
    split; [by split|]. do 2 (split; [done|]). by left.
Qed.

Lemma next_char_readable (i : instream) :
  wf_stdin i -> fd_readable i = true -> is_Some (next_char i).
Proof.
  intros Hi Hr. pose proof (next_char_spec i Hi) as H.
  destruct (next_char i) as [[c i']|]; [by eexists|].
  destruct H as [Hu He]. unfold undelivered in Hu.
  apply app_eq_nil in Hu as [_ Hp]. unfold fd_readable in Hr.
  rewrite Hp, He in Hr. done.
Qed.

Lemma next_char_range (i : instream) (c : Z) (i' : instream) :
  wf_stdin i -> next_char i = Some (c, i') -> -1 <= c < 256 /\ wf_stdin i'.
Proof.
  intros Hi H. pose proof (next_char_spec i Hi) as Hs. rewrite H in Hs.
  destruct Hs as (Hi' & _ & _ & [[_ Hc] | (_ & _ & -> & _)]).
  - unfold byte_ok in Hc. split; [lia | done].
  - unfold EOF. split; [lia | done].
Qed.

Lemma wf_with_stdin st i : wf st -> wf_stdin i -> wf (with_stdin i st).
Proof. intros [] Hi. by split. Qed.

Lemma wf_kbd_poll st : wf st -> wf (kbd_poll st).
Proof.
  intros Hwf. unfold kbd_poll. destruct (fd_readable (stdin st)).
  - destruct (next_char (stdin st)) as [[c i]|] eqn:E; [|done].
    apply next_char_range in E as [_ Hi]; [|by apply wf_input].
    destruct Hwf. split; simpl; try done.
    + by rewrite !length_insert.
    + apply Forall_insert; [apply Forall_insert|]; try done.
      * apply u16_range.
  - apply wf_store; [done | unfold word_ok; lia].
Qed.

Lemma kbd_poll_frame st :
  reg (kbd_poll st) = reg st /\ running (kbd_poll st) = running st /\
  stdout (kbd_poll st) = stdout st.
Proof.
  unfold kbd_poll. destruct (fd_readable (stdin st)); [|done].
  by destruct (next_char (stdin st)) as [[c i]|].
Qed.

(** A read of KBSR polls the keyboard, records the result in the two
    device cells, and returns the status cell. *)
Lemma mem_read_KBSR st :
  wf st -> mem_read MR_KBSR st = Ok (kbd_status (stdin st), kbd_poll st).
Proof.
  intros Hwf.
  pose proof (wf_memory_length _ Hwf) as Hlen.
  destruct (in_bounds_lookup st MR_KBSR Hwf) as [s Hs]; [by vm_compute|].
  destruct (in_bounds_lookup st MR_KBDR Hwf) as [d Hd]; [by vm_compute|].
  unfold mem_read, kbd_poll, kbd_status. rewrite Z.eqb_refl.
  unfold bind, check_key, select_stdin, bind, ret, store, getchar, load.
  destruct (fd_readable (stdin st)) eqn:E; simpl.
  - destruct (next_char_readable _ (wf_input _ Hwf) E) as [[c i] Hn].
    rewrite Hs. st_simpl. rewrite Hn. st_simpl.
    rewrite list_lookup_insert_ne by (unfold MR_KBSR, MR_KBDR; lia).
    rewrite Hd. st_simpl.
    rewrite list_lookup_insert_ne by (unfold MR_KBSR, MR_KBDR; lia).
    rewrite list_lookup_insert_eq
      by (rewrite Hlen; unfold MR_KBSR, UINT16_MAX; lia).
    done.
  - rewrite Hs. st_simpl. rewrite list_lookup_insert_eq; [done|].
    rewrite Hlen. unfold MR_KBSR, UINT16_MAX. lia.
Qed.

Lemma cell_kbd_poll_KBSR st :
  wf st -> cell (kbd_poll st) MR_KBSR = Some (kbd_status (stdin st)).
Proof.
  intros Hwf. unfold cell, kbd_poll, kbd_status.
  pose proof (wf_memory_length _ Hwf) as Hlen.
  destruct (fd_readable (stdin st)) eqn:E.
  - destruct (next_char_readable _ (wf_input _ Hwf) E) as [[c i] ->]. st_simpl.
    rewrite list_lookup_insert_ne by (unfold MR_KBSR, MR_KBDR; lia).
    apply list_lookup_insert_eq. rewrite Hlen. unfold MR_KBSR, UINT16_MAX. lia.
  - st_simpl.
    apply list_lookup_insert_eq. rewrite Hlen. unfold MR_KBSR, UINT16_MAX. lia.
Qed.

Lemma mem_read_other st a :
  a <> MR_KBSR -> mem_read a st = load a st.
Proof.
  intros Ha. unfold mem_read. apply Z.eqb_neq in Ha. rewrite Ha. done.
Qed.

Lemma mem_read_Ok st a v st1 :
  wf st -> mem_read a st = Ok (v, st1) ->
  wf st1 /\ cell st1 a = Some v /\ word_ok v /\
  st1 = (if a =? MR_KBSR then kbd_poll st else st).
Proof.
  intros Hwf H.
  assert (forall s, wf s -> cell s a = Some v -> word_ok v) as Hcell.
  { intros s Hs Hc. by apply (Forall_lookup_1 _ _ _ _ (wf_memory _ Hs) Hc). }
  destruct (a =? MR_KBSR) eqn:E.
  - apply Z.eqb_eq in E. subst a. rewrite mem_read_KBSR in H by done.
    injection H as <- <-.
    pose proof (wf_kbd_poll _ Hwf) as Hwf'.
    pose proof (cell_kbd_poll_KBSR _ Hwf) as Hc.
    eauto.
  - apply Z.eqb_neq in E. rewrite mem_read_other in H by done.
    apply load_Ok in H as [Hc ->]. eauto.
Qed.

Lemma mem_read_in_bounds st a :
  wf st -> 0 <= a < UINT16_MAX -> exists v st1, mem_read a st = Ok (v, st1).
Proof.
  intros Hwf Ha. destruct (Z.eq_dec a MR_KBSR) as [-> | Hne].
  - rewrite mem_read_KBSR by done. eauto.
  - rewrite mem_read_other by done. unfold load.
    destruct (in_bounds_lookup st a Hwf Ha) as [v ->]. eauto.
Qed.

Lemma mem_read_out_of_bounds st a :
  wf st -> UINT16_MAX <= a -> mem_read a st = OutOfBounds.
Proof.
  intros Hwf Ha. rewrite mem_read_other by (unfold UINT16_MAX, MR_KBSR in *; lia).
  unfold load. by rewrite out_of_bounds_lookup.
Qed.

Lemma mem_write_in_bounds st a w :
  wf st -> 0 <= a < UINT16_MAX -> exists st1, mem_write a w st = Ok (tt, st1).
Proof.
  intros Hwf Ha. unfold mem_write, store.
  destruct (in_bounds_lookup st a Hwf Ha) as [v ->]. eauto.
Qed.

Lemma mem_write_out_of_bounds st a w :
  wf st -> UINT16_MAX <= a -> mem_write a w st = OutOfBounds.
Proof.
  intros Hwf Ha. unfold mem_write, store. by rewrite out_of_bounds_lookup.
Qed.

(** Claim C2.  The claim: memory has 65,536 cells and every 16-bit address,
    0xFFFF included, can be read and written.  The array is declared with
    [UINT16_MAX] elements, which is 65,535: in every well-formed state the
    last address has no cell, and both [mem_read] and [mem_write] at
    0xFFFF index outside the array. *)
Theorem last_address_outside_memory (st : machine) (w : Z) :
  wf st ->
  Z.of_nat (length (memory st)) = 65535 /\
  mem_read 0xFFFF st = OutOfBounds /\
  mem_write 0xFFFF w st = OutOfBounds.
Proof.
  intros Hwf. split; [|split].
  - rewrite (wf_memory_length _ Hwf). unfold UINT16_MAX. lia.
  - apply mem_read_out_of_bounds; [done | by vm_compute].
  - apply mem_write_out_of_bounds; [done | by vm_compute].
Qed.

(** Claim C3.  The claim: a read of KBSR returns [0x8000] if and only if
    the host has a byte pending.  [check_key] asks [select] about
    descriptor 0, while [getchar] serves stdio's buffer.  When two or more
    keys have arrived together, the first read of KBSR returns [0x8000],
    puts the first key in KBDR and moves the others into the buffer; the
    second read of KBSR then returns 0 and leaves KBDR alone, although the
    second key is waiting. *)
Theorem read_KBSR_misses_buffered_key (st : machine) (c1 c2 : Z)
    (rest : list Z) :
  wf st ->
  buffered (stdin st) = [] -> pending (stdin st) = c1 :: c2 :: rest ->
  at_eof (stdin st) = false ->
  Z.of_nat (length (c1 :: c2 :: rest)) <= bufsiz (stdin st) ->
  exists st1 st2,
    mem_read MR_KBSR st = Ok (0x8000, st1) /\
    cell st1 MR_KBSR = Some 0x8000 /\ cell st1 MR_KBDR = Some c1 /\
    undelivered (stdin st1) = c2 :: rest /\
    mem_read MR_KBSR st1 = Ok (0, st2) /\
    cell st2 MR_KBSR = Some 0 /\ cell st2 MR_KBDR = Some c1 /\
    undelivered (stdin st2) = c2 :: rest.
Proof.
  intros Hwf Hb Hp He Hn.
  pose proof (wf_memory_length _ Hwf) as Hlen.
  assert (Z.to_nat MR_KBSR < length (memory st))%nat as Hs
    by (rewrite Hlen; unfold MR_KBSR, UINT16_MAX; lia).
  assert (Z.to_nat MR_KBDR < length (memory st))%nat as Hd
    by (rewrite Hlen; unfold MR_KBDR, UINT16_MAX; lia).
  assert (Z.to_nat MR_KBSR <> Z.to_nat MR_KBDR) as Hne
    by (unfold MR_KBSR, MR_KBDR; lia).
  pose proof (wf_pending _ (wf_input _ Hwf)) as Hbytes. rewrite Hp in Hbytes.
  apply Forall_cons in Hbytes as [Hc1 _].
  set (i1 := Instream (c2 :: rest) [] false (bufsiz (stdin st))).
  assert (next_char (stdin st) = Some (c1, i1)) as Hnext.
  { unfold next_char. rewrite Hb, Hp, He.
    simpl length in Hn.
    replace (Z.to_nat (bufsiz (stdin st)))
      with (S (Z.to_nat (bufsiz (stdin st) - 1))) by lia.
    simpl. rewrite take_ge, drop_ge by (simpl; lia). done. }
  assert (kbd_poll st =
          with_memory
            (<[Z.to_nat MR_KBDR := c1]>
               (<[Z.to_nat MR_KBSR := 0x8000]> (memory st)))
            (with_stdin i1 st)) as Hpoll1.
  { unfold kbd_poll, fd_readable. rewrite Hp, Hnext.
    rewrite (u16_small c1); [done|]. unfold word_ok, byte_ok in *. lia. }
  pose proof (wf_kbd_poll _ Hwf) as Hwf1.
  exists (kbd_poll st), (kbd_poll (kbd_poll st)).
  split; [rewrite mem_read_KBSR by done; unfold kbd_status, fd_readable;
          by rewrite Hp|].
  split; [rewrite cell_kbd_poll_KBSR by done; unfold kbd_status, fd_readable;
          by rewrite Hp|].
  split.
  { rewrite Hpoll1. unfold cell. st_simpl.
    apply list_lookup_insert_eq. by rewrite length_insert. }
  assert (undelivered i1 = c2 :: rest) as Hu
    by (unfold undelivered; simpl; by rewrite app_nil_r).
  split; [by rewrite Hpoll1|].
  assert (fd_readable (stdin (kbd_poll st)) = false) as Hr
    by (rewrite Hpoll1; reflexivity).
  split; [rewrite mem_read_KBSR by done; unfold kbd_status; by rewrite Hr|].
  split; [rewrite cell_kbd_poll_KBSR by done; unfold kbd_status; by rewrite Hr|].
  unfold kbd_poll at 1 3. rewrite Hr. st_simpl. split; [|by rewrite Hpoll1].
  unfold cell. st_simpl. rewrite list_lookup_insert_ne by done.
  rewrite Hpoll1. st_simpl. apply list_lookup_insert_eq. by rewrite length_insert.
Qed.

(** Claim C6.  For an address other than KBSR, a read that follows a write
    returns the written word and changes nothing; the write itself changes
    that one cell only, so it has no effect on the device cells, the
    registers or the host streams.  The write is defined for every address
    that has a cell.  The address 0xFFFF has none: there the write and the
    read index outside the array, and nothing is read back. *)
Theorem write_then_read (st : machine) (a w : Z) :
  word_ok a -> a <> MR_KBSR ->
  (forall st1, mem_write a w st = Ok (tt, st1) ->
     mem_read a st1 = Ok (w, st1) /\
     (forall b, 0 <= b -> b <> a -> cell st1 b = cell st b) /\
     reg st1 = reg st /\ running st1 = running st /\
     stdin st1 = stdin st /\ stdout st1 = stdout st) /\
  (wf st -> a < UINT16_MAX -> exists st1, mem_write a w st = Ok (tt, st1)) /\
  (wf st -> a = 0xFFFF ->
     mem_write a w st = OutOfBounds /\ mem_read a st = OutOfBounds).
Proof.
  intros Ha Hne. split; [|split].
  - intros st1 H. unfold mem_write in H. apply store_Ok in H as [Hs ->].
    split; [|split; [|done]].
    + rewrite mem_read_other by done. unfold load. st_simpl.
      rewrite list_lookup_insert_eq; [done|]. by apply lookup_lt_is_Some.
    + intros b Hb Hba. unfold cell. st_simpl.
      apply list_lookup_insert_ne. unfold word_ok in Ha. lia.
  - intros Hwf Hlt. apply mem_write_in_bounds; [done|]. unfold word_ok in Ha. lia.
  - intros Hwf ->. split.
    + apply mem_write_out_of_bounds; [done | by vm_compute].
    + apply mem_read_out_of_bounds; [done | by vm_compute].
Qed.

(** ** Loads *)

(** Claim C8.  LDI reads a pointer at [PC + signext(PCoffset9)], the
    offset being the two's-complement value of the low nine bits, and then
    the cell the pointer names, both times with [mem_read]; each read
    returns the content of its cell as the read leaves it, so when the
    first address is KBSR the pointer is the keyboard status just polled
    ([0x8000] or 0).  The value read is placed in DR and the flags are set
    on it.  That is what happens whenever both addresses have a cell; when
    the pointer address or the pointer is 0xFFFF, the address without a
    cell, the instruction indexes outside the array. *)
Theorem op_ldi_reads_through_devices (st : machine) (instr : Z) :
  wf st ->
  let addr := u16 (rd st R_PC + signed 9 (Z.land instr 0x1FF)) in
  (forall st', op_ldi instr st = Ok (tt, st') ->
     exists ptr st1 v st2,
       mem_read addr st = Ok (ptr, st1) /\ mem_read ptr st1 = Ok (v, st2) /\
       cell st1 addr = Some ptr /\ cell st2 ptr = Some v /\
       (addr = MR_KBSR -> ptr = kbd_status (stdin st) /\ st1 = kbd_poll st) /\
       (addr <> MR_KBSR -> st1 = st) /\
       (ptr = MR_KBSR -> v = kbd_status (stdin st1) /\ st2 = kbd_poll st1) /\
       (ptr <> MR_KBSR -> st2 = st1) /\
       rd st' (field_dr instr) = v /\ rd st' R_COND = flag_of v /\
       memory st' = memory st2 /\ stdin st' = stdin st2) /\
  (addr < UINT16_MAX ->
     exists ptr st1, mem_read addr st = Ok (ptr, st1) /\
       (ptr < UINT16_MAX -> exists st', op_ldi instr st = Ok (tt, st')) /\
       (ptr = 0xFFFF -> op_ldi instr st = OutOfBounds)) /\
  (addr = 0xFFFF -> op_ldi instr st = OutOfBounds).
Proof.
  intros Hwf addr.
  assert (op_ldi instr st =
          bind (mem_read addr)
            (fun ptr => bind (mem_read ptr)
               (fun v => set_reg (field_dr instr) v ;;;
                         update_flags (field_dr instr))) st) as Hldi.
  { unfold addr. rewrite <- add_pcoffset9. done. }
  split; [|split].
  - intros st' H. rewrite Hldi in H.
    apply bind_Ok in H as (ptr & st1 & H1 & H).
    apply bind_Ok in H as (v & st2 & H2 & H).
    destruct (mem_read_Ok _ _ _ _ Hwf H1) as (Hwf1 & Hc1 & Hp & Hst1).
    destruct (mem_read_Ok _ _ _ _ Hwf1 H2) as (Hwf2 & Hc2 & Hv & Hst2).
    destruct (set_reg_update_flags st2 (field_dr instr) v Hwf2
                (field_dr_range instr) Hv)
      as (st'' & Hrun & _ & Hd & Hc & _ & Hm & Hi & _).
    rewrite Hrun in H. injection H as <-.
    exists ptr, st1, v, st2.
    split; [done|]. split; [done|]. split; [done|]. split; [done|].
    split; [|split; [|split; [|split; [|done]]]].
    + intros Hk. rewrite Hk, mem_read_KBSR in H1 by done.
      by injection H1 as <- <-.
    + intros Hk. apply Z.eqb_neq in Hk. by rewrite Hk in Hst1.
    + intros Hk. rewrite Hk, mem_read_KBSR in H2 by done.
      by injection H2 as <- <-.
    + intros Hk. apply Z.eqb_neq in Hk. by rewrite Hk in Hst2.
  - intros Hlt.
    destruct (mem_read_in_bounds st addr Hwf) as (ptr & st1 & H1).
    { split; [apply u16_range | done]. }
    exists ptr, st1. split; [done|].
    destruct (mem_read_Ok _ _ _ _ Hwf H1) as (Hwf1 & _ & Hpok & _).
    split.
    + intros Hp.
      destruct (mem_read_in_bounds st1 ptr Hwf1) as (v & st2 & H2).
      { unfold word_ok in Hpok. lia. }
      destruct (mem_read_Ok _ _ _ _ Hwf1 H2) as (Hwf2 & _ & Hv & _).
      destruct (set_reg_update_flags st2 (field_dr instr) v Hwf2
                  (field_dr_range instr) Hv) as (st' & Hrun & _).
      exists st'. rewrite Hldi, (bind_eq _ _ _ _ _ H1), (bind_eq _ _ _ _ _ H2).
      exact Hrun.
    + intros ->. rewrite Hldi, (bind_eq _ _ _ _ _ H1). unfold bind.
      rewrite mem_read_out_of_bounds; [done | done | by vm_compute].
  - intros Ha. rewrite Hldi. unfold bind.
    rewrite Ha, mem_read_out_of_bounds; [done | done | by vm_compute].
Qed.

(** ** Flags *)

Lemma flag_of_iff (d : Z) :
  (flag_of d = FL_NEG <-> Z.testbit d 15 = true) /\
  (flag_of d = FL_ZRO <-> d = 0) /\
  (flag_of d = FL_POS <-> Z.testbit d 15 = false /\ d <> 0).
Proof.
  unfold flag_of. change FL_NEG with 4. change FL_ZRO with 2.
  change FL_POS with 1.
  destruct (Z.testbit d 15) eqn:Hb.
  - assert (d <> 0) by (intros ->; by rewrite Z.testbit_0_l in Hb).
    intuition (discriminate || lia).
  - destruct (d =? 0) eqn:Hz.
    + apply Z.eqb_eq in Hz. intuition (discriminate || lia).
    + apply Z.eqb_neq in Hz. intuition (discriminate || lia).
Qed.

Lemma dispatch_flag_setting instr :
  sets_flags (opcode instr) = true ->
  dispatch instr =
    (if opcode instr =? OP_ADD then op_add instr
     else if opcode instr =? OP_AND then op_and instr
     else if opcode instr =? OP_NOT then op_not instr
     else if opcode instr =? OP_LD then op_ld instr
     else if opcode instr =? OP_LDI then op_ldi instr
     else op_ldr instr).
Proof.
  unfold sets_flags, dispatch. fold (opcode instr).
  generalize (opcode instr). intros op H.
  repeat (apply orb_true_iff in H as [H | H]);
    apply Z.eqb_eq in H; subst op; reflexivity.
Qed.

(** Every flag-setting handler ends in [reg[dr] = v; update_flags(dr);]
    for a 16-bit [v], run from a well-formed state. *)
Lemma flag_setting_tail st instr st' :
  wf st -> sets_flags (opcode instr) = true ->
  dispatch instr st = Ok (tt, st') ->
  exists st1 v, wf st1 /\ word_ok v /\
    (set_reg (field_dr instr) v ;;; update_flags (field_dr instr)) st1
      = Ok (tt, st').
Proof.
  intros Hwf Hop H. rewrite (dispatch_flag_setting _ Hop) in H.
  destruct (opcode instr =? OP_ADD).
  { unfold op_add in H. destruct (negb _).
    - exists st, (u16 (rd st (field_base instr)
                       + sign_extend (Z.land instr 0x1F) 5)).
      split; [done|]. split; [apply u16_range | exact H].
    - exists st, (u16 (rd st (field_base instr) + rd st (Z.land instr 0x7))).
      split; [done|]. split; [apply u16_range | exact H]. }
  destruct (opcode instr =? OP_AND).
  { unfold op_and in H. destruct (negb _).
    - exists st, (u16 (Z.land (rd st (field_base instr))
                         (sign_extend (Z.land instr 0x1F) 5))).
      split; [done|]. split; [apply u16_range | exact H].
    - exists st, (u16 (Z.land (rd st (field_base instr))
                         (rd st (Z.land instr 0x7)))).
      split; [done|]. split; [apply u16_range | exact H]. }
  destruct (opcode instr =? OP_NOT).
  { exists st, (u16 (Z.lnot (rd st (field_base instr)))).
    split; [done|]. split; [apply u16_range | exact H]. }
  destruct (opcode instr =? OP_LD).
  { unfold op_ld in H. apply bind_Ok in H as (pc & st0 & [= <- <-] & H).
    apply bind_Ok in H as (v & st1 & H1 & H).
    destruct (mem_read_Ok _ _ _ _ Hwf H1) as (Hwf1 & _ & Hv & _).
    by exists st1, v. }
  destruct (opcode instr =? OP_LDI).
  { unfold op_ldi in H. apply bind_Ok in H as (pc & st0 & [= <- <-] & H).
    apply bind_Ok in H as (ptr & st1 & H1 & H).
    apply bind_Ok in H as (v & st2 & H2 & H).
    destruct (mem_read_Ok _ _ _ _ Hwf H1) as (Hwf1 & _ & _ & _).
    destruct (mem_read_Ok _ _ _ _ Hwf1 H2) as (Hwf2 & _ & Hv & _).
    by exists st2, v. }
  unfold op_ldr in H. apply bind_Ok in H as (b & st0 & [= <- <-] & H).
  apply bind_Ok in H as (v & st1 & H1 & H).
  destruct (mem_read_Ok _ _ _ _ Hwf H1) as (Hwf1 & _ & Hv & _).
  by exists st1, v.
Qed.

(** Claim C5.  After ADD, AND, NOT, LD, LDI or LDR has executed, COND is
    one of the three flags, chosen by the final value of the destination
    register: NEG exactly when bit 15 is set, ZRO exactly when the value is
    zero, POS exactly in the remaining case.  The state reached is again
    well-formed, so the same holds after every later flag-setting
    instruction. *)
Theorem flags_follow_destination (st : machine) (instr : Z) (st' : machine) :
  wf st -> sets_flags (opcode instr) = true ->
  dispatch instr st = Ok (tt, st') ->
  let d := rd st' (field_dr instr) in
  let cond := rd st' R_COND in
  wf st' /\
  (cond = FL_NEG \/ cond = FL_ZRO \/ cond = FL_POS) /\
  (cond = FL_NEG <-> Z.testbit d 15 = true) /\
  (cond = FL_ZRO <-> d = 0) /\
  (cond = FL_POS <-> Z.testbit d 15 = false /\ d <> 0).
Proof.
  intros Hwf Hop H d cond.
  destruct (flag_setting_tail _ _ _ Hwf Hop H) as (st1 & v & Hwf1 & Hv & Ht).
  destruct (set_reg_update_flags st1 (field_dr instr) v Hwf1
              (field_dr_range instr) Hv)
    as (st'' & Hrun & Hwf' & Hd & Hc & _).
  rewrite Hrun in Ht. injection Ht as ->.
  subst d cond. rewrite Hc, Hd. split; [done|].
  split; [apply flag_of_cases | apply flag_of_iff].
Qed.

(** ADD, AND and NOT touch registers only and always return. *)
Lemma alu_instructions_return (st : machine) (instr : Z) :
  wf st ->
  opcode instr = OP_ADD \/ opcode instr = OP_AND \/ opcode instr = OP_NOT ->
  exists st', dispatch instr st = Ok (tt, st').
Proof.
  intros Hwf Hop.
  assert (forall v, word_ok v ->
            exists st', (set_reg (field_dr instr) v ;;;
                         update_flags (field_dr instr)) st = Ok (tt, st'))
    as Htail.
  { intros v Hv.
    destruct (set_reg_update_flags st (field_dr instr) v Hwf
                (field_dr_range instr) Hv) as (st' & H & _).
    eauto. }
  unfold dispatch. fold (opcode instr).
  destruct Hop as [-> | [-> | ->]]; simpl.
  - unfold op_add. destruct (negb _); apply Htail, u16_range.
  - unfold op_and. destruct (negb _); apply Htail, u16_range.
  - apply Htail, u16_range.
Qed.

(** ** Fetch *)

Lemma reg_kbd_poll st : reg (kbd_poll st) = reg st.
Proof. apply kbd_poll_frame. Qed.

Lemma fetch_Ok st instr st1 :
  wf st -> fetch st = Ok (instr, st1) ->
  wf st1 /\ word_ok instr /\
  rd st1 R_PC = u16 (rd st R_PC + 1) /\
  (forall r, 0 <= r -> r <> R_PC -> rd st1 r = rd st r) /\
  cell st1 (rd st R_PC) = Some instr /\
  running st1 = running st /\ stdout st1 = stdout st.
Proof.
  intros Hwf H. unfold fetch in H.
  apply bind_Ok in H as (pc & st0 & [= <- <-] & H).
  apply bind_Ok in H as ([] & st0 & [= <-] & H). fold (rd st R_PC) in H.
  set (st0 := with_reg _ st) in H.
  assert (wf st0) as Hwf0 by (apply wf_set_reg; [done | apply u16_range]).
  destruct (mem_read_Ok _ _ _ _ Hwf0 H) as (Hwf1 & Hc & Hi & Hst1).
  assert (reg st1 = reg st0 /\ running st1 = running st0
          /\ stdout st1 = stdout st0) as (Hr & Hg & Ho).
  { rewrite Hst1. destruct (_ =? _); [|done].
    apply kbd_poll_frame. }
  split; [done|]. split; [done|]. unfold rd at 1. rewrite Hr.
  split; [|split; [|done]].
  - apply (rd_set_reg_eq st R_PC). rewrite (wf_reg_length _ Hwf).
    unfold R_PC, R_COUNT. lia.
  - intros r Hr0 Hne. unfold rd at 1. rewrite Hr.
    apply (rd_set_reg_ne st R_PC). unfold R_PC in *. lia.
Qed.

(** Unless the instruction is fetched from KBSR, the fetch touches nothing
    but PC. *)
Lemma fetch_frame st instr st1 :
  wf st -> fetch st = Ok (instr, st1) -> rd st R_PC <> MR_KBSR ->
  memory st1 = memory st /\ stdin st1 = stdin st.
Proof.
  intros Hwf H Hpc. unfold fetch in H.
  apply bind_Ok in H as (pc & st0 & [= <- <-] & H).
  apply bind_Ok in H as ([] & st0 & [= <-] & H). fold (rd st R_PC) in H.
  rewrite mem_read_other in H by done. by apply load_Ok in H as [_ ->].
Qed.

(** ** [op_jsr] *)

Lemma op_jsr_spec st instr :
  wf st ->
  exists st', op_jsr instr st = Ok (tt, st') /\ wf st' /\
    rd st' R_R7 = rd st R_PC /\
    rd st' R_PC =
      (if field_long instr =? 0 then
         if field_base instr =? R_R7 then rd st R_PC
         else rd st (field_base instr)
       else u16 (rd st R_PC + pcoffset11 instr)) /\
    (forall r, 0 <= r -> r <> R_R7 -> r <> R_PC -> rd st' r = rd st r) /\
    memory st' = memory st /\ stdin st' = stdin st /\
    stdout st' = stdout st /\ running st' = running st.
Proof.
  intros Hwf.
  pose proof (wf_reg_length _ Hwf) as Hlen.
  pose proof (field_base_range instr) as Hb.
  assert (word_ok (rd st R_PC)) as Hpc by (by apply rd_word_ok).
  set (st1 := with_reg (<[Z.to_nat R_R7 := rd st R_PC]> (reg st)) st).
  assert (wf st1) as Hwf1 by (by apply wf_set_reg).
  assert (rd st1 R_PC = rd st R_PC) as Hpc1 by (by apply rd_set_reg_ne).
  assert (rd st1 R_R7 = rd st R_PC) as H71.
  { apply rd_set_reg_eq. rewrite Hlen. unfold R_R7, R_COUNT. lia. }
  set (target := if field_long instr =? 0 then
                   if field_base instr =? R_R7 then rd st R_PC
                   else rd st (field_base instr)
                 else u16 (rd st R_PC + pcoffset11 instr)).
  assert (word_ok target) as Htarget.
  { unfold target. destruct (_ =? 0); [|apply u16_range].
    destruct (_ =? R_R7); [done|]. apply rd_word_ok; [done|]. unfold R_COUNT. lia. }
  exists (with_reg (<[Z.to_nat R_PC := target]> (reg st1)) st1).
  split; [|split; [by apply wf_set_reg|split; [|split; [|split]]]].
  - unfold op_jsr, bind, get_reg, set_reg. fold (rd st R_PC). fold st1.
    fold (field_long instr). fold (field_base instr).
    fold (pcoffset11 instr). unfold target.
    destruct (field_long instr =? 0); cbn [negb]; cbv beta;
      fold (rd st1 R_PC); fold (rd st1 (field_base instr));
      [|by rewrite Hpc1].
    destruct (field_base instr =? R_R7) eqn:E.
    + apply Z.eqb_eq in E. by rewrite E, H71.
    + apply Z.eqb_neq in E. unfold st1. rewrite rd_set_reg_ne; [done|].
      unfold R_R7 in *. lia.
  - rewrite rd_set_reg_ne by done. exact H71.
  - apply rd_set_reg_eq. unfold st1. st_simpl. rewrite length_insert, Hlen.
    unfold R_PC, R_COUNT. lia.
  - intros r Hr H7 H8. rewrite rd_set_reg_ne by (unfold R_PC in *; lia).
    apply rd_set_reg_ne. unfold R_R7 in *. lia.
  - done.
Qed.

Lemma dispatch_jsr instr : opcode instr = OP_JSR -> dispatch instr = op_jsr instr.
Proof. unfold dispatch. fold (opcode instr). by intros ->. Qed.

(** Claim C7.  When the word fetched is a JSR or JSRR, the handler runs
    with PC already incremented and first copies that PC, the return
    address, into R7, in both forms; only then is PC set, to the return
    address plus [signext(PCoffset11)], the two's-complement value of the
    low eleven bits, in the long form and to BaseR in the register form.
    BaseR is read after R7 has been written, so with BaseR = R7 the PC
    receives the return address. *)
Theorem jsr_links_before_jumping (st : machine) (instr : Z) (st1 : machine) :
  wf st -> fetch st = Ok (instr, st1) -> opcode instr = OP_JSR ->
  let return_address := u16 (rd st R_PC + 1) in
  exists st', step st = Ok (tt, st') /\
    op_jsr instr st1 = Ok (tt, st') /\
    rd st1 R_PC = return_address /\
    rd st' R_R7 = return_address /\
    (field_long instr <> 0 ->
       rd st' R_PC =
         u16 (return_address + signed 11 (Z.land instr 0x7FF))) /\
    (field_long instr = 0 -> field_base instr <> R_R7 ->
       rd st' R_PC = rd st (field_base instr)) /\
    (field_long instr = 0 -> field_base instr = R_R7 ->
       rd st' R_PC = return_address) /\
    (forall r, 0 <= r -> r <> R_R7 -> r <> R_PC -> rd st' r = rd st r) /\
    memory st' = memory st1 /\ stdin st' = stdin st1 /\
    stdout st' = stdout st /\ running st' = running st.
Proof.
  intros Hwf Hf Hop ra.
  destruct (fetch_Ok _ _ _ Hwf Hf) as (Hwf1 & _ & Hpc & Hr & _ & Hg & Ho).
  destruct (op_jsr_spec st1 instr Hwf1)
    as (st' & Hrun & _ & H7 & Hpc' & Hr' & Hm & Hi & Ho' & Hg').
  pose proof (field_base_range instr) as Hb.
  exists st'. split; [|split; [done|]].
  { unfold step. rewrite (bind_eq _ _ _ _ _ Hf), dispatch_jsr by done. exact Hrun. }
  rewrite H7, Hpc', Hpc. fold ra.
  split; [done|]. split; [done|]. split; [|split; [|split; [|split]]].
  - intros Hl. apply Z.eqb_neq in Hl. by rewrite Hl, add_pcoffset11.
  - intros Hl Hb7. apply Z.eqb_neq in Hb7. rewrite Hl, Hb7. simpl.
    apply Hr; unfold R_PC; lia.
  - intros Hl Hb7. apply Z.eqb_eq in Hb7. by rewrite Hl, Hb7.
  - intros r Hr0 Hn7 Hn8. rewrite Hr' by done. by apply Hr.
  - by rewrite Hm, Hi, Ho', Hg', Ho, Hg.
Qed.

(** ** Traps *)

(** Claim C9.  A TRAP whose vector is outside [0x20 .. 0x25] does nothing:
    the handler returns the state it was given, with registers, memory,
    running flag and both streams as they were, so that a whole iteration
    of the loop leaves the state exactly as the fetch left it: PC one
    further and, unless the instruction was fetched from KBSR, nothing
    else changed. *)
Theorem unknown_trap_is_ignored (st : machine) (instr : Z) :
  ~ (0x20 <= trapvect8 instr <= 0x25) ->
  op_trap instr st = Ok (tt, st) /\
  (opcode instr = OP_TRAP ->
     dispatch instr st = Ok (tt, st) /\
     forall st0, wf st0 -> fetch st0 = Ok (instr, st) ->
       step st0 = Ok (tt, st) /\
       rd st R_PC = u16 (rd st0 R_PC + 1) /\
       (forall r, 0 <= r -> r <> R_PC -> rd st r = rd st0 r) /\
       running st = running st0 /\ stdout st = stdout st0 /\
       (rd st0 R_PC <> MR_KBSR ->
          memory st = memory st0 /\ stdin st = stdin st0)).
Proof.
  intros Hv.
  assert (op_trap instr st = Ok (tt, st)) as Htrap.
  { unfold op_trap. fold (trapvect8 instr).
    unfold TRAP_GETC, TRAP_OUT, TRAP_PUTS, TRAP_IN, TRAP_PUTSP, TRAP_HALT.
    repeat (destruct (trapvect8 instr =? _) eqn:?;
            [apply Z.eqb_eq in Heqb; lia | clear Heqb]).
    done. }
  split; [done|]. intros Hop.
  assert (dispatch instr st = Ok (tt, st)) as Hd.
  { unfold dispatch. fold (opcode instr). by rewrite Hop. }
  split; [done|]. intros st0 Hwf0 Hf.
  destruct (fetch_Ok _ _ _ Hwf0 Hf) as (_ & _ & Hpc & Hr & _ & Hg & Ho).
  split; [unfold step; by rewrite (bind_eq _ _ _ _ _ Hf)|].
  repeat (split; [done|]). by apply (fetch_frame st0 instr st).
Qed.

Lemma same_but_stdout_refl st : same_but_stdout st st.
Proof. done. Qed.

Lemma same_but_stdout_trans st1 st2 st3 :
  same_but_stdout st1 st2 -> same_but_stdout st2 st3 -> same_but_stdout st1 st3.
Proof. unfold same_but_stdout. intros (-> & -> & -> & ->) (-> & -> & -> & ->). done. Qed.

Lemma putc_frame c st : same_but_stdout st (with_stdout (stdout st ++ [c mod 256]) st).
Proof. done. Qed.

Lemma puts_loop_frame n : forall ptr_c st st',
  puts_loop n ptr_c st = Ok (tt, st') -> same_but_stdout st st'.
Proof.
  induction n as [|n IH]; intros p st st' H; [done|].
  simpl in H. apply bind_Ok in H as (w & st1 & H1 & H).
  apply load_Ok in H1 as [_ ->].
  destruct (w =? 0); [by injection H as <-|].
  apply bind_Ok in H as ([] & st2 & [= <-] & H).
  apply IH in H. eapply same_but_stdout_trans; [apply putc_frame | exact H].
Qed.

Lemma putsp_loop_frame n : forall ptr_c st st',
  putsp_loop n ptr_c st = Ok (tt, st') -> same_but_stdout st st'.
Proof.
  induction n as [|n IH]; intros p st st' H; [done|].
  simpl in H. apply bind_Ok in H as (w & st1 & H1 & H).
  apply load_Ok in H1 as [_ ->].
  destruct (w =? 0); [by injection H as <-|].
  apply bind_Ok in H as ([] & st2 & [= <-] & H).
  apply bind_Ok in H as ([] & st3 & H3 & H).
  apply IH in H.
  eapply same_but_stdout_trans; [apply putc_frame|].
  eapply same_but_stdout_trans; [|exact H].
  destruct (negb _); injection H3 as <-; [apply putc_frame | done].
Qed.

(** A zero word [k] cells after [ptr_c] ends the loop within [k + 1]
    iterations. *)
Lemma puts_loop_terminates (k : nat) : forall n ptr_c st,
  0 <= ptr_c -> cell st (ptr_c + Z.of_nat k) = Some 0 -> (k < n)%nat ->
  exists st', puts_loop n ptr_c st = Ok (tt, st').
Proof.
  induction k as [|k IH]; intros n p st Hp Hz Hn;
    (destruct n as [|n]; [lia|]); simpl.
  - rewrite Z.add_0_r in Hz. unfold bind, load. unfold cell in Hz. rewrite Hz.
    simpl. eauto.
  - assert (is_Some (cell st p)) as [w Hw].
    { apply lookup_lt_is_Some. apply lookup_lt_Some in Hz. lia. }
    unfold bind at 1, load. unfold cell in Hw. rewrite Hw.
    destruct (w =? 0); [unfold ret; eauto|].
    unfold bind, putc. apply IH; [lia | | lia].
    unfold cell in *. st_simpl. rewrite <- Hz. f_equal. lia.
Qed.

Lemma putsp_loop_terminates (k : nat) : forall n ptr_c st,
  0 <= ptr_c -> cell st (ptr_c + Z.of_nat k) = Some 0 -> (k < n)%nat ->
  exists st', putsp_loop n ptr_c st = Ok (tt, st').
Proof.
  induction k as [|k IH]; intros n p st Hp Hz Hn;
    (destruct n as [|n]; [lia|]); simpl.
  - rewrite Z.add_0_r in Hz. unfold bind, load. unfold cell in Hz. rewrite Hz.
    simpl. eauto.
  - assert (is_Some (cell st p)) as [w Hw].
    { apply lookup_lt_is_Some. apply lookup_lt_Some in Hz. lia. }
    unfold bind at 1, load. unfold cell in Hw. rewrite Hw.
    destruct (w =? 0); [unfold ret; eauto|].
    unfold bind at 1, putc. unfold bind at 1.
    destruct (negb _); unfold putc, ret;
      (apply IH; [lia | | lia]);
      unfold cell in *; st_simpl; rewrite <- Hz; f_equal; lia.
Qed.

(** The bound on the number of iterations is never what stops the loop:
    past the length of the array, more iterations change nothing. *)
Lemma puts_loop_bound (n : nat) : forall m ptr_c st,
  0 <= ptr_c -> (length (memory st) < n + Z.to_nat ptr_c)%nat -> (n <= m)%nat ->
  puts_loop m ptr_c st = puts_loop n ptr_c st.
Proof.
  induction n as [|n IH]; intros m p st Hp Hlen Hm.
  - destruct m as [|m]; [done|]. simpl. unfold bind, load.
    by rewrite lookup_ge_None_2 by lia.
  - destruct m as [|m]; [lia|]. simpl.
    apply bind_ext. intros w st1 [_ ->]%load_Ok.
    destruct (w =? 0); [done|].
    apply bind_ext. intros [] st2 [= <-].
    apply IH; st_simpl; lia.
Qed.

Lemma putsp_loop_bound (n : nat) : forall m ptr_c st,
  0 <= ptr_c -> (length (memory st) < n + Z.to_nat ptr_c)%nat -> (n <= m)%nat ->
  putsp_loop m ptr_c st = putsp_loop n ptr_c st.
Proof.
  induction n as [|n IH]; intros m p st Hp Hlen Hm.
  - destruct m as [|m]; [done|]. simpl. unfold bind, load.
    by rewrite lookup_ge_None_2 by lia.
  - destruct m as [|m]; [lia|]. simpl.
    apply bind_ext. intros w st1 [_ ->]%load_Ok.
    destruct (w =? 0); [done|].
    apply bind_ext. intros [] st2 [= <-].
    apply bind_ext. intros [] st3 H.
    apply IH; [lia | | lia].
    destruct (negb _); injection H as <-; st_simpl; lia.
Qed.

(** Claim C10.  PUTS and PUTSP read the string straight from the array:
    whenever they return, memory as a whole, hence the KBSR and KBDR cells,
    the pending input and the registers are what they were, whatever cells
    the string covers.  They do return whenever a zero word lies at or
    after the address in R0. *)
Theorem puts_reads_memory_directly (st : machine) (instr : Z) :
  trapvect8 instr = TRAP_PUTS \/ trapvect8 instr = TRAP_PUTSP ->
  (forall st', op_trap instr st = Ok (tt, st') ->
     memory st' = memory st /\
     cell st' MR_KBSR = cell st MR_KBSR /\
     cell st' MR_KBDR = cell st MR_KBDR /\
     stdin st' = stdin st /\
     reg st' = reg st /\ running st' = running st) /\
  (wf st ->
   (exists k : nat, cell st (rd st R_R0 + Z.of_nat k) = Some 0) ->
   exists st', op_trap instr st = Ok (tt, st')).
Proof.
  intros Hv.
  assert (op_trap instr st =
          if trapvect8 instr =? TRAP_PUTS
          then (puts_loop (S (length (memory st))) (rd st R_R0) ;;; ret tt) st
          else (putsp_loop (S (length (memory st))) (rd st R_R0) ;;; ret tt) st)
    as Htrap.
  { unfold op_trap. fold (trapvect8 instr). by destruct Hv as [-> | ->]. }
  rewrite Htrap. split.
  - intros st' H.
    assert (same_but_stdout st st') as (Hm & Hr & Hi & Hg).
    { destruct (_ =? _); apply bind_Ok in H as ([] & st1 & H1 & [= <-]);
        [by apply puts_loop_frame in H1 | by apply putsp_loop_frame in H1]. }
    unfold cell. by rewrite Hm.
  - intros Hwf [k Hk].
    assert (0 <= rd st R_R0) as H0.
    { apply (rd_word_ok st R_R0 Hwf). by vm_compute. }
    assert (k < S (length (memory st)))%nat as Hlt.
    { apply lookup_lt_Some in Hk. lia. }
    destruct (_ =? _).
    + destruct (puts_loop_terminates k _ _ st H0 Hk Hlt) as [st' H].
      exists st'. by rewrite (bind_eq _ _ _ _ _ H).
    + destruct (putsp_loop_terminates k _ _ st H0 Hk Hlt) as [st' H].
      exists st'. by rewrite (bind_eq _ _ _ _ _ H).
Qed.

(** ** Image loader *)

Lemma land_shiftl_low (x b : Z) :
  Z.land (Z.shiftl x 8) (b mod 2 ^ 8) = 0.
Proof.
  apply Z.bits_inj'. intros n Hn. rewrite Z.land_spec, Z.bits_0.
  destruct (Z.lt_ge_cases n 8).
  - by rewrite Z.shiftl_spec_low.
  - rewrite Z.mod_pow2_bits_high by lia. apply andb_false_r.
Qed.

Lemma swap16_host_view w : word_ok w -> swap16 (host_view w) = w.
Proof.
  intros [H0 H1]. unfold swap16, host_view, u16.
  assert (0 <= w / 256 < 256) as Hhi
    by (split; [apply Z.div_pos; lia | apply Z.div_lt_upper_bound; lia]).
  pose proof (Z.mod_pos_bound w 256 ltac:(lia)) as Hlo.
  rewrite Z.shiftr_div_pow2 by lia. change (2 ^ 8) with 256.
  replace ((w / 256 + 256 * (w mod 256)) / 256) with (w mod 256)
    by (rewrite Z.add_comm, Z.mul_comm, Z.div_add_l by lia;
        rewrite (Z.div_small (w / 256)) by lia; lia).
  rewrite <- Z.add_nocarry_lor by apply (land_shiftl_low _ w).
  rewrite Z.shiftl_mul_pow2 by lia. change (2 ^ 8) with 256.
  pose proof (Z.div_mod w 256 ltac:(lia)).
  replace ((w / 256 + 256 * (w mod 256)) * 256 + w mod 256)
    with (w + (w mod 256) * 65536) by lia.
  rewrite Z.mod_add by lia. apply Z.mod_small. lia.
Qed.

Lemma host_words_be16 w bytes :
  host_words (be16 w ++ bytes) = host_view w :: host_words bytes.
Proof. done. Qed.

Lemma host_words_payload payload :
  host_words (concat (map be16 payload)) = map host_view payload.
Proof.
  induction payload as [|w ws IH]; [done|].
  change (concat (map be16 (w :: ws))) with (be16 w ++ concat (map be16 ws)).
  by rewrite host_words_be16, IH.
Qed.

Lemma length_payload_bytes payload :
  length (concat (map be16 payload)) = (2 * length payload)%nat.
Proof. induction payload as [|w ws IH]; simpl; lia. Qed.

Lemma with_memory_same st : with_memory (memory st) st = st.
Proof. by destruct st. Qed.

Lemma fread_store_Ok elems : forall p_curr st,
  0 <= p_curr ->
  (Z.to_nat p_curr + length elems <= length (memory st))%nat ->
  fread_store p_curr elems [] st =
    Ok (tt, with_memory (list_inserts (Z.to_nat p_curr) elems (memory st)) st).
Proof.
  induction elems as [|w rest IH]; intros p st Hp Hlen; simpl.
  - by rewrite with_memory_same.
  - simpl in Hlen. unfold bind, store.
    destruct (lookup_lt_is_Some_2 (memory st) (Z.to_nat p)) as [v ->]; [lia|].
    rewrite IH by (st_simpl; rewrite ?length_insert; lia). st_simpl.
    replace (Z.to_nat (p + 1)) with (S (Z.to_nat p)) by lia.
    rewrite <- list_insert_inserts_lt by lia. done.
Qed.

Lemma swap_loop_Ok elems : forall p_curr st m0,
  0 <= p_curr ->
  (Z.to_nat p_curr + length elems <= length m0)%nat ->
  memory st = list_inserts (Z.to_nat p_curr) elems m0 ->
  swap_loop (length elems) p_curr st =
    Ok (tt, with_memory
              (list_inserts (Z.to_nat p_curr) (map swap16 elems) m0) st).
Proof.
  induction elems as [|w rest IH]; intros p st m0 Hp Hlen Hm; simpl.
  - simpl in Hm. by rewrite <- Hm, with_memory_same.
  - simpl in Hlen, Hm.
    assert (Z.to_nat p < length (list_inserts (S (Z.to_nat p)) rest m0))%nat
      as Hin by (rewrite length_inserts; lia).
    unfold bind at 1, load. rewrite Hm, list_lookup_insert_eq by done.
    unfold bind at 1, store. rewrite Hm, list_lookup_insert_eq by done.
    rewrite list_insert_insert_eq, list_insert_inserts_lt by lia.
    replace (Z.to_nat (p + 1)) with (S (Z.to_nat p)) by lia.
    rewrite (IH (p + 1) _ (<[Z.to_nat p := swap16 w]> m0)).
    + st_simpl. replace (Z.to_nat (p + 1)) with (S (Z.to_nat p)) by lia.
      by rewrite <- list_insert_inserts_lt by lia.
    + lia.
    + rewrite length_insert. lia.
    + st_simpl. by replace (Z.to_nat (p + 1)) with (S (Z.to_nat p)) by lia.
Qed.

Lemma map_swap16_host_view ws :
  Forall word_ok ws -> map swap16 (map host_view ws) = ws.
Proof.
  induction 1 as [|w ws Hw _ IH]; [done|]. simpl.
  by rewrite swap16_host_view, IH.
Qed.

(** Loading an image that consists of whole words: the payload lands at
    [origin] onwards, cut off after [UINT16_MAX - origin] words. *)
Theorem read_image_file_image (st : machine) (origin : Z) (payload : list Z) :
  wf st -> word_ok origin -> Forall word_ok payload ->
  read_image_file (image_file origin payload) st =
    Ok (tt, with_memory
              (list_inserts (Z.to_nat origin)
                 (take (Z.to_nat (UINT16_MAX - origin)) payload)
                 (memory st)) st).
Proof.
  intros Hwf Ho Hp. unfold read_image_file, image_file.
  assert (fread16 1 (be16 origin ++ concat (map be16 payload)) =
          ([host_view origin], [], concat (map be16 payload))) as ->.
  { unfold fread16. rewrite host_words_be16. done. }
  rewrite swap16_host_view by done.
  assert (u16 (UINT16_MAX - origin) = UINT16_MAX - origin) as ->
    by (apply u16_small; unfold word_ok, UINT16_MAX in *; lia).
  set (n := Z.to_nat (UINT16_MAX - origin)).
  assert (exists rest,
    fread16 n (concat (map be16 payload)) =
      (map host_view (take n payload), [], rest)) as [rest ->].
  { unfold fread16. rewrite host_words_payload, firstn_map, length_map.
    destruct (_ <? _)%nat eqn:E; [|eauto].
    apply Nat.ltb_lt in E. rewrite length_take in E.
    rewrite take_ge by lia. rewrite drop_ge; [eauto|].
    rewrite length_payload_bytes. lia. }
  pose proof (wf_memory_length _ Hwf) as Hlen.
  assert (Z.to_nat origin + length (map host_view (take n payload))
          <= length (memory st))%nat as Hfit.
  { rewrite length_map, length_take, Hlen. unfold n, word_ok, UINT16_MAX in *. lia. }
  unfold bind. rewrite fread_store_Ok by (unfold word_ok in Ho; lia || done).
  rewrite (swap_loop_Ok _ _ _ (memory st)); try done; [|unfold word_ok in Ho; lia].
  rewrite map_swap16_host_view by (by apply Forall_take). done.
Qed.

(** ** Well-formedness is an invariant of the loop *)

Lemma keeps_ret {A} (a : A) (Q : A -> Prop) : Q a -> keeps (ret a) Q.
Proof. intros HQ st Hwf. done. Qed.

Lemma keeps_bind {A B} (m : M A) (k : A -> M B) Q R :
  keeps m Q -> (forall a, Q a -> keeps (k a) R) -> keeps (bind m k) R.
Proof.
  intros Hm Hk st Hwf. unfold bind. specialize (Hm st Hwf).
  destruct (m st) as [[a st1]| | |]; try done.
  destruct Hm as [Hwf1 Ha]. by apply (Hk a Ha st1).
Qed.

Lemma keeps_weaken {A} (m : M A) (Q R : A -> Prop) :
  keeps m Q -> (forall a, Q a -> R a) -> keeps m R.
Proof.
  intros Hm HQR st Hwf. specialize (Hm st Hwf).
  destruct (m st) as [[a st1]| | |]; try done. destruct Hm. eauto.
Qed.

Lemma keeps_get_reg r : 0 <= r < R_COUNT -> keeps (get_reg r) word_ok.
Proof. intros Hr st Hwf. split; [done | by apply rd_word_ok]. Qed.

Lemma keeps_set_reg r v : word_ok v -> keeps (set_reg r v) (fun _ => True).
Proof. intros Hv st Hwf. split; [by apply wf_set_reg | done]. Qed.

Lemma keeps_load a : keeps (load a) word_ok.
Proof.
  intros st Hwf. unfold load. destruct (memory st !! Z.to_nat a) eqn:E; [|done].
  split; [done|]. by apply (Forall_lookup_1 _ _ _ _ (wf_memory _ Hwf) E).
Qed.

Lemma keeps_store a v : word_ok v -> keeps (store a v) (fun _ => True).
Proof.
  intros Hv st Hwf. unfold store. destruct (memory st !! Z.to_nat a); [|done].
  split; [by apply wf_store | done].
Qed.

Lemma keeps_getchar : keeps getchar (fun c => -1 <= c < 256).
Proof.
  intros st Hwf. unfold getchar.
  destruct (next_char (stdin st)) as [[c i]|] eqn:E; [|done].
  apply next_char_range in E as [Hc Hi]; [|by apply wf_input].
  split; [by apply wf_with_stdin | done].
Qed.

Lemma keeps_putc c : keeps (putc c) (fun _ => True).
Proof. intros st Hwf. split; [|done]. destruct Hwf. by split. Qed.

Lemma keeps_put_bytes l : keeps (put_bytes l) (fun _ => True).
Proof.
  induction l as [|c l IH]; simpl; [by apply keeps_ret|].
  eapply keeps_bind; [apply keeps_putc | done].
Qed.

Lemma keeps_mem_read a : keeps (mem_read a) word_ok.
Proof.
  intros st Hwf. destruct (mem_read a st) as [[v st1]| | |] eqn:E; try done.
  by destruct (mem_read_Ok _ _ _ _ Hwf E) as (? & _ & ? & _).
Qed.

Lemma keeps_mem_write a v : word_ok v -> keeps (mem_write a v) (fun _ => True).
Proof. apply keeps_store. Qed.

Lemma keeps_update_flags d : 0 <= d <= 7 -> keeps (update_flags d) (fun _ => True).
Proof.
  intros Hd st Hwf.
  destruct (update_flags_spec st d Hwf Hd) as (st' & -> & Hwf' & _). done.
Qed.

Create HintDb keeps.

#[local] Hint Resolve keeps_ret keeps_get_reg keeps_set_reg keeps_load keeps_store
  keeps_getchar keeps_putc keeps_put_bytes keeps_mem_read keeps_mem_write
  keeps_update_flags u16_range field_dr_range field_base_range : keeps.

Lemma reg_index_ok r : 0 <= r <= 7 -> 0 <= r < R_COUNT.
Proof. unfold R_COUNT. lia. Qed.

#[local] Hint Resolve reg_index_ok land_7_range : keeps.

Ltac keeps_step :=
  match goal with
  | |- keeps (bind _ _) _ => eapply keeps_bind; [|intros ? ?]
  | |- keeps (if ?b then _ else _) _ => destruct b
  | |- keeps (get_reg _) _ => apply keeps_get_reg
  | |- keeps (ret _) _ => apply keeps_ret
  | |- keeps _ _ => eauto with keeps
  | |- 0 <= R_PC < R_COUNT => by vm_compute
  | |- 0 <= R_COND < R_COUNT => by vm_compute
  | |- 0 <= R_R0 < R_COUNT => by vm_compute
  | |- 0 <= Z.land _ 7 < R_COUNT => apply reg_index_ok, land_7_range
  | |- word_ok (u16 _) => apply u16_range
  | |- True => exact I
  end.

Lemma keeps_handlers instr :
  keeps (op_add instr) (fun _ => True) /\ keeps (op_and instr) (fun _ => True) /\
  keeps (op_not instr) (fun _ => True) /\ keeps (op_br instr) (fun _ => True) /\
  keeps (op_jmp instr) (fun _ => True) /\ keeps (op_jsr instr) (fun _ => True) /\
  keeps (op_ld instr) (fun _ => True) /\ keeps (op_ldi instr) (fun _ => True) /\
  keeps (op_ldr instr) (fun _ => True) /\ keeps (op_lea instr) (fun _ => True) /\
  keeps (op_st instr) (fun _ => True) /\ keeps (op_sti instr) (fun _ => True) /\
  keeps (op_str instr) (fun _ => True).
Proof.
  repeat apply conj;
    unfold op_add, op_and, op_not, op_br, op_jmp, op_jsr, op_ld, op_ldi,
      op_ldr, op_lea, op_st, op_sti, op_str;
    repeat keeps_step.
Qed.

Lemma keeps_puts_loop n : forall p, keeps (puts_loop n p) (fun _ => True).
Proof.
  induction n as [|n IH]; intros p; simpl; [done|].
  repeat keeps_step.
Qed.

Lemma keeps_putsp_loop n : forall p, keeps (putsp_loop n p) (fun _ => True).
Proof.
  induction n as [|n IH]; intros p; simpl; [done|].
  repeat keeps_step.
Qed.

Lemma keeps_op_trap instr : keeps (op_trap instr) (fun _ => True).
Proof.
  unfold op_trap, trap_getc, trap_out, trap_puts, trap_in, trap_putsp, trap_halt.
  repeat keeps_step;
    try (intros st Hwf; first [apply keeps_puts_loop | apply keeps_putsp_loop]; done).
  intros st Hwf. split; [|done]. destruct Hwf. by split.
Qed.

Lemma keeps_dispatch instr : keeps (dispatch instr) (fun _ => True).
Proof.
  pose proof (keeps_handlers instr)
    as (? & ? & ? & ? & ? & ? & ? & ? & ? & ? & ? & ? & ?).
  pose proof (keeps_op_trap instr).
  unfold dispatch. repeat (destruct (_ =? _); [done|]). done.
Qed.

Lemma keeps_fetch : keeps fetch word_ok.
Proof. unfold fetch. repeat keeps_step. Qed.

(** One iteration of the loop takes a well-formed state to a well-formed
    state. *)
Theorem step_keeps_wf (st st' : machine) :
  wf st -> step st = Ok (tt, st') -> wf st'.
Proof.
  intros Hwf H.
  assert (keeps step (fun _ => True)) as Hk.
  { unfold step. eapply keeps_bind; [apply keeps_fetch|].
    intros instr _. apply keeps_dispatch. }
  specialize (Hk st Hwf). rewrite H in Hk. tauto.
Qed.

Theorem steps_keep_wf (n : nat) (st st' : machine) :
  wf st -> steps n st = Ok (tt, st') -> wf st'.
Proof.
  revert st. induction n as [|n IH]; intros st Hwf H; simpl in H.
  - by injection H as <-.
  - destruct (running st); [|by injection H as <-].
    apply bind_Ok in H as ([] & st1 & H1 & H).
    eapply IH; [|exact H]. by eapply step_keeps_wf.
Qed.

Lemma wf_keyboard input : Forall byte_ok input -> wf_stdin (keyboard input).
Proof. intros Hin. by split. Qed.

Lemma wf_initial input : Forall byte_ok input -> wf (initial input).
Proof.
  intros Hin. unfold initial. split; st_simpl.
  - apply length_replicate.
  - apply Forall_replicate. unfold word_ok. lia.
  - apply length_replicate.
  - apply Forall_replicate. unfold word_ok. lia.
  - by apply wf_keyboard.
Qed.

(** ** The loader, cell by cell *)

(** Extra X3.  Loading the image of an origin and a list of words (the
    origin and each word as two big-endian bytes) returns and leaves every
    word in host order at [origin], [origin + 1], ... as far as the array
    reaches, with every other cell as it was: the file that serialises a
    range of cells restores those cells. *)
Lemma read_image_file_cells (st : machine) (origin : Z) (payload : list Z) :
  wf st -> word_ok origin -> Forall word_ok payload ->
  exists st', read_image_file (image_file origin payload) st = Ok (tt, st') /\
    length (memory st') = length (memory st) /\
    forall a, 0 <= a < UINT16_MAX ->
      cell st' a =
        if decide (origin <= a < origin + Z.of_nat (length payload))
        then payload !! Z.to_nat (a - origin)
        else cell st a.
Proof.
  intros Hwf Ho Hp. eexists. split; [by apply read_image_file_image|].
  pose proof (wf_memory_length _ Hwf) as Hlen.
  split; [st_simpl; apply length_inserts|].
  intros a Ha. unfold cell. st_simpl.
  set (n := Z.to_nat (UINT16_MAX - origin)).
  unfold word_ok, UINT16_MAX in *.
  case_decide as Hin.
  - rewrite list_lookup_inserts by (rewrite ?length_take; lia).
    rewrite lookup_take_lt by lia. f_equal. lia.
  - destruct (Z.lt_ge_cases a origin).
    + by rewrite list_lookup_inserts_lt by lia.
    + by rewrite list_lookup_inserts_ge by (rewrite length_take; lia).
Qed.

(** * Instances *)

Lemma wf_idle : wf idle.
Proof. apply wfb_wf. by vm_compute. Qed.

Lemma wf_keys_pending : wf keys_pending.
Proof. apply wfb_wf. by vm_compute. Qed.

Lemma wf_before_jsrr : wf before_jsrr.
Proof. apply wfb_wf. by vm_compute. Qed.

Lemma wf_ldi_through_kbsr : wf ldi_through_kbsr.
Proof. apply wfb_wf. by vm_compute. Qed.

Lemma wf_string_over_devices : wf string_over_devices.
Proof. apply wfb_wf. by vm_compute. Qed.

Lemma wf_initial_no_input : wf (initial []).
Proof. by apply wf_initial. Qed.

(** Claim C1, as stated, fails: [LEA R0, #2] run with COND = ZRO leaves
    [0x3003] in R0 and COND = POS. *)
Lemma lea_changes_cond :
  wf idle /\
  op_lea 0xE002 idle = Ok (tt, idle_after_lea) /\
  rd idle_after_lea (field_dr 0xE002) =
    u16 (rd idle R_PC + signed 9 (Z.land 0xE002 0x1FF)) /\
  rd idle_after_lea R_COND <> rd idle R_COND.
Proof.
  split; [exact wf_idle|]. split; [reflexivity|].
  split; by vm_compute.
Qed.

Lemma op_lea_updates_flags_witness :
  wf idle /\
  exists st', op_lea 0xE002 idle = Ok (tt, st') /\
    rd st' (field_dr 0xE002) =
      u16 (rd idle R_PC + signed 9 (Z.land 0xE002 0x1FF)) /\
    rd st' R_COND = flag_of (rd st' (field_dr 0xE002)) /\
    (forall r, 0 <= r -> r <> field_dr 0xE002 -> r <> R_COND ->
       rd st' r = rd idle r) /\
    memory st' = memory idle /\ stdin st' = stdin idle /\
    stdout st' = stdout idle /\ running st' = running idle.
Proof.
  split; [exact wf_idle | exact (op_lea_updates_flags idle 0xE002 wf_idle)].
Defined.

Lemma last_address_outside_memory_witness :
  wf (initial []) /\
  Z.of_nat (length (memory (initial []))) = 65535 /\
  mem_read 0xFFFF (initial []) = OutOfBounds /\
  mem_write 0xFFFF 0x1234 (initial []) = OutOfBounds.
Proof.
  split; [exact wf_initial_no_input|].
  exact (last_address_outside_memory (initial []) 0x1234 wf_initial_no_input).
Defined.

Lemma read_KBSR_misses_buffered_key_witness :
  wf keys_pending /\
  buffered (stdin keys_pending) = [] /\
  pending (stdin keys_pending) = [97; 98] /\
  at_eof (stdin keys_pending) = false /\
  Z.of_nat (length [97; 98]) <= bufsiz (stdin keys_pending) /\
  exists st1 st2,
    mem_read MR_KBSR keys_pending = Ok (0x8000, st1) /\
    cell st1 MR_KBSR = Some 0x8000 /\ cell st1 MR_KBDR = Some 97 /\
    undelivered (stdin st1) = [98] /\
    mem_read MR_KBSR st1 = Ok (0, st2) /\
    cell st2 MR_KBSR = Some 0 /\ cell st2 MR_KBDR = Some 97 /\
    undelivered (stdin st2) = [98].
Proof.
  assert (Z.of_nat (length [97; 98]) <= bufsiz (stdin keys_pending)) as Hn
    by (vm_compute; discriminate).
  split; [exact wf_keys_pending|]. do 3 (split; [reflexivity|]).
  split; [exact Hn|].
  exact (read_KBSR_misses_buffered_key keys_pending 97 98 [] wf_keys_pending
           eq_refl eq_refl eq_refl Hn).
Defined.

(** The two reads, evaluated on two keys typed together: the first reports
    a key and delivers [97]; the second reports none, with [98] in stdio's
    buffer and nothing left on the descriptor. *)
Example read_KBSR_keys_pending :
  match mem_read MR_KBSR keys_pending with
  | Ok (v, st') => Some (v, cell st' MR_KBSR, cell st' MR_KBDR, stdin st')
  | _ => None
  end = Some (0x8000, Some 0x8000, Some 97, Instream [98] [] false 1024).
Proof. by vm_compute. Qed.

Example read_KBSR_leaves_key_in_buffer :
  mem_read MR_KBSR keys_pending = Ok (0x8000, key_in_buffer).
Proof. reflexivity. Qed.

Example read_KBSR_twice :
  match (mem_read MR_KBSR ;;; mem_read MR_KBSR) keys_pending with
  | Ok (v, st') => Some (v, cell st' MR_KBSR, cell st' MR_KBDR, stdin st')
  | _ => None
  end = Some (0, Some 0, Some 97, Instream [98] [] false 1024).
Proof. by vm_compute. Qed.

Example read_KBSR_no_key :
  match mem_read MR_KBSR idle with
  | Ok (v, st') => Some (v, cell st' MR_KBSR, cell st' MR_KBDR, stdin st')
  | _ => None
  end = Some (0, Some 0, Some 0, keyboard []).
Proof. by vm_compute. Qed.

Lemma flags_follow_destination_witness :
  wf idle /\ sets_flags (opcode 0x103F) = true /\
  dispatch 0x103F idle = Ok (tt, idle_after_add) /\
  let d := rd idle_after_add (field_dr 0x103F) in
  let cond := rd idle_after_add R_COND in
  wf idle_after_add /\
  (cond = FL_NEG \/ cond = FL_ZRO \/ cond = FL_POS) /\
  (cond = FL_NEG <-> Z.testbit d 15 = true) /\
  (cond = FL_ZRO <-> d = 0) /\
  (cond = FL_POS <-> Z.testbit d 15 = false /\ d <> 0).
Proof.
  assert (dispatch 0x103F idle = Ok (tt, idle_after_add)) as H
    by reflexivity.
  split; [exact wf_idle|]. split; [reflexivity|]. split; [exact H|].
  exact (flags_follow_destination idle 0x103F idle_after_add
           wf_idle eq_refl H).
Defined.

Lemma write_then_read_witness :
  word_ok 0x4000 /\ 0x4000 <> MR_KBSR /\
  (forall st1, mem_write 0x4000 0xBEEF (initial []) = Ok (tt, st1) ->
     mem_read 0x4000 st1 = Ok (0xBEEF, st1) /\
     (forall b, 0 <= b -> b <> 0x4000 -> cell st1 b = cell (initial []) b) /\
     reg st1 = reg (initial []) /\ running st1 = running (initial []) /\
     stdin st1 = stdin (initial []) /\ stdout st1 = stdout (initial [])) /\
  (wf (initial []) -> 0x4000 < UINT16_MAX ->
   exists st1, mem_write 0x4000 0xBEEF (initial []) = Ok (tt, st1)) /\
  (wf (initial []) -> 0x4000 = 0xFFFF ->
   mem_write 0x4000 0xBEEF (initial []) = OutOfBounds /\
   mem_read 0x4000 (initial []) = OutOfBounds).
Proof.
  assert (word_ok 0x4000) as Ha by (unfold word_ok; lia).
  assert (0x4000 <> MR_KBSR) as Hne by (unfold MR_KBSR; lia).
  split; [exact Ha|]. split; [exact Hne|].
  exact (write_then_read (initial []) 0x4000 0xBEEF Ha Hne).
Defined.

(** The round trip at the last address: the write indexes outside the
    array, and so would the read. *)
Example write_read_last_address :
  (mem_write 0xFFFF 0xBEEF ;;; mem_read 0xFFFF) (initial []) = OutOfBounds /\
  mem_read 0xFFFF (initial []) = OutOfBounds.
Proof. split; by vm_compute. Qed.

Lemma jsr_links_before_jumping_witness :
  wf before_jsrr /\ fetch before_jsrr = Ok (0x41C0, jsrr_fetched) /\
  opcode 0x41C0 = OP_JSR /\
  let return_address := u16 (rd before_jsrr R_PC + 1) in
  exists st', step before_jsrr = Ok (tt, st') /\
    op_jsr 0x41C0 jsrr_fetched = Ok (tt, st') /\
    rd jsrr_fetched R_PC = return_address /\
    rd st' R_R7 = return_address /\
    (field_long 0x41C0 <> 0 ->
       rd st' R_PC =
         u16 (return_address + signed 11 (Z.land 0x41C0 0x7FF))) /\
    (field_long 0x41C0 = 0 -> field_base 0x41C0 <> R_R7 ->
       rd st' R_PC = rd before_jsrr (field_base 0x41C0)) /\
    (field_long 0x41C0 = 0 -> field_base 0x41C0 = R_R7 ->
       rd st' R_PC = return_address) /\
    (forall r, 0 <= r -> r <> R_R7 -> r <> R_PC ->
       rd st' r = rd before_jsrr r) /\
    memory st' = memory jsrr_fetched /\ stdin st' = stdin jsrr_fetched /\
    stdout st' = stdout before_jsrr /\ running st' = running before_jsrr.
Proof.
  assert (fetch before_jsrr = Ok (0x41C0, jsrr_fetched)) as H
    by reflexivity.
  split; [exact wf_before_jsrr|]. split; [exact H|]. split; [reflexivity|].
  exact (jsr_links_before_jumping before_jsrr 0x41C0 jsrr_fetched
           wf_before_jsrr H eq_refl).
Defined.

(** [JSRR R7], evaluated: R7 held [0x1234]; after the instruction both R7
    and PC hold the return address [0x3001]. *)
Example jsrr_r7_falls_through :
  match step before_jsrr with
  | Ok (_, st') => Some (rd before_jsrr R_R7, rd st' R_R7, rd st' R_PC)
  | _ => None
  end = Some (0x1234, 0x3001, 0x3001).
Proof. by vm_compute. Qed.

Lemma op_ldi_reads_through_devices_witness :
  wf ldi_through_kbsr /\
  let addr :=
    u16 (rd ldi_through_kbsr R_PC + signed 9 (Z.land 0xA201 0x1FF)) in
  (forall st', op_ldi 0xA201 ldi_through_kbsr = Ok (tt, st') ->
     exists ptr st1 v st2,
       mem_read addr ldi_through_kbsr = Ok (ptr, st1) /\
       mem_read ptr st1 = Ok (v, st2) /\
       cell st1 addr = Some ptr /\ cell st2 ptr = Some v /\
       (addr = MR_KBSR ->
        ptr = kbd_status (stdin ldi_through_kbsr) /\
        st1 = kbd_poll ldi_through_kbsr) /\
       (addr <> MR_KBSR -> st1 = ldi_through_kbsr) /\
       (ptr = MR_KBSR -> v = kbd_status (stdin st1) /\ st2 = kbd_poll st1) /\
       (ptr <> MR_KBSR -> st2 = st1) /\
       rd st' (field_dr 0xA201) = v /\ rd st' R_COND = flag_of v /\
       memory st' = memory st2 /\ stdin st' = stdin st2) /\
  (addr < UINT16_MAX ->
     exists ptr st1, mem_read addr ldi_through_kbsr = Ok (ptr, st1) /\
       (ptr < UINT16_MAX ->
        exists st', op_ldi 0xA201 ldi_through_kbsr = Ok (tt, st')) /\
       (ptr = 0xFFFF -> op_ldi 0xA201 ldi_through_kbsr = OutOfBounds)) /\
  (addr = 0xFFFF -> op_ldi 0xA201 ldi_through_kbsr = OutOfBounds).
Proof.
  split; [exact wf_ldi_through_kbsr|].
  exact (op_ldi_reads_through_devices ldi_through_kbsr 0xA201
           wf_ldi_through_kbsr).
Defined.

(** The same LDI, evaluated: the pointer is the status [0x8000] just
    polled, R1 receives the cell at [0x8000], the key has been consumed
    into KBDR. *)
Example ldi_through_kbsr_result :
  match op_ldi 0xA201 ldi_through_kbsr with
  | Ok (_, st') =>
      Some (rd st' R_R1, rd st' R_COND, cell st' MR_KBSR, cell st' MR_KBDR,
            stdin st')
  | _ => None
  end = Some (0x42, FL_POS, Some 0x8000, Some 97, keyboard []).
Proof. by vm_compute. Qed.

(** LDI through a pointer to the last address: the second read indexes
    outside the array. *)
Example ldi_through_last_address :
  cell pointer_to_last_address 0x3002 = Some 0xFFFF /\
  op_ldi 0xA001 pointer_to_last_address = OutOfBounds.
Proof. split; by vm_compute. Qed.

Lemma unknown_trap_is_ignored_witness :
  ~ (0x20 <= trapvect8 0xF026 <= 0x25) /\
  op_trap 0xF026 idle = Ok (tt, idle) /\
  (opcode 0xF026 = OP_TRAP ->
     dispatch 0xF026 idle = Ok (tt, idle) /\
     forall st0, wf st0 -> fetch st0 = Ok (0xF026, idle) ->
       step st0 = Ok (tt, idle) /\
       rd idle R_PC = u16 (rd st0 R_PC + 1) /\
       (forall r, 0 <= r -> r <> R_PC -> rd idle r = rd st0 r) /\
       running idle = running st0 /\ stdout idle = stdout st0 /\
       (rd st0 R_PC <> MR_KBSR ->
          memory idle = memory st0 /\ stdin idle = stdin st0)).
Proof.
  assert (~ (0x20 <= trapvect8 0xF026 <= 0x25)) as H
    by (vm_compute; intros [_ Hle]; apply Hle; reflexivity).
  split; [exact H | exact (unknown_trap_is_ignored idle 0xF026 H)].
Defined.

(** A whole iteration over the unused vector [0x26], evaluated: the state
    after it is the state the fetch left. *)
Example unknown_trap_step :
  fetch before_unknown_trap = Ok (0xF026, unknown_trap_fetched) /\
  step before_unknown_trap = Ok (tt, unknown_trap_fetched).
Proof. split; reflexivity. Qed.

Lemma puts_reads_memory_directly_witness :
  (trapvect8 0xF022 = TRAP_PUTS \/ trapvect8 0xF022 = TRAP_PUTSP) /\
  (forall st', op_trap 0xF022 string_over_devices = Ok (tt, st') ->
     memory st' = memory string_over_devices /\
     cell st' MR_KBSR = cell string_over_devices MR_KBSR /\
     cell st' MR_KBDR = cell string_over_devices MR_KBDR /\
     stdin st' = stdin string_over_devices /\
     reg st' = reg string_over_devices /\
     running st' = running string_over_devices) /\
  (wf string_over_devices ->
   (exists k : nat,
      cell string_over_devices
        (rd string_over_devices R_R0 + Z.of_nat k) = Some 0) ->
   exists st', op_trap 0xF022 string_over_devices = Ok (tt, st')).
Proof.
  assert (trapvect8 0xF022 = TRAP_PUTS \/ trapvect8 0xF022 = TRAP_PUTSP) as H
    by (left; reflexivity).
  split; [exact H|].
  exact (puts_reads_memory_directly string_over_devices 0xF022 H).
Defined.

(** PUTS over the device cells, evaluated: the four characters are
    written, KBSR and KBDR keep their content, the key stays pending. *)
Example puts_over_devices_result :
  match op_trap 0xF022 string_over_devices with
  | Ok (_, st') =>
      Some (stdout st', cell st' MR_KBSR, cell st' MR_KBDR, stdin st')
  | _ => None
  end = Some ([104; 105; 33; 63], Some 105, Some 63, keyboard [97]).
Proof. by vm_compute. Qed.

Example putsp_over_devices_result :
  match op_trap 0xF024 string_over_devices with
  | Ok (_, st') =>
      Some (stdout st', cell st' MR_KBSR, cell st' MR_KBDR, stdin st')
  | _ => None
  end = Some ([104; 105; 33; 63], Some 105, Some 63, keyboard [97]).
Proof. by vm_compute. Qed.

(** Claim C4 at an image with origin [0xFFFE] and two payload words: the
    claim places them at [0xFFFE] and [0xFFFF]; the loader asks [fread] for
    [UINT16_MAX - origin = 1] element, stores the first word at [0xFFFE]
    and drops the second.  No image reaches [0xFFFF]. *)
Theorem loader_stops_below_last_address :
  read_image_file (image_file 0xFFFE [0x1234; 0x5678]) (initial []) =
    Ok (tt, with_memory (<[Z.to_nat 0xFFFE := 0x1234]> (memory (initial [])))
              (initial [])) /\
  cell (with_memory (<[Z.to_nat 0xFFFE := 0x1234]> (memory (initial [])))
          (initial [])) 0xFFFF = None.
Proof.
  split.
  - rewrite read_image_file_image.
    + reflexivity.
    + exact wf_initial_no_input.
    + unfold word_ok. lia.
    + repeat constructor; lia.
  - unfold cell. st_simpl. apply lookup_ge_None.
    rewrite length_insert. unfold initial. st_simpl.
    rewrite length_replicate. unfold UINT16_MAX. lia.
Qed.

(** ** Whole runs *)

(** HALT alone. *)
Example run_halt :
  run_image 5 0x3000 [0xF025] [] = Ok (bytes_of_string "HATL" ++ [10], false).
Proof. by vm_compute. Qed.

(** [LEA R0, #2; PUTS; HALT] followed by the string. *)
Example run_puts_hello :
  run_image 10 0x3000 [0xE002; 0xF022; 0xF025; 104; 101; 108; 108; 111; 0] []
  = Ok (bytes_of_string "hello" ++ bytes_of_string "HATL" ++ [10], false).
Proof. by vm_compute. Qed.

(** [ADD R1, R1, #-1; LDR R0, R1, #0]: a load from [0xFFFF] leaves the
    array. *)
Example run_load_last_address :
  run_image 2 0x3000 [0x127F; 0x6040] [] = OutOfBounds.
Proof. by vm_compute. Qed.

(** [ADD R1, R1, #-1; STR R0, R1, #0]: so does a store. *)
Example run_store_last_address :
  run_image 2 0x3000 [0x127F; 0x7040] [] = OutOfBounds.
Proof. by vm_compute. Qed.

(** A reserved opcode aborts. *)
Example run_reserved_opcode :
  run_image 1 0x3000 [0xD000] [] = Aborted.
Proof. by vm_compute. Qed.

(** * Further properties *)

(** ** Words and bits *)

Lemma word_ok_bits (x : Z) :
  word_ok x <-> 0 <= x /\ forall i, 16 <= i -> Z.testbit x i = false.
Proof.
  split.
  - intros Hx. split; [apply Hx|]. intros i Hi.
    rewrite <- (Z.mod_small x (2 ^ 16)) by exact Hx.
    by rewrite Z.mod_pow2_bits_high by lia.
  - intros [H0 Hhi]. assert (x = x mod 2 ^ 16) as ->.
    { apply Z.bits_inj'. intros n Hn. destruct (Z.lt_ge_cases n 16).
      - by rewrite Z.mod_pow2_bits_low.
      - by rewrite Z.mod_pow2_bits_high, Hhi by lia. }
    apply Z.mod_pos_bound. lia.
Qed.

Lemma word_ok_land (a b : Z) : word_ok a -> word_ok (Z.land a b).
Proof.
  intros Ha. apply word_ok_bits. apply word_ok_bits in Ha as [H0 Hhi].
  split; [apply Z.land_nonneg; by left|].
  intros i Hi. by rewrite Z.land_spec, Hhi.
Qed.

Lemma word_ok_lor (a b : Z) : word_ok a -> word_ok b -> word_ok (Z.lor a b).
Proof.
  intros [Ha Hah]%word_ok_bits [Hb Hbh]%word_ok_bits. apply word_ok_bits.
  split; [by apply Z.lor_nonneg|].
  intros i Hi. by rewrite Z.lor_spec, Hah, Hbh.
Qed.

(** [swap16] exchanges the two bytes of a word. *)
Lemma swap16_bytes (x : Z) :
  word_ok x -> swap16 x = (x mod 256) * 256 + x / 256.
Proof.
  intros [H0 H1]. unfold swap16, u16.
  assert (0 <= x / 256 < 256) as Hhi
    by (split; [apply Z.div_pos; lia | apply Z.div_lt_upper_bound; lia]).
  pose proof (Z.mod_pos_bound x 256 ltac:(lia)) as Hlo.
  pose proof (Z.div_mod x 256 ltac:(lia)) as Hx.
  rewrite Z.shiftr_div_pow2 by lia. change (2 ^ 8) with 256.
  rewrite <- (Z.mod_small (x / 256) (2 ^ 8)) at 1 by exact Hhi.
  rewrite <- Z.add_nocarry_lor by apply land_shiftl_low.
  rewrite Z.shiftl_mul_pow2 by lia. change (2 ^ 8) with 256.
  rewrite (Z.mod_small (x / 256)) by lia.
  replace (x * 256 + x / 256)
    with ((x mod 256) * 256 + x / 256 + (x / 256) * 65536) by lia.
  rewrite Z.mod_add by lia. apply Z.mod_small. lia.
Qed.

(** Extra X2.  [swap16] maps 16-bit words to 16-bit words and is its own
    inverse: swapping the bytes twice gives the word back. *)
Theorem swap16_involutive (x : Z) :
  word_ok x -> word_ok (swap16 x) /\ swap16 (swap16 x) = x.
Proof.
  intros Hx. split; [apply u16_range|].
  rewrite (swap16_bytes (swap16 x)) by apply u16_range.
  rewrite (swap16_bytes x) by done. destruct Hx as [H0 H1].
  assert (0 <= x / 256 < 256) as Hhi
    by (split; [apply Z.div_pos; lia | apply Z.div_lt_upper_bound; lia]).
  pose proof (Z.mod_pos_bound x 256 ltac:(lia)) as Hlo.
  pose proof (Z.div_mod x 256 ltac:(lia)) as Hx.
  replace ((x mod 256 * 256 + x / 256) mod 256) with (x / 256).
  2:{ rewrite Z.add_comm, Z.mod_add by lia. symmetry. apply Z.mod_small. lia. }
  replace ((x mod 256 * 256 + x / 256) / 256) with (x mod 256).
  2:{ rewrite Z.add_comm, Z.div_add by lia. rewrite Z.div_small by lia. lia. }
  lia.
Qed.

(** Extra X1.  [sign_extend] is two's-complement sign extension of an
    [n]-bit field to 16 bits: the result is a 16-bit word, it equals the
    signed value of the field modulo 2^16, its low [n] bits are those of
    the field and bits [n] to 15 all repeat bit [n - 1]. *)
Theorem sign_extend_twos_complement (x n : Z) :
  1 <= n <= 16 -> 0 <= x < 2 ^ n ->
  word_ok (sign_extend x n) /\
  sign_extend x n = u16 (signed n x) /\
  (forall i, 0 <= i < n -> Z.testbit (sign_extend x n) i = Z.testbit x i) /\
  (forall i, n <= i < 16 ->
     Z.testbit (sign_extend x n) i = Z.testbit x (n - 1)).
Proof.
  intros Hn Hx.
  assert (sign_extend x n = u16 (signed n x)) as Heq
    by (by apply sign_extend_signed).
  split; [rewrite Heq; apply u16_range|]. split; [exact Heq|].
  assert (2 ^ n = 2 * 2 ^ (n - 1)) as Hpow.
  { rewrite <- Z.pow_succ_r by lia. f_equal. lia. }
  assert (0 < 2 ^ (n - 1)) as Hpos by (apply Z.pow_pos_nonneg; lia).
  assert (forall i, n <= i -> Z.testbit x i = false) as Hhigh.
  { intros i Hi. rewrite <- (Z.mod_small x (2 ^ n)) by done.
    by rewrite Z.mod_pow2_bits_high by lia. }
  assert (Z.testbit x (n - 1) = negb (x <? 2 ^ (n - 1))) as Hsign.
  { rewrite Z.testbit_odd, Z.shiftr_div_pow2 by lia.
    destruct (x <? 2 ^ (n - 1)) eqn:E.
    - apply Z.ltb_lt in E. by rewrite Z.div_small by lia.
    - apply Z.ltb_ge in E.
      assert (x / 2 ^ (n - 1) = 1) as ->; [|done].
      symmetry. apply (Z.div_unique x (2 ^ (n - 1)) 1 (x - 2 ^ (n - 1))); lia. }
  unfold sign_extend.
  change (Z.land (Z.shiftr x (n - 1)) 0x1)
    with (Z.land (Z.shiftr x (n - 1)) (Z.ones 1)).
  rewrite Z.land_ones by lia. change (2 ^ 1) with 2.
  rewrite <- Z.bit0_mod.
  assert ((Z.b2z (Z.testbit (Z.shiftr x (n - 1)) 0) =? 0) =
          negb (Z.testbit x (n - 1))) as ->.
  { rewrite Z.shiftr_spec by lia. replace (0 + (n - 1)) with (n - 1) by lia.
    by destruct (Z.testbit x (n - 1)). }
  rewrite negb_involutive.
  destruct (Z.testbit x (n - 1)) eqn:Hb.
  - unfold u16. change 65536 with (2 ^ 16). split; intros i Hi.
    + rewrite Z.mod_pow2_bits_low, Z.lor_spec, Z.shiftl_spec_low by lia.
      apply orb_false_r.
    + rewrite Z.mod_pow2_bits_low, Z.lor_spec, Z.shiftl_spec by lia.
      rewrite Hhigh by lia. simpl.
      change 0xFFFF with (Z.ones 16). apply Z.ones_spec_low. lia.
  - split; intros i Hi; [done | by apply Hhigh; lia].
Qed.

(** ** Arithmetic and logic instructions *)

Lemma imm5_signed (instr : Z) :
  imm5 instr = u16 (signed 5 (Z.land instr 0x1F)).
Proof.
  apply sign_extend_signed; [lia|]. apply (land_ones_range instr 5). lia.
Qed.

Lemma offset6_signed (instr : Z) :
  offset6 instr = u16 (signed 6 (Z.land instr 0x3F)).
Proof.
  apply sign_extend_signed; [lia|]. apply (land_ones_range instr 6). lia.
Qed.

Lemma add_offset6 (a instr : Z) :
  u16 (a + offset6 instr) = u16 (a + signed 6 (Z.land instr 0x3F)).
Proof. by rewrite offset6_signed, u16_add_u16_r. Qed.

Lemma operand2_signed st instr :
  operand2 st instr =
    if field_imm instr =? 0 then rd st (field_sr2 instr)
    else u16 (signed 5 (Z.land instr 0x1F)).
Proof. unfold operand2. destruct (_ =? 0); [done | apply imm5_signed]. Qed.

Lemma operand2_word_ok st instr : wf st -> word_ok (operand2 st instr).
Proof.
  intros Hwf. unfold operand2. destruct (_ =? 0).
  - apply rd_word_ok; [done|]. apply reg_index_ok, land_7_range.
  - rewrite imm5_signed. apply u16_range.
Qed.

Lemma land_le_l (x y : Z) : 0 <= x -> Z.land x y <= x.
Proof.
  intros Hx. apply Z.ldiff_le; [done|]. apply Z.bits_inj'. intros n Hn.
  rewrite Z.ldiff_spec, Z.land_spec, Z.bits_0.
  by destruct (Z.testbit x n), (Z.testbit y n).
Qed.

(** Extra X6.  ADD leaves in DR the sum modulo 2^16 of SR1 and either SR2
    or the signed value of the 5-bit immediate, sets COND to the flag of
    that sum, and changes nothing else. *)
Theorem op_add_adds (st : machine) (instr : Z) :
  wf st ->
  exists st', op_add instr st = Ok (tt, st') /\ wf st' /\
    rd st' (field_dr instr) =
      u16 (rd st (field_base instr)
           + (if field_imm instr =? 0 then rd st (field_sr2 instr)
              else signed 5 (Z.land instr 0x1F))) /\
    rd st' R_COND = flag_of (rd st' (field_dr instr)) /\
    (forall r, 0 <= r -> r <> field_dr instr -> r <> R_COND ->
       rd st' r = rd st r) /\
    memory st' = memory st /\ stdin st' = stdin st /\
    stdout st' = stdout st /\ running st' = running st.
Proof.
  intros Hwf.
  set (v := u16 (rd st (field_base instr) + operand2 st instr)).
  destruct (set_reg_update_flags st (field_dr instr) v Hwf
              (field_dr_range instr) (u16_range _))
    as (st' & Hrun & Hwf' & Hd & Hc & Hr & Hrest).
  exists st'. split.
  { rewrite <- Hrun. unfold op_add, v, operand2. fold (field_imm instr).
    by destruct (field_imm instr =? 0). }
  split; [done|]. rewrite Hd. split; [|done].
  unfold v, operand2. destruct (_ =? 0); [done|].
  by rewrite imm5_signed, u16_add_u16_r.
Qed.

(** Extra X7.  AND leaves in DR the bitwise conjunction of SR1 and the
    second operand, SR2 or the 16-bit two's-complement pattern of the
    five-bit immediate; the result never exceeds SR1, and COND is set on
    it; with the immediate 0 it clears DR and sets ZRO.  Nothing else
    changes. *)
Theorem op_and_masks (st : machine) (instr : Z) :
  wf st ->
  exists st', op_and instr st = Ok (tt, st') /\ wf st' /\
    rd st' (field_dr instr) =
      Z.land (rd st (field_base instr))
        (if field_imm instr =? 0 then rd st (field_sr2 instr)
         else u16 (signed 5 (Z.land instr 0x1F))) /\
    rd st' (field_dr instr) <= rd st (field_base instr) /\
    rd st' R_COND = flag_of (rd st' (field_dr instr)) /\
    (field_imm instr <> 0 -> Z.land instr 0x1F = 0 ->
       rd st' (field_dr instr) = 0 /\ rd st' R_COND = FL_ZRO) /\
    (forall r, 0 <= r -> r <> field_dr instr -> r <> R_COND ->
       rd st' r = rd st r) /\
    memory st' = memory st /\ stdin st' = stdin st /\
    stdout st' = stdout st /\ running st' = running st.
Proof.
  intros Hwf. rewrite <- operand2_signed.
  assert (word_ok (rd st (field_base instr))) as Ha
    by (apply rd_word_ok; [done | apply reg_index_ok, field_base_range]).
  set (v := Z.land (rd st (field_base instr)) (operand2 st instr)).
  assert (word_ok v) as Hv by (by apply word_ok_land).
  destruct (set_reg_update_flags st (field_dr instr) v Hwf
              (field_dr_range instr) Hv)
    as (st' & Hrun & Hwf' & Hd & Hc & Hr & Hrest).
  exists st'. split.
  { rewrite <- Hrun, <- (u16_small v Hv). unfold op_and, v, operand2.
    fold (field_imm instr). by destruct (field_imm instr =? 0). }
  split; [done|]. rewrite Hd. split; [done|]. split.
  { unfold v. apply land_le_l, Ha. }
  split; [done|]. split; [|done].
  intros Himm Hz. assert (v = 0) as Hv0.
  { unfold v, operand2. apply Z.eqb_neq in Himm. rewrite Himm.
    unfold imm5. rewrite Hz. by rewrite Z.land_0_r. }
  by rewrite Hc, Hv0.
Qed.

(** Extra X8.  NOT leaves in DR the 16-bit complement of SR, which is
    [0xFFFF - SR] and has every one of its 16 bits flipped, sets COND on
    it, and changes nothing else. *)
Theorem op_not_complements (st : machine) (instr : Z) :
  wf st ->
  exists st', op_not instr st = Ok (tt, st') /\ wf st' /\
    rd st' (field_dr instr) = 0xFFFF - rd st (field_base instr) /\
    rd st' R_COND = flag_of (rd st' (field_dr instr)) /\
    (forall i, 0 <= i < 16 ->
       Z.testbit (rd st' (field_dr instr)) i
       = negb (Z.testbit (rd st (field_base instr)) i)) /\
    (forall r, 0 <= r -> r <> field_dr instr -> r <> R_COND ->
       rd st' r = rd st r) /\
    memory st' = memory st /\ stdin st' = stdin st /\
    stdout st' = stdout st /\ running st' = running st.
Proof.
  intros Hwf.
  assert (word_ok (rd st (field_base instr))) as Ha
    by (apply rd_word_ok; [done | apply reg_index_ok, field_base_range]).
  set (a := rd st (field_base instr)) in *.
  destruct (set_reg_update_flags st (field_dr instr) (u16 (Z.lnot a)) Hwf
              (field_dr_range instr) (u16_range _))
    as (st' & Hrun & Hwf' & Hd & Hc & Hr & Hrest).
  exists st'. split; [exact Hrun|]. split; [done|]. rewrite Hd.
  split; [|split; [done|split; [|done]]].
  - unfold u16, Z.lnot, word_ok in *.
    replace (Z.pred (- a)) with (0xFFFF - a + (-1) * 65536) by lia.
    rewrite Z.mod_add by lia. apply Z.mod_small. lia.
  - intros i Hi. unfold u16. change 65536 with (2 ^ 16).
    rewrite Z.mod_pow2_bits_low by lia. apply Z.lnot_spec. lia.
Qed.

(** ** Control flow *)

(** Extra X9.  BR adds the signed 9-bit offset to PC exactly when the
    instruction's nzp mask and COND have a bit in common, and changes
    nothing but PC.  With mask 0 it leaves the state as it is; with mask 7
    it branches whenever COND holds one of the three flags. *)
Theorem op_br_branches (st : machine) (instr : Z) :
  wf st ->
  let taken := negb (Z.land (field_dr instr) (rd st R_COND) =? 0) in
  exists st', op_br instr st = Ok (tt, st') /\ wf st' /\
    rd st' R_PC =
      (if taken then u16 (rd st R_PC + signed 9 (Z.land instr 0x1FF))
       else rd st R_PC) /\
    (forall r, 0 <= r -> r <> R_PC -> rd st' r = rd st r) /\
    memory st' = memory st /\ stdin st' = stdin st /\
    stdout st' = stdout st /\ running st' = running st /\
    (field_dr instr = 0 -> st' = st) /\
    (field_dr instr = 7 ->
     rd st R_COND = FL_NEG \/ rd st R_COND = FL_ZRO \/ rd st R_COND = FL_POS ->
     taken = true).
Proof.
  intros Hwf taken.
  assert (op_br instr st =
          if taken
          then Ok (tt, with_reg (<[Z.to_nat R_PC :=
                                    u16 (rd st R_PC + pcoffset9 instr)]>
                                   (reg st)) st)
          else Ok (tt, st)) as Hbr.
  { unfold op_br, bind, get_reg, set_reg, ret. fold (rd st R_COND).
    fold (field_dr instr). fold taken. by destruct taken. }
  assert (field_dr instr = 0 -> taken = false) as H0.
  { intros E. unfold taken. by rewrite E, Z.land_0_l. }
  assert (field_dr instr = 7 ->
          rd st R_COND = FL_NEG \/ rd st R_COND = FL_ZRO \/
          rd st R_COND = FL_POS -> taken = true) as H7.
  { intros E Hc. unfold taken. rewrite E. by destruct Hc as [-> | [-> | ->]]. }
  rewrite Hbr. destruct taken eqn:Ht.
  - eexists. split; [done|].
    split; [apply wf_set_reg; [done | apply u16_range]|].
    split; [|split; [|repeat (split; [done|]); split; [|done]]].
    + rewrite rd_set_reg_eq by
        (rewrite (wf_reg_length _ Hwf); unfold R_PC, R_COUNT; lia).
      by rewrite pcoffset9_signed, u16_add_u16_r.
    + intros r Hr Hne. apply rd_set_reg_ne. unfold R_PC in *. lia.
    + intros E. by apply H0 in E.
  - exists st. do 9 (split; [done|]). exact H7.
Qed.

Lemma op_jmp_spec st instr :
  wf st ->
  exists st', op_jmp instr st = Ok (tt, st') /\ wf st' /\
    rd st' R_PC = rd st (field_base instr) /\
    (forall r, 0 <= r -> r <> R_PC -> rd st' r = rd st r) /\
    memory st' = memory st /\ stdin st' = stdin st /\
    stdout st' = stdout st /\ running st' = running st.
Proof.
  intros Hwf. eexists. split; [reflexivity|].
  assert (word_ok (rd st (field_base instr))) as Hb
    by (apply rd_word_ok; [done | apply reg_index_ok, field_base_range]).
  split; [by apply wf_set_reg|]. split; [|split; [|done]].
  - apply rd_set_reg_eq. rewrite (wf_reg_length _ Hwf).
    unfold R_PC, R_COUNT. lia.
  - intros r Hr Hne. apply rd_set_reg_ne. unfold R_PC in *. lia.
Qed.

(** Extra X10.  After a JSR or JSRR, a [JMP R7] executed in any state in
    which R7 still has the value the call left in it puts the PC the call
    started from back into PC, and changes nothing else: the subroutine
    returns to the instruction after the call. *)
Theorem jsr_then_ret_returns (st : machine) (call ret_instr : Z) :
  wf st -> field_base ret_instr = R_R7 ->
  exists st1, op_jsr call st = Ok (tt, st1) /\
    forall st2, wf st2 -> rd st2 R_R7 = rd st1 R_R7 ->
      exists st3, op_jmp ret_instr st2 = Ok (tt, st3) /\
        rd st3 R_PC = rd st R_PC /\
        (forall r, 0 <= r -> r <> R_PC -> rd st3 r = rd st2 r) /\
        memory st3 = memory st2 /\ stdin st3 = stdin st2 /\
        stdout st3 = stdout st2 /\ running st3 = running st2.
Proof.
  intros Hwf Hbase.
  destruct (op_jsr_spec st call Hwf) as (st1 & Hjsr & _ & H7 & _).
  exists st1. split; [done|]. intros st2 Hwf2 Hr7.
  destruct (op_jmp_spec st2 ret_instr Hwf2) as (st3 & Hjmp & _ & Hpc & Hrest).
  exists st3. split; [done|]. split; [|done].
  by rewrite Hpc, Hbase, Hr7, H7.
Qed.

(** ** Stores and the loads that read them back *)

Lemma mem_write_spec st a v :
  wf st -> 0 <= a < UINT16_MAX -> word_ok v ->
  exists st1, mem_write a v st = Ok (tt, st1) /\ wf st1 /\
    cell st1 a = Some v /\
    (forall b, 0 <= b -> b <> a -> cell st1 b = cell st b) /\
    same_but_memory st st1.
Proof.
  intros Hwf Ha Hv. unfold mem_write, store.
  destruct (in_bounds_lookup st a Hwf Ha) as [old Hold]. rewrite Hold.
  eexists. split; [done|]. split; [by apply wf_store|].
  split; [|split; [|done]]; unfold cell; st_simpl.
  - apply list_lookup_insert_eq. by apply lookup_lt_is_Some.
  - intros b Hb Hne. apply list_lookup_insert_ne. lia.
Qed.

Lemma mem_read_plain st a v :
  a <> MR_KBSR -> cell st a = Some v -> mem_read a st = Ok (v, st).
Proof.
  intros Ha Hc. rewrite mem_read_other by done. by apply load_Ok.
Qed.

(** The tail of the three loads once the value is known. *)
Lemma load_tail st dr v :
  wf st -> 0 <= dr <= 7 -> word_ok v ->
  exists st', (set_reg dr v ;;; update_flags dr) st = Ok (tt, st') /\
    rd st' dr = v /\ rd st' R_COND = flag_of v /\ memory st' = memory st.
Proof.
  intros Hwf Hd Hv.
  destruct (set_reg_update_flags st dr v Hwf Hd Hv)
    as (st' & H & _ & ? & ? & _ & ? & _).
  by exists st'.
Qed.

(** Extra X11.  ST writes SR into the cell at [PC + signext(PCoffset9)],
    the offset being the two's-complement value of the low nine bits, and
    changes no other cell and nothing outside memory; an LD of that
    address, from any state with the same memory, then loads that value
    into its DR and sets COND on it.  The address must have a cell and
    must not be KBSR. *)
Theorem st_then_ld (st : machine) (i1 : Z) :
  wf st ->
  let a := u16 (rd st R_PC + signed 9 (Z.land i1 0x1FF)) in
  a <> MR_KBSR -> a < UINT16_MAX ->
  exists st1, op_st i1 st = Ok (tt, st1) /\ wf st1 /\
    cell st1 a = Some (rd st (field_dr i1)) /\
    (forall b, 0 <= b -> b <> a -> cell st1 b = cell st b) /\
    same_but_memory st st1 /\
    forall st2 i2, wf st2 -> memory st2 = memory st1 ->
      u16 (rd st2 R_PC + signed 9 (Z.land i2 0x1FF)) = a ->
      exists st3, op_ld i2 st2 = Ok (tt, st3) /\
        rd st3 (field_dr i2) = rd st (field_dr i1) /\
        rd st3 R_COND = flag_of (rd st (field_dr i1)) /\
        memory st3 = memory st2.
Proof.
  intros Hwf a Hne Hlt.
  assert (word_ok (rd st (field_dr i1))) as Hv
    by (apply rd_word_ok; [done | apply reg_index_ok, field_dr_range]).
  destruct (mem_write_spec st a (rd st (field_dr i1)) Hwf) as
    (st1 & Hw & Hwf1 & Hc & Hother & Hframe);
    [split; [apply u16_range | done] | done |].
  exists st1. split.
  { change (op_st i1 st)
      with (mem_write (u16 (rd st R_PC + pcoffset9 i1))
              (rd st (field_dr i1)) st).
    rewrite add_pcoffset9. exact Hw. }
  repeat (split; [done|]).
  intros st2 i2 Hwf2 Hmem Haddr.
  destruct (load_tail st2 (field_dr i2) (rd st (field_dr i1)) Hwf2
              (field_dr_range i2) Hv) as (st3 & Ht & ? & ? & ?).
  exists st3. split; [|done].
  unfold op_ld, bind at 1, get_reg. fold (rd st2 R_PC).
  fold (pcoffset9 i2). rewrite add_pcoffset9, Haddr.
  rewrite (bind_eq _ _ _ _ _ (mem_read_plain st2 a _ Hne ltac:(
    unfold cell; rewrite Hmem; exact Hc))).
  exact Ht.
Qed.

(** Extra X12.  STR writes SR into the cell at [BaseR + signext(offset6)],
    the offset being the two's-complement value of the low six bits, and
    changes no other cell and nothing outside memory; an LDR of that
    address, from any state with the same memory, then loads that value
    into its DR and sets COND on it.  The address must have a cell and
    must not be KBSR. *)
Theorem str_then_ldr (st : machine) (i1 : Z) :
  wf st ->
  let a := u16 (rd st (field_base i1) + signed 6 (Z.land i1 0x3F)) in
  a <> MR_KBSR -> a < UINT16_MAX ->
  exists st1, op_str i1 st = Ok (tt, st1) /\ wf st1 /\
    cell st1 a = Some (rd st (field_dr i1)) /\
    (forall b, 0 <= b -> b <> a -> cell st1 b = cell st b) /\
    same_but_memory st st1 /\
    forall st2 i2, wf st2 -> memory st2 = memory st1 ->
      u16 (rd st2 (field_base i2) + signed 6 (Z.land i2 0x3F)) = a ->
      exists st3, op_ldr i2 st2 = Ok (tt, st3) /\
        rd st3 (field_dr i2) = rd st (field_dr i1) /\
        rd st3 R_COND = flag_of (rd st (field_dr i1)) /\
        memory st3 = memory st2.
Proof.
  intros Hwf a Hne Hlt.
  assert (word_ok (rd st (field_dr i1))) as Hv
    by (apply rd_word_ok; [done | apply reg_index_ok, field_dr_range]).
  destruct (mem_write_spec st a (rd st (field_dr i1)) Hwf) as
    (st1 & Hw & Hwf1 & Hc & Hother & Hframe);
    [split; [apply u16_range | done] | done |].
  exists st1. split.
  { change (op_str i1 st)
      with (mem_write (u16 (rd st (field_base i1) + offset6 i1))
              (rd st (field_dr i1)) st).
    rewrite add_offset6. exact Hw. }
  repeat (split; [done|]).
  intros st2 i2 Hwf2 Hmem Haddr.
  destruct (load_tail st2 (field_dr i2) (rd st (field_dr i1)) Hwf2
              (field_dr_range i2) Hv) as (st3 & Ht & ? & ? & ?).
  exists st3. split; [|done].
  unfold op_ldr, bind at 1, get_reg. fold (field_base i2).
  fold (rd st2 (field_base i2)). fold (offset6 i2).
  rewrite add_offset6, Haddr.
  rewrite (bind_eq _ _ _ _ _ (mem_read_plain st2 a _ Hne ltac:(
    unfold cell; rewrite Hmem; exact Hc))).
  exact Ht.
Qed.

(** Extra X13.  STI writes SR into the cell that the pointer at
    [PC + signext(PCoffset9)] names, the offset being the two's-complement
    value of the low nine bits, and changes no other cell; an LDI through
    the same pointer cell then loads that value, provided the pointer does
    not name its own cell (the store would overwrite the pointer) and
    neither address is KBSR. *)
Theorem sti_then_ldi (st : machine) (i1 ptr : Z) :
  wf st ->
  let p := u16 (rd st R_PC + signed 9 (Z.land i1 0x1FF)) in
  p <> MR_KBSR -> cell st p = Some ptr ->
  ptr <> MR_KBSR -> ptr < UINT16_MAX -> ptr <> p ->
  exists st1, op_sti i1 st = Ok (tt, st1) /\ wf st1 /\
    cell st1 ptr = Some (rd st (field_dr i1)) /\
    (forall b, 0 <= b -> b <> ptr -> cell st1 b = cell st b) /\
    same_but_memory st st1 /\
    forall st2 i2, wf st2 -> memory st2 = memory st1 ->
      u16 (rd st2 R_PC + signed 9 (Z.land i2 0x1FF)) = p ->
      exists st3, op_ldi i2 st2 = Ok (tt, st3) /\
        rd st3 (field_dr i2) = rd st (field_dr i1) /\
        rd st3 R_COND = flag_of (rd st (field_dr i1)) /\
        memory st3 = memory st2.
Proof.
  intros Hwf p Hpne Hp Hne Hlt Halias.
  assert (word_ok (rd st (field_dr i1))) as Hv
    by (apply rd_word_ok; [done | apply reg_index_ok, field_dr_range]).
  assert (word_ok ptr) as Hptr
    by (by apply (Forall_lookup_1 _ _ _ _ (wf_memory _ Hwf) Hp)).
  destruct (mem_write_spec st ptr (rd st (field_dr i1)) Hwf) as
    (st1 & Hw & Hwf1 & Hc & Hother & Hframe);
    [unfold word_ok in Hptr; lia | done |].
  exists st1. split.
  { unfold op_sti, bind at 1, get_reg. fold (rd st R_PC). fold (pcoffset9 i1).
    rewrite add_pcoffset9. fold p.
    rewrite (bind_eq _ _ _ _ _ (mem_read_plain st p ptr Hpne Hp)).
    exact Hw. }
  repeat (split; [done|]).
  intros st2 i2 Hwf2 Hmem Haddr.
  destruct (load_tail st2 (field_dr i2) (rd st (field_dr i1)) Hwf2
              (field_dr_range i2) Hv) as (st3 & Ht & ? & ? & ?).
  exists st3. split; [|done].
  assert (cell st2 p = Some ptr) as Hp2.
  { unfold cell. rewrite Hmem. fold (cell st1 p). rewrite Hother; [done| |done].
    apply u16_range. }
  assert (cell st2 ptr = Some (rd st (field_dr i1))) as Hc2
    by (unfold cell; rewrite Hmem; exact Hc).
  unfold op_ldi, bind at 1, get_reg. fold (rd st2 R_PC).
  fold (pcoffset9 i2). rewrite add_pcoffset9, Haddr.
  rewrite (bind_eq _ _ _ _ _ (mem_read_plain st2 p ptr Hpne Hp2)).
  rewrite (bind_eq _ _ _ _ _ (mem_read_plain st2 ptr _ Hne Hc2)).
  exact Ht.
Qed.

(** ** What the string traps write *)

Lemma to_char_byte (z : Z) : to_char z mod 256 = z mod 256.
Proof.
  unfold to_char. pose proof (Z.mod_pos_bound z 256 ltac:(lia)).
  destruct (_ <? 128); [by rewrite Z.mod_mod|].
  replace (z mod 256 - 256) with (z mod 256 + (-1) * 256) by lia.
  by rewrite Z.mod_add, Z.mod_mod.
Qed.

Lemma to_char_zero (z : Z) : 0 <= z < 256 -> (to_char z =? 0) = (z =? 0).
Proof.
  intros Hz. unfold to_char. rewrite Z.mod_small by done.
  destruct (z <? 128) eqn:E; [done|]. apply Z.ltb_ge in E.
  destruct (z =? 0) eqn:E0; [apply Z.eqb_eq in E0; lia|].
  apply Z.eqb_neq. lia.
Qed.

Lemma drop_cons_inv {A} (l : list A) (n : nat) (x : A) (rest : list A) :
  drop n l = x :: rest -> l !! n = Some x /\ drop (S n) l = rest.
Proof.
  intros H. assert (l !! n = Some x) as Hx.
  { rewrite <- (Nat.add_0_r n), <- lookup_drop, H. done. }
  split; [done|]. rewrite (drop_S _ _ _ Hx) in H. by injection H.
Qed.

Lemma with_stdout_app st l1 l2 :
  with_stdout ((stdout st ++ l1) ++ l2) (with_stdout (stdout st ++ l1) st)
  = with_stdout (stdout st ++ l1 ++ l2) st.
Proof. unfold with_stdout. simpl. by rewrite app_assoc. Qed.

Lemma with_stdout_nil st : with_stdout (stdout st ++ []) st = st.
Proof. rewrite app_nil_r. by destruct st. Qed.

(** The loop of PUTS writes the low byte of every word of the string, and
    runs off the array when there is no zero word. *)
Lemma puts_loop_output (cells : list Z) : forall n ptr_c st,
  0 <= ptr_c -> drop (Z.to_nat ptr_c) (memory st) = cells ->
  (length cells < n)%nat ->
  puts_loop n ptr_c st =
    match c_string cells with
    | Some ws =>
        Ok (tt, with_stdout (stdout st ++ map (fun w => w mod 256) ws) st)
    | None => OutOfBounds
    end.
Proof.
  induction cells as [|w rest IH]; intros n p st Hp Hdrop Hn;
    (destruct n as [|n]; [simpl in Hn; lia|]); simpl.
  - unfold bind, load. rewrite lookup_ge_None_2; [done|].
    by apply drop_nil_inv.
  - apply drop_cons_inv in Hdrop as [Hw Hrest].
    unfold bind at 1, load. rewrite Hw.
    destruct (w =? 0); [by rewrite with_stdout_nil|].
    unfold bind, putc. rewrite (IH n (p + 1)); st_simpl.
    + destruct (c_string rest); [|done].
      by rewrite with_stdout_app, to_char_byte.
    + lia.
    + by replace (Z.to_nat (p + 1)) with (S (Z.to_nat p)) by lia.
    + simpl in Hn. lia.
Qed.

Lemma packed_chars_putc st w :
  word_ok w ->
  (putc (to_char (Z.land w 0xFF)) ;;;
   if negb (to_char (Z.shiftr w 8) =? 0)
   then putc (to_char (Z.shiftr w 8)) else ret tt) st
  = Ok (tt, with_stdout (stdout st ++ packed_chars w) st).
Proof.
  intros [H0 H1]. unfold packed_chars.
  change (Z.land w 0xFF) with (Z.land w (Z.ones 8)).
  rewrite Z.land_ones, Z.shiftr_div_pow2 by lia. change (2 ^ 8) with 256.
  assert (0 <= w / 256 < 256) as Hhi
    by (split; [apply Z.div_pos; lia | apply Z.div_lt_upper_bound; lia]).
  rewrite to_char_zero by done.
  unfold bind, putc, ret.
  rewrite !to_char_byte, Z.mod_mod, (Z.mod_small (w / 256)) by lia.
  destruct (w / 256 =? 0); cbn [negb]; [done|].
  st_simpl. by rewrite with_stdout_app.
Qed.

Lemma putsp_loop_output (cells : list Z) : forall n ptr_c st,
  Forall word_ok cells ->
  0 <= ptr_c -> drop (Z.to_nat ptr_c) (memory st) = cells ->
  (length cells < n)%nat ->
  putsp_loop n ptr_c st =
    match c_string cells with
    | Some ws =>
        Ok (tt, with_stdout (stdout st ++ concat (map packed_chars ws)) st)
    | None => OutOfBounds
    end.
Proof.
  induction cells as [|w rest IH]; intros n p st Hok Hp Hdrop Hn;
    (destruct n as [|n]; [simpl in Hn; lia|]); simpl.
  - unfold bind, load. rewrite lookup_ge_None_2; [done|].
    by apply drop_nil_inv.
  - apply drop_cons_inv in Hdrop as [Hw Hrest].
    apply Forall_cons in Hok as [Hwok Hok].
    unfold bind at 1, load. rewrite Hw.
    destruct (w =? 0); [by rewrite with_stdout_nil|].
    transitivity
      (bind (putc (to_char (Z.land w 0xFF)) ;;;
             if negb (to_char (Z.shiftr w 8) =? 0)
             then putc (to_char (Z.shiftr w 8)) else ret tt)
         (fun _ => putsp_loop n (p + 1)) st); [reflexivity|].
    rewrite (bind_eq _ _ _ _ _ (packed_chars_putc st w Hwok)).
    rewrite (IH n (p + 1)); st_simpl.
    + destruct (c_string rest); [|done]. simpl.
      by rewrite with_stdout_app.
    + done.
    + lia.
    + by replace (Z.to_nat (p + 1)) with (S (Z.to_nat p)) by lia.
    + simpl in Hn. lia.
Qed.

(** Extra X14.  PUTS appends to the output the low byte of every word
    from the address in R0 up to the first zero word, and changes nothing
    else; when no zero word follows before the end of the array, it reads
    past the array. *)
Theorem puts_writes_the_string (st : machine) (instr : Z) :
  wf st -> trapvect8 instr = TRAP_PUTS ->
  op_trap instr st =
    match string_at st (rd st R_R0) with
    | Some ws =>
        Ok (tt, with_stdout (stdout st ++ map (fun w => w mod 256) ws) st)
    | None => OutOfBounds
    end.
Proof.
  intros Hwf Hv.
  assert (op_trap instr st =
          (puts_loop (S (length (memory st))) (rd st R_R0) ;;; ret tt) st)
    as ->.
  { unfold op_trap. fold (trapvect8 instr). by rewrite Hv. }
  unfold bind, string_at.
  rewrite (puts_loop_output (drop (Z.to_nat (rd st R_R0)) (memory st))).
  - by destruct (c_string _).
  - apply (rd_word_ok st R_R0 Hwf). by vm_compute.
  - done.
  - rewrite length_drop. lia.
Qed.

(** Extra X15.  PUTSP appends to the output, for every word from the
    address in R0 up to the first zero word, the low byte and then the
    high byte unless the high byte is zero, and changes nothing else; when
    no zero word follows before the end of the array, it reads past the
    array. *)
Theorem putsp_writes_the_packed_string (st : machine) (instr : Z) :
  wf st -> trapvect8 instr = TRAP_PUTSP ->
  op_trap instr st =
    match string_at st (rd st R_R0) with
    | Some ws =>
        Ok (tt, with_stdout (stdout st ++ concat (map packed_chars ws)) st)
    | None => OutOfBounds
    end.
Proof.
  intros Hwf Hv.
  assert (op_trap instr st =
          (putsp_loop (S (length (memory st))) (rd st R_R0) ;;; ret tt) st)
    as ->.
  { unfold op_trap. fold (trapvect8 instr). by rewrite Hv. }
  unfold bind, string_at.
  rewrite (putsp_loop_output (drop (Z.to_nat (rd st R_R0)) (memory st))).
  - by destruct (c_string _).
  - apply Forall_drop, Hwf.
  - apply (rd_word_ok st R_R0 Hwf). by vm_compute.
  - done.
  - rewrite length_drop. lia.
Qed.

(** ** Keyboard traps *)

Lemma put_bytes_output (l : list Z) : forall st,
  put_bytes l st =
    Ok (tt, with_stdout (stdout st ++ map (fun c => c mod 256) l) st).
Proof.
  induction l as [|c l IH]; intros st; simpl.
  - by rewrite with_stdout_nil.
  - unfold bind, putc. rewrite IH. st_simpl. by rewrite with_stdout_app.
Qed.


Lemma with_stdin_same st : with_stdin (stdin st) st = st.
Proof. by destruct st. Qed.

(** [getchar] by what is left to deliver. *)
Lemma getchar_cases st :
  wf st ->
  (forall c rest, undelivered (stdin st) = c :: rest ->
     exists i, getchar st = Ok (c, with_stdin i st) /\
       undelivered i = rest /\ at_eof i = at_eof (stdin st) /\ byte_ok c) /\
  (undelivered (stdin st) = [] -> at_eof (stdin st) = false ->
     getchar st = Blocked st) /\
  (undelivered (stdin st) = [] -> at_eof (stdin st) = true ->
     getchar st = Ok (EOF, st)).
Proof.
  intros Hwf. pose proof (next_char_spec _ (wf_input _ Hwf)) as H.
  unfold getchar.
  destruct (next_char (stdin st)) as [[c i]|].
  - destruct H as (_ & He & _ & [[Hu Hc] | (Hu & He' & -> & ->)]).
    + split; [|split].
      * intros c' rest Hu'. rewrite Hu in Hu'. injection Hu' as <- <-.
        by exists i.
      * intros Hu'. by rewrite Hu in Hu'.
      * intros Hu'. by rewrite Hu in Hu'.
    + split; [|split].
      * intros c' rest Hu'. by rewrite Hu in Hu'.
      * intros _ He''. by rewrite He' in He''.
      * intros _ _. by rewrite with_stdin_same.
  - destruct H as [Hu He]. split; [|split].
    + intros c' rest Hu'. by rewrite Hu in Hu'.
    + done.
    + intros _ He'. by rewrite He in He'.
Qed.

(** Extra X16.  GETC hands the program the oldest byte of standard input
    that it has not been given yet, whether stdio has buffered it or it is
    still on the descriptor: the byte goes into R0 and leaves the input,
    nothing is written, and no other register (COND included) nor memory
    changes.  With nothing to deliver GETC waits, the state untouched,
    while the input is open; at end of file it returns at once with
    [0xFFFF] in R0, the [EOF] of [getchar] as a word. *)
Theorem getc_takes_one_key (st : machine) (instr : Z) :
  wf st -> trapvect8 instr = TRAP_GETC ->
  (forall c rest, undelivered (stdin st) = c :: rest ->
     exists st', op_trap instr st = Ok (tt, st') /\
       rd st' R_R0 = c /\ undelivered (stdin st') = rest /\
       at_eof (stdin st') = at_eof (stdin st) /\ stdout st' = stdout st /\
       (forall r, 0 <= r -> r <> R_R0 -> rd st' r = rd st r) /\
       memory st' = memory st /\ running st' = running st) /\
  (undelivered (stdin st) = [] -> at_eof (stdin st) = false ->
     op_trap instr st = Blocked st) /\
  (undelivered (stdin st) = [] -> at_eof (stdin st) = true ->
     exists st', op_trap instr st = Ok (tt, st') /\
       rd st' R_R0 = 0xFFFF /\ stdin st' = stdin st /\
       stdout st' = stdout st /\
       (forall r, 0 <= r -> r <> R_R0 -> rd st' r = rd st r) /\
       memory st' = memory st /\ running st' = running st).
Proof.
  intros Hwf Hv.
  assert (op_trap instr st = trap_getc st) as ->.
  { unfold op_trap. fold (trapvect8 instr). by rewrite Hv. }
  destruct (getchar_cases st Hwf) as (Hkey & Hwait & Hend).
  pose proof (wf_reg_length _ Hwf) as Hlen.
  unfold trap_getc, bind. split; [|split].
  - intros c rest Hu. destruct (Hkey c rest Hu) as (i & -> & Hi & He & Hc).
    unfold set_reg. st_simpl. eexists. split; [done|].
    rewrite u16_small by (unfold word_ok, byte_ok in *; lia).
    split; [|split; [done|split; [done|split; [done|split; [|done]]]]].
    + unfold rd. st_simpl. apply list_lookup_total_insert_eq.
      rewrite Hlen. unfold R_R0, R_COUNT. lia.
    + intros r Hr Hne. unfold rd. st_simpl.
      apply list_lookup_total_insert_ne. unfold R_R0 in *. lia.
  - intros Hu He. by rewrite Hwait.
  - intros Hu He. rewrite Hend by done. unfold set_reg. eexists.
    split; [done|]. split; [|split; [done|split; [done|split; [|done]]]].
    + unfold rd. st_simpl. apply list_lookup_total_insert_eq.
      rewrite Hlen. unfold R_R0, R_COUNT. lia.
    + intros r Hr Hne. unfold rd. st_simpl.
      apply list_lookup_total_insert_ne. unfold R_R0 in *. lia.
Qed.


(** ** Polling *)

(** Extra X20.  A read of KBSR reports what [select] sees on descriptor 0,
    not what is left to deliver: it returns 0, and leaves KBDR and the
    input alone, when no byte waits on the descriptor and the input is
    open, even if stdio has bytes buffered; it returns [0x8000] when a
    byte waits on the descriptor or the input is at end of file, and then
    KBDR receives the oldest byte not yet delivered, which leaves the
    input, or [0xFFFF] when there is none.  The value returned is the new
    content of KBSR; the read never waits, and it changes no cell but KBSR
    and KBDR, no register, and not the output. *)
Theorem read_KBSR_follows_the_descriptor (st : machine) :
  wf st ->
  exists v st', mem_read MR_KBSR st = Ok (v, st') /\
    cell st' MR_KBSR = Some v /\
    (forall b, 0 <= b -> b <> MR_KBSR -> b <> MR_KBDR ->
       cell st' b = cell st b) /\
    reg st' = reg st /\ stdout st' = stdout st /\
    running st' = running st /\
    (pending (stdin st) = [] -> at_eof (stdin st) = false ->
       v = 0 /\ cell st' MR_KBDR = cell st MR_KBDR /\ stdin st' = stdin st) /\
    (pending (stdin st) <> [] \/ at_eof (stdin st) = true ->
       v = 0x8000 /\
       (forall c rest, undelivered (stdin st) = c :: rest ->
          cell st' MR_KBDR = Some c /\ undelivered (stdin st') = rest /\
          at_eof (stdin st') = at_eof (stdin st)) /\
       (undelivered (stdin st) = [] ->
          cell st' MR_KBDR = Some 0xFFFF /\ stdin st' = stdin st)).
Proof.
  intros Hwf. exists (kbd_status (stdin st)), (kbd_poll st).
  split; [by apply mem_read_KBSR|]. split; [by apply cell_kbd_poll_KBSR|].
  pose proof (wf_memory_length _ Hwf) as Hlen.
  assert (Z.to_nat MR_KBDR < length (memory st))%nat as Hd
    by (rewrite Hlen; unfold MR_KBDR, UINT16_MAX; lia).
  assert (Z.to_nat MR_KBSR <> Z.to_nat MR_KBDR) as Hne
    by (unfold MR_KBSR, MR_KBDR; lia).
  destruct (kbd_poll_frame st) as (Hr & Hg & Ho).
  pose proof (next_char_spec _ (wf_input _ Hwf)) as Hnext.
  unfold kbd_status, kbd_poll, cell in *.
  destruct (fd_readable (stdin st)) eqn:E.
  - destruct (next_char_readable _ (wf_input _ Hwf) E) as [[c i] Hn].
    rewrite Hn in *. st_simpl.
    split.
    { intros b Hb Hb1 Hb2.
      rewrite !list_lookup_insert_ne;
        [done | unfold MR_KBSR, MR_KBDR in *; lia..]. }
    do 3 (split; [done|]). split.
    { intros Hp He. unfold fd_readable in E. by rewrite Hp, He in E. }
    intros _. split; [done|].
    rewrite list_lookup_insert_eq by (by rewrite length_insert).
    destruct Hnext as (_ & He & _ & [[Hu Hc] | (Hu & _ & -> & ->)]).
    + split.
      * intros c' rest Hu'. rewrite Hu in Hu'. injection Hu' as <- <-.
        rewrite u16_small; [done|]. unfold word_ok, byte_ok in *. lia.
      * intros Hu'. by rewrite Hu in Hu'.
    + split; [|done]. intros c' rest Hu'. by rewrite Hu in Hu'.
  - st_simpl. split.
    { intros b Hb Hb1 Hb2.
      rewrite list_lookup_insert_ne;
        [done | unfold MR_KBSR, MR_KBDR in *; lia]. }
    do 3 (split; [done|]). split.
    { intros _ _. by rewrite list_lookup_insert_ne. }
    unfold fd_readable in E. intros [Hp | He].
    + by destruct (pending (stdin st)).
    + rewrite He in E. by destruct (pending (stdin st)).
Qed.

(** ** The end of the loop *)

Lemma steps_stopped (n : nat) (st : machine) :
  running st = false -> steps n st = Ok (tt, st).
Proof. intros H. destruct n; [done|]. simpl. by rewrite H. Qed.

(** Extra X18.  When the instruction fetched is the HALT trap, the loop
    ends with that iteration, however many iterations were still allowed:
    the state is the one the fetch left, with the text HATL and a newline
    appended to the output and the running flag off. *)
Theorem halt_stops_the_loop (st : machine) (instr : Z) (st1 : machine)
    (n : nat) :
  running st = true -> fetch st = Ok (instr, st1) ->
  opcode instr = OP_TRAP -> trapvect8 instr = TRAP_HALT ->
  steps (S n) st =
    Ok (tt, with_running false
              (with_stdout (stdout st1 ++ bytes_of_string "HATL" ++ [10])
                 st1)).
Proof.
  intros Hrun Hf Hop Hv.
  assert (step st =
          Ok (tt, with_running false
                    (with_stdout (stdout st1 ++ bytes_of_string "HATL" ++ [10])
                       st1))) as Hstep.
  { unfold step. rewrite (bind_eq _ _ _ _ _ Hf).
    unfold dispatch. fold (opcode instr). rewrite Hop. simpl.
    unfold op_trap. fold (trapvect8 instr). rewrite Hv. simpl.
    unfold trap_halt, bind. rewrite put_bytes_output. unfold putc. st_simpl.
    rewrite <- app_assoc. reflexivity. }
  simpl. rewrite Hrun, (bind_eq _ _ _ _ _ Hstep).
  by apply steps_stopped.
Qed.

(** ** Fatal opcodes *)

Lemma never_aborts_bind {A B} (m : M A) (k : A -> M B) :
  never_aborts m -> (forall a, never_aborts (k a)) -> never_aborts (bind m k).
Proof.
  intros Hm Hk st. unfold bind. specialize (Hm st).
  destruct (m st) as [[a st1]| | |]; try done. apply Hk.
Qed.

Lemma never_aborts_ok {A} (m : M A) :
  (forall st, exists r, m st = Ok r) -> never_aborts m.
Proof. intros H st. destruct (H st) as [r ->]. done. Qed.

Lemma never_aborts_load a : never_aborts (load a).
Proof. intros st. unfold load. by destruct (_ !! _). Qed.

Lemma never_aborts_store a v : never_aborts (store a v).
Proof. intros st. unfold store. by destruct (_ !! _). Qed.

Lemma never_aborts_getchar : never_aborts getchar.
Proof.
  intros st. unfold getchar. by destruct (next_char (stdin st)) as [[c i]|].
Qed.

Lemma never_aborts_get_reg r : never_aborts (get_reg r).
Proof. done. Qed.

Lemma never_aborts_set_reg r v : never_aborts (set_reg r v).
Proof. done. Qed.

Lemma never_aborts_putc c : never_aborts (putc c).
Proof. done. Qed.

Lemma never_aborts_select_stdin : never_aborts select_stdin.
Proof. done. Qed.

Lemma never_aborts_ret {A} (a : A) : never_aborts (ret a).
Proof. done. Qed.

Lemma never_aborts_put_bytes l : never_aborts (put_bytes l).
Proof. intros st. by rewrite put_bytes_output. Qed.

Lemma never_aborts_if {A} (b : bool) (m1 m2 : M A) :
  never_aborts m1 -> never_aborts m2 -> never_aborts (if b then m1 else m2).
Proof. by destruct b. Qed.

Create HintDb aborts.

#[local] Hint Resolve never_aborts_load never_aborts_store never_aborts_getchar
  never_aborts_get_reg never_aborts_set_reg never_aborts_putc never_aborts_ret
  never_aborts_put_bytes never_aborts_select_stdin : aborts.

Ltac aborts_step :=
  match goal with
  | |- never_aborts (bind _ _) => apply never_aborts_bind; [|intros ?]
  | |- never_aborts (if _ then _ else _) => apply never_aborts_if
  | |- never_aborts _ => solve [eauto with aborts]
  end.

Lemma never_aborts_mem_read a : never_aborts (mem_read a).
Proof. unfold mem_read, check_key, select_stdin, mem_write. repeat aborts_step. Qed.

Lemma never_aborts_update_flags d : never_aborts (update_flags d).
Proof. unfold update_flags. repeat aborts_step. Qed.

#[local] Hint Resolve never_aborts_mem_read never_aborts_update_flags : aborts.

Lemma never_aborts_puts_loop n : forall p, never_aborts (puts_loop n p).
Proof. induction n as [|n IH]; intros p; simpl; [done|]. repeat aborts_step. Qed.

Lemma never_aborts_putsp_loop n : forall p, never_aborts (putsp_loop n p).
Proof. induction n as [|n IH]; intros p; simpl; [done|]. repeat aborts_step. Qed.

Lemma never_aborts_op_trap instr : never_aborts (op_trap instr).
Proof.
  unfold op_trap, trap_getc, trap_out, trap_puts, trap_in, trap_putsp,
    trap_halt.
  repeat aborts_step;
    try (intros st; first [apply never_aborts_puts_loop
                          | apply never_aborts_putsp_loop]).
  done.
Qed.

Lemma opcode_range instr : word_ok instr -> 0 <= opcode instr < 16.
Proof.
  intros [H0 H1]. unfold opcode. rewrite Z.shiftr_div_pow2 by lia.
  change (2 ^ 12) with 4096.
  split; [apply Z.div_pos; lia | apply Z.div_lt_upper_bound; lia].
Qed.

(** Extra X19.  For a 16-bit instruction word the switch of [main] ends in
    [abort] exactly for the opcodes RTI and RES: no handler and no trap
    routine ever aborts. *)
Theorem abort_only_on_rti_and_res (st : machine) (instr : Z) :
  word_ok instr ->
  (dispatch instr st = Aborted <->
   opcode instr = OP_RTI \/ opcode instr = OP_RES).
Proof.
  intros Hw. pose proof (opcode_range instr Hw) as Hop.
  assert (forall m : M unit, never_aborts m -> m st = Aborted -> False)
    as Hno by (intros m Hm; apply Hm).
  unfold OP_RTI, OP_RES. split.
  - intros H. unfold dispatch in H. fold (opcode instr) in H.
    assert (opcode instr = 0 \/ opcode instr = 1 \/ opcode instr = 2 \/
            opcode instr = 3 \/ opcode instr = 4 \/ opcode instr = 5 \/
            opcode instr = 6 \/ opcode instr = 7 \/ opcode instr = 8 \/
            opcode instr = 9 \/ opcode instr = 10 \/ opcode instr = 11 \/
            opcode instr = 12 \/ opcode instr = 13 \/ opcode instr = 14 \/
            opcode instr = 15) as Hcases by lia.
    repeat (destruct Hcases as [E | Hcases]; [|]);
      try (rewrite Hcases in H); try (rewrite E in H); simpl in H;
      try lia; exfalso; revert H; apply Hno;
      first [ apply never_aborts_op_trap
            | unfold op_add, op_and, op_not, op_br, op_jmp, op_jsr, op_ld,
                op_ldi, op_ldr, op_lea, op_st, op_sti, op_str, mem_write;
              repeat aborts_step ].
  - intros [E | E]; unfold dispatch; fold (opcode instr); by rewrite E.
Qed.

(** ** The loader on arbitrary files *)

Lemma same_but_memory_refl st : same_but_memory st st.
Proof. done. Qed.

Lemma same_but_memory_trans st1 st2 st3 :
  same_but_memory st1 st2 -> same_but_memory st2 st3 ->
  same_but_memory st1 st3.
Proof.
  unfold same_but_memory. intros (-> & -> & -> & ->) (-> & -> & -> & ->). done.
Qed.

Lemma same_but_memory_store st a v :
  same_but_memory st (with_memory (<[Z.to_nat a := v]> (memory st)) st).
Proof. done. Qed.

Lemma host_words_word_ok (n : nat) : forall bytes,
  (length bytes <= n)%nat -> Forall byte_ok bytes ->
  Forall word_ok (host_words bytes).
Proof.
  induction n as [|n IH]; intros [|b0 [|b1 rest]] Hlen Hok; simpl;
    try constructor; simpl in Hlen; try lia.
  - apply Forall_cons in Hok as [H0 Hok]. apply Forall_cons in Hok as [H1 _].
    unfold word_ok, byte_ok in *. lia.
  - apply IH; [lia|]. apply Forall_cons in Hok as [_ Hok].
    by apply Forall_cons in Hok as [_ Hok].
Qed.

Lemma store_in_bounds st a v :
  wf st -> 0 <= a -> (Z.to_nat a < length (memory st))%nat -> word_ok v ->
  store a v st = Ok (tt, with_memory (<[Z.to_nat a := v]> (memory st)) st)
  /\ wf (with_memory (<[Z.to_nat a := v]> (memory st)) st).
Proof.
  intros Hwf Ha Hlt Hv. unfold store.
  destruct (lookup_lt_is_Some_2 _ _ Hlt) as [old ->].
  split; [done | by apply wf_store].
Qed.

Lemma fread_store_safe (elems : list Z) : forall p_curr st partial,
  wf st -> 0 <= p_curr -> Forall word_ok elems -> Forall byte_ok partial ->
  (Z.to_nat p_curr + length elems + length (take 1 partial)
   <= length (memory st))%nat ->
  exists st', fread_store p_curr elems partial st = Ok (tt, st') /\
    wf st' /\ same_but_memory st st'.
Proof.
  induction elems as [|w rest IH]; intros p st partial Hwf Hp Hok Hb Hlen;
    simpl.
  - destruct partial as [|b partial]; [by exists st|].
    simpl in Hlen. unfold bind, load.
    destruct (lookup_lt_is_Some_2 (memory st) (Z.to_nat p)) as [old Hold];
      [lia|].
    rewrite Hold.
    assert (word_ok (Z.lor (Z.land old 0xFF00) b)) as Hv.
    { apply word_ok_lor.
      - apply word_ok_land. by apply (Forall_lookup_1 _ _ _ _ (wf_memory _ Hwf) Hold).
      - apply Forall_cons in Hb as [Hb _]. unfold word_ok, byte_ok in *. lia. }
    destruct (store_in_bounds st p _ Hwf Hp ltac:(lia) Hv) as [-> Hwf'].
    eauto using same_but_memory_store.
  - simpl in Hlen. apply Forall_cons in Hok as [Hw Hok].
    destruct (store_in_bounds st p w Hwf Hp ltac:(lia) Hw) as [Hst Hwf'].
    unfold bind. rewrite Hst.
    destruct (IH (p + 1) _ partial Hwf' ltac:(lia) Hok Hb)
      as (st' & Hrun & Hwf'' & Hsame).
    { st_simpl. rewrite length_insert. lia. }
    exists st'. split; [done|]. split; [done|].
    eapply same_but_memory_trans; [apply same_but_memory_store | exact Hsame].
Qed.

Lemma swap_loop_safe (n : nat) : forall p_curr st,
  wf st -> 0 <= p_curr ->
  (Z.to_nat p_curr + n <= length (memory st))%nat ->
  exists st', swap_loop n p_curr st = Ok (tt, st') /\
    wf st' /\ same_but_memory st st'.
Proof.
  induction n as [|n IH]; intros p st Hwf Hp Hlen; simpl.
  - by exists st.
  - unfold bind at 1, load.
    destruct (lookup_lt_is_Some_2 (memory st) (Z.to_nat p)) as [w Hw]; [lia|].
    rewrite Hw.
    destruct (store_in_bounds st p (swap16 w) Hwf Hp ltac:(lia)
                (u16_range _)) as [Hst Hwf'].
    unfold bind. rewrite Hst.
    destruct (IH (p + 1) _ Hwf' ltac:(lia)) as (st' & Hrun & Hwf'' & Hsame).
    { st_simpl. rewrite length_insert. lia. }
    exists st'. split; [done|]. split; [done|].
    eapply same_but_memory_trans; [apply same_but_memory_store | exact Hsame].
Qed.

(** Whatever bytes the file holds, the loader returns, has written only
    inside the array, and has touched nothing but memory. *)
Lemma read_image_file_safe (st : machine) (file : list Z) :
  wf st -> Forall byte_ok file ->
  exists st', read_image_file file st = Ok (tt, st') /\
    wf st' /\ same_but_memory st st'.
Proof.
  intros Hwf Hok. destruct file as [|b0 [|b1 rest]]; [by exists st..|].
  apply Forall_cons in Hok as [H0 Hok]. apply Forall_cons in Hok as [H1 Hok].
  unfold read_image_file.
  assert (fread16 1 (b0 :: b1 :: rest) = ([b0 + 256 * b1], [], rest)) as ->
    by done.
  set (origin := swap16 (b0 + 256 * b1)).
  assert (word_ok origin) as Ho by apply u16_range.
  assert (u16 (UINT16_MAX - origin) = UINT16_MAX - origin) as ->
    by (apply u16_small; unfold word_ok, UINT16_MAX in *; lia).
  set (n := Z.to_nat (UINT16_MAX - origin)).
  pose proof (wf_memory_length _ Hwf) as Hlen.
  assert (Forall word_ok (host_words rest)) as Hwords
    by (by apply (host_words_word_ok (length rest))).
  unfold fread16.
  set (elems := take n (host_words rest)).
  assert (length elems <= n)%nat as Hle
    by (unfold elems; rewrite length_take; lia).
  assert (Forall word_ok elems) as Helems by (by apply Forall_take).
  destruct (length elems <? n)%nat eqn:E.
  - apply Nat.ltb_lt in E.
    destruct (fread_store_safe elems origin st
                (drop (2 * length elems) rest) Hwf) as (st1 & H1r & Hwf1 & Hs1);
      [apply Ho | done | by apply Forall_drop | |].
    { pose proof (length_take_le (drop (2 * length elems) rest) 1).
      rewrite length_take. unfold n, word_ok, UINT16_MAX in *. lia. }
    destruct (swap_loop_safe (length elems) origin st1 Hwf1) as
      (st2 & H2r & Hwf2 & Hs2); [apply Ho | |].
    { rewrite (wf_memory_length _ Hwf1).
      unfold n, word_ok, UINT16_MAX in *. lia. }
    exists st2. split; [|split; [done | by eapply same_but_memory_trans]].
    by rewrite (bind_eq _ _ _ _ _ H1r).
  - destruct (fread_store_safe elems origin st [] Hwf) as
      (st1 & H1r & Hwf1 & Hs1); [apply Ho | done | done | |].
    { simpl. unfold n, word_ok, UINT16_MAX in *. lia. }
    destruct (swap_loop_safe (length elems) origin st1 Hwf1) as
      (st2 & H2r & Hwf2 & Hs2); [apply Ho | |].
    { rewrite (wf_memory_length _ Hwf1).
      unfold n, word_ok, UINT16_MAX in *. lia. }
    exists st2. split; [|split; [done | by eapply same_but_memory_trans]].
    by rewrite (bind_eq _ _ _ _ _ H1r).
Qed.

(** Extra X4.  Whatever bytes the file holds (odd length, a payload longer
    than the room above the origin, any origin), the loader returns, every
    write has stayed inside the array, memory still holds 16-bit words, and
    registers, running flag and both streams are untouched.  A file of
    fewer than two bytes changes nothing at all. *)
Theorem loader_stays_in_memory (st : machine) (file : list Z) :
  wf st -> Forall byte_ok file ->
  exists st', read_image_file file st = Ok (tt, st') /\
    wf st' /\ same_but_memory st st' /\
    ((length file < 2)%nat -> st' = st).
Proof.
  intros Hwf Hok.
  destruct (read_image_file_safe st file Hwf Hok) as (st' & Hrun & Hwf' & Hs).
  exists st'. repeat (split; [done|]). intros Hlen.
  destruct file as [|b0 [|b1 rest]]; simpl in Hlen; try lia;
    by injection Hrun as <-.
Qed.

(** ** The whole program *)

Lemma read_image_safe st image :
  wf st -> (forall file, image = Some file -> Forall byte_ok file) ->
  exists opened st1, read_image image st = Ok (opened, st1) /\
    wf st1 /\ same_but_memory st st1.
Proof.
  intros Hwf Hfile. destruct image as [file|]; [|by exists false, st].
  destruct (read_image_file_safe st file Hwf (Hfile file eq_refl))
    as (st1 & Hrun & Hwf1 & Hsame).
  exists true, st1. split; [|done]. unfold read_image.
  by rewrite (bind_eq _ _ _ _ _ Hrun).
Qed.

(** Extra X5.  For every image (or none) and every pending input, the
    start-up of [main] returns with PC = [0x3000], the loop switched on and
    nothing read or written yet; and whenever [main], cut after any number
    of iterations, returns, both arrays still have their declared sizes
    and hold 16-bit words only. *)
Theorem main_keeps_wf (image : option (list Z)) (input : list Z) :
  Forall byte_ok input ->
  (forall file, image = Some file -> Forall byte_ok file) ->
  (exists st0, main_init image (initial input) = Ok (tt, st0) /\
     wf st0 /\ running st0 = true /\ rd st0 R_PC = PC_START /\
     stdin st0 = keyboard input /\ stdout st0 = []) /\
  (forall n st', main_for n image (initial input) = Ok (tt, st') -> wf st').
Proof.
  intros Hin Hfile.
  pose proof (wf_initial input Hin) as Hwf0.
  destruct (read_image_safe _ image Hwf0 Hfile)
    as (opened & st1 & Hread & Hwf1 & Hr & Hg & Hi & Ho).
  set (st0 := with_running true
                (with_reg (<[Z.to_nat R_PC := PC_START]> (reg st1)) st1)).
  assert (main_init image (initial input) = Ok (tt, st0)) as Hinit.
  { unfold main_init. by rewrite (bind_eq _ _ _ _ _ Hread). }
  assert (wf st0) as Hwfi.
  { assert (wf (with_reg (<[Z.to_nat R_PC := PC_START]> (reg st1)) st1))
      as [] by (apply wf_set_reg; [done | by vm_compute]).
    by split. }
  split.
  - exists st0. split; [done|]. split; [done|]. split; [done|].
    split; [|unfold st0; st_simpl; rewrite Hi, Ho; split; reflexivity].
    unfold st0, rd. st_simpl. apply list_lookup_total_insert_eq.
    rewrite (wf_reg_length _ Hwf1). unfold R_PC, R_COUNT. lia.
  - intros n st' H. unfold main_for in H.
    rewrite (bind_eq _ _ _ _ _ Hinit) in H.
    by apply (steps_keep_wf n st0).
Qed.

(** ** A missing image *)

Lemma step_spinning (input : list Z) (k : Z) :
  0 <= k -> PC_START + k < MR_KBSR ->
  step (spinning input k) = Ok (tt, spinning input (k + 1)).
Proof.
  intros Hk Hlt. unfold PC_START, MR_KBSR in Hlt.
  assert (rd (spinning input k) R_PC = PC_START + k) as Hpc.
  { unfold rd, spinning. st_simpl. apply list_lookup_total_insert_eq.
    rewrite length_replicate. unfold R_PC, R_COUNT. lia. }
  assert (fetch (spinning input k) = Ok (0, spinning input (k + 1))) as Hf.
  { unfold fetch.
    rewrite (bind_eq (get_reg R_PC) _ _ (PC_START + k) (spinning input k))
      by (unfold get_reg; fold (rd (spinning input k) R_PC); by rewrite Hpc).
    rewrite (bind_eq (set_reg R_PC _) _ _ tt (spinning input (k + 1))).
    - rewrite mem_read_other by (unfold PC_START, MR_KBSR; lia).
      unfold load, spinning. st_simpl.
      by rewrite lookup_replicate_2 by (unfold PC_START, UINT16_MAX; lia).
    - unfold set_reg. rewrite u16_small by (unfold word_ok, PC_START; lia).
      unfold spinning, with_reg. st_simpl.
      by rewrite list_insert_insert_eq, Z.add_assoc. }
  unfold step. rewrite (bind_eq _ _ _ _ _ Hf). reflexivity.
Qed.

(** Extra X21.  When the image cannot be opened, [main] enters the loop
    all the same: it runs over zeroed memory, each word a branch that is
    never taken, so that after [n] iterations (up to the address of KBSR)
    PC is [0x3000 + n], the loop is still running, and nothing has been
    read or written. *)
Theorem missing_image_runs_zeroed_memory (input : list Z) (n : nat) :
  PC_START + Z.of_nat n <= MR_KBSR ->
  main_for n None (initial input) = Ok (tt, spinning input (Z.of_nat n)).
Proof.
  intros Hn.
  assert (main_init None (initial input) = Ok (tt, spinning input 0)) as Hinit
    by reflexivity.
  unfold main_for. rewrite (bind_eq _ _ _ _ _ Hinit).
  assert (forall m k, 0 <= k -> PC_START + k + Z.of_nat m <= MR_KBSR ->
            steps m (spinning input k)
            = Ok (tt, spinning input (k + Z.of_nat m))) as Hsteps.
  { induction m as [|m IH]; intros k Hk Hm.
    - by rewrite Z.add_0_r.
    - change (steps (S m) (spinning input k))
        with ((step ;;; steps m) (spinning input k)).
      rewrite (bind_eq _ _ _ _ _ (step_spinning input k Hk ltac:(lia))).
      rewrite IH by lia. do 3 f_equal. lia. }
  apply (Hsteps n 0); lia.
Qed.

(** * Further instances *)

Lemma wf_before_halt : wf before_halt.
Proof. apply wfb_wf. by vm_compute. Qed.

Lemma wf_with_pointer : wf with_pointer.
Proof. apply wfb_wf. by vm_compute. Qed.

Lemma sign_extend_twos_complement_witness :
  1 <= 5 <= 16 /\ 0 <= 0x1F < 2 ^ 5 /\
  word_ok (sign_extend 0x1F 5) /\
  sign_extend 0x1F 5 = u16 (signed 5 0x1F) /\
  (forall i, 0 <= i < 5 ->
     Z.testbit (sign_extend 0x1F 5) i = Z.testbit 0x1F i) /\
  (forall i, 5 <= i < 16 ->
     Z.testbit (sign_extend 0x1F 5) i = Z.testbit 0x1F (5 - 1)).
Proof.
  assert (1 <= 5 <= 16) as Hn by lia.
  assert (0 <= 0x1F < 2 ^ 5) as Hx by (simpl; lia).
  split; [exact Hn|]. split; [exact Hx|].
  exact (sign_extend_twos_complement 0x1F 5 Hn Hx).
Defined.

Lemma swap16_involutive_witness :
  word_ok 0x1234 /\ word_ok (swap16 0x1234) /\ swap16 (swap16 0x1234) = 0x1234.
Proof.
  assert (word_ok 0x1234) as Hx by (unfold word_ok; lia).
  split; [exact Hx | exact (swap16_involutive 0x1234 Hx)].
Defined.

Lemma read_image_file_cells_witness :
  wf (initial []) /\ word_ok 0x3000 /\ Forall word_ok [0xF025] /\
  exists st',
    read_image_file (image_file 0x3000 [0xF025]) (initial []) = Ok (tt, st') /\
    length (memory st') = length (memory (initial [])) /\
    forall a, 0 <= a < UINT16_MAX ->
      cell st' a =
        if decide (0x3000 <= a < 0x3000 + Z.of_nat (length [0xF025]))
        then [0xF025] !! Z.to_nat (a - 0x3000)
        else cell (initial []) a.
Proof.
  assert (word_ok 0x3000) as Ho by (unfold word_ok; lia).
  assert (Forall word_ok [0xF025]) as Hp
    by (repeat constructor; unfold word_ok; lia).
  split; [exact wf_initial_no_input|]. split; [exact Ho|]. split; [exact Hp|].
  exact (read_image_file_cells (initial []) 0x3000 [0xF025]
           wf_initial_no_input Ho Hp).
Defined.

Lemma loader_stays_in_memory_witness :
  wf (initial []) /\ Forall byte_ok [0x30; 0x00; 0xF0; 0x25; 0x07] /\
  exists st',
    read_image_file [0x30; 0x00; 0xF0; 0x25; 0x07] (initial []) = Ok (tt, st') /\
    wf st' /\ same_but_memory (initial []) st' /\
    ((length [0x30; 0x00; 0xF0; 0x25; 0x07] < 2)%nat -> st' = initial []).
Proof.
  assert (Forall byte_ok [0x30; 0x00; 0xF0; 0x25; 0x07]) as Hf
    by (repeat constructor; unfold byte_ok; lia).
  split; [exact wf_initial_no_input|]. split; [exact Hf|].
  exact (loader_stays_in_memory (initial []) _ wf_initial_no_input Hf).
Defined.

Lemma main_keeps_wf_witness :
  Forall byte_ok [] /\
  (forall file, Some [0x30; 0x00; 0xF0; 0x25] = Some file ->
     Forall byte_ok file) /\
  (exists st0,
     main_init (Some [0x30; 0x00; 0xF0; 0x25]) (initial []) = Ok (tt, st0) /\
     wf st0 /\ running st0 = true /\ rd st0 R_PC = PC_START /\
     stdin st0 = keyboard [] /\ stdout st0 = []) /\
  (forall n st',
     main_for n (Some [0x30; 0x00; 0xF0; 0x25]) (initial []) = Ok (tt, st') ->
     wf st').
Proof.
  assert (Forall byte_ok []) as Hin by constructor.
  assert (forall file, Some [0x30; 0x00; 0xF0; 0x25] = Some file ->
            Forall byte_ok file) as Hf.
  { intros file [= <-]. repeat constructor; unfold byte_ok; lia. }
  split; [exact Hin|]. split; [exact Hf|].
  exact (main_keeps_wf (Some [0x30; 0x00; 0xF0; 0x25]) [] Hin Hf).
Defined.

Lemma op_add_adds_witness :
  wf idle /\
  exists st', op_add 0x103F idle = Ok (tt, st') /\ wf st' /\
    rd st' (field_dr 0x103F) =
      u16 (rd idle (field_base 0x103F)
           + (if field_imm 0x103F =? 0 then rd idle (field_sr2 0x103F)
              else signed 5 (Z.land 0x103F 0x1F))) /\
    rd st' R_COND = flag_of (rd st' (field_dr 0x103F)) /\
    (forall r, 0 <= r -> r <> field_dr 0x103F -> r <> R_COND ->
       rd st' r = rd idle r) /\
    memory st' = memory idle /\ stdin st' = stdin idle /\
    stdout st' = stdout idle /\ running st' = running idle.
Proof.
  split; [exact wf_idle | exact (op_add_adds idle 0x103F wf_idle)].
Defined.

Lemma op_and_masks_witness :
  wf idle_after_add /\
  exists st', op_and 0x5020 idle_after_add = Ok (tt, st') /\ wf st' /\
    rd st' (field_dr 0x5020) =
      Z.land (rd idle_after_add (field_base 0x5020))
             (if field_imm 0x5020 =? 0
              then rd idle_after_add (field_sr2 0x5020)
              else u16 (signed 5 (Z.land 0x5020 0x1F))) /\
    rd st' (field_dr 0x5020) <= rd idle_after_add (field_base 0x5020) /\
    rd st' R_COND = flag_of (rd st' (field_dr 0x5020)) /\
    (field_imm 0x5020 <> 0 -> Z.land 0x5020 0x1F = 0 ->
       rd st' (field_dr 0x5020) = 0 /\ rd st' R_COND = FL_ZRO) /\
    (forall r, 0 <= r -> r <> field_dr 0x5020 -> r <> R_COND ->
       rd st' r = rd idle_after_add r) /\
    memory st' = memory idle_after_add /\ stdin st' = stdin idle_after_add /\
    stdout st' = stdout idle_after_add /\
    running st' = running idle_after_add.
Proof.
  assert (wf idle_after_add) as Hwf by (apply wfb_wf; by vm_compute).
  split; [exact Hwf | exact (op_and_masks idle_after_add 0x5020 Hwf)].
Defined.

Lemma op_not_complements_witness :
  wf idle /\
  exists st', op_not 0x903F idle = Ok (tt, st') /\ wf st' /\
    rd st' (field_dr 0x903F) = 0xFFFF - rd idle (field_base 0x903F) /\
    rd st' R_COND = flag_of (rd st' (field_dr 0x903F)) /\
    (forall i, 0 <= i < 16 ->
       Z.testbit (rd st' (field_dr 0x903F)) i
       = negb (Z.testbit (rd idle (field_base 0x903F)) i)) /\
    (forall r, 0 <= r -> r <> field_dr 0x903F -> r <> R_COND ->
       rd st' r = rd idle r) /\
    memory st' = memory idle /\ stdin st' = stdin idle /\
    stdout st' = stdout idle /\ running st' = running idle.
Proof.
  split; [exact wf_idle | exact (op_not_complements idle 0x903F wf_idle)].
Defined.

Lemma op_br_branches_witness :
  wf idle /\
  let taken := negb (Z.land (field_dr 0x0405) (rd idle R_COND) =? 0) in
  exists st', op_br 0x0405 idle = Ok (tt, st') /\ wf st' /\
    rd st' R_PC =
      (if taken then u16 (rd idle R_PC + signed 9 (Z.land 0x0405 0x1FF))
       else rd idle R_PC) /\
    (forall r, 0 <= r -> r <> R_PC -> rd st' r = rd idle r) /\
    memory st' = memory idle /\ stdin st' = stdin idle /\
    stdout st' = stdout idle /\ running st' = running idle /\
    (field_dr 0x0405 = 0 -> st' = idle) /\
    (field_dr 0x0405 = 7 ->
     rd idle R_COND = FL_NEG \/ rd idle R_COND = FL_ZRO \/
     rd idle R_COND = FL_POS ->
     taken = true).
Proof.
  split; [exact wf_idle | exact (op_br_branches idle 0x0405 wf_idle)].
Defined.

(** [BRz #5] with COND = ZRO, evaluated: the branch is taken. *)
Example brz_taken :
  match op_br 0x0405 idle with
  | Ok (_, st') => Some (rd st' R_PC)
  | _ => None
  end = Some 0x3006.
Proof. by vm_compute. Qed.

Lemma jsr_then_ret_returns_witness :
  wf idle /\ field_base 0xC1C0 = R_R7 /\
  exists st1, op_jsr 0x4805 idle = Ok (tt, st1) /\
    forall st2, wf st2 -> rd st2 R_R7 = rd st1 R_R7 ->
      exists st3, op_jmp 0xC1C0 st2 = Ok (tt, st3) /\
        rd st3 R_PC = rd idle R_PC /\
        (forall r, 0 <= r -> r <> R_PC -> rd st3 r = rd st2 r) /\
        memory st3 = memory st2 /\ stdin st3 = stdin st2 /\
        stdout st3 = stdout st2 /\ running st3 = running st2.
Proof.
  assert (field_base 0xC1C0 = R_R7) as Hb by reflexivity.
  split; [exact wf_idle|]. split; [exact Hb|].
  exact (jsr_then_ret_returns idle 0x4805 0xC1C0 wf_idle Hb).
Defined.

Lemma st_then_ld_witness :
  wf with_pointer /\
  let a := u16 (rd with_pointer R_PC + signed 9 (Z.land 0x3005 0x1FF)) in
  a <> MR_KBSR /\ a < UINT16_MAX /\
  exists st1, op_st 0x3005 with_pointer = Ok (tt, st1) /\ wf st1 /\
    cell st1 a = Some (rd with_pointer (field_dr 0x3005)) /\
    (forall b, 0 <= b -> b <> a -> cell st1 b = cell with_pointer b) /\
    same_but_memory with_pointer st1 /\
    forall st2 i2, wf st2 -> memory st2 = memory st1 ->
      u16 (rd st2 R_PC + signed 9 (Z.land i2 0x1FF)) = a ->
      exists st3, op_ld i2 st2 = Ok (tt, st3) /\
        rd st3 (field_dr i2) = rd with_pointer (field_dr 0x3005) /\
        rd st3 R_COND = flag_of (rd with_pointer (field_dr 0x3005)) /\
        memory st3 = memory st2.
Proof.
  assert (u16 (rd with_pointer R_PC + signed 9 (Z.land 0x3005 0x1FF)) <> MR_KBSR) as Hne
    by (by vm_compute).
  assert (u16 (rd with_pointer R_PC + signed 9 (Z.land 0x3005 0x1FF)) < UINT16_MAX) as Hlt
    by (by vm_compute).
  split; [exact wf_with_pointer|]. split; [exact Hne|]. split; [exact Hlt|].
  exact (st_then_ld with_pointer 0x3005 wf_with_pointer Hne Hlt).
Defined.

Lemma str_then_ldr_witness :
  wf with_pointer /\
  let a := u16 (rd with_pointer (field_base 0x7042) + signed 6 (Z.land 0x7042 0x3F)) in
  a <> MR_KBSR /\ a < UINT16_MAX /\
  exists st1, op_str 0x7042 with_pointer = Ok (tt, st1) /\ wf st1 /\
    cell st1 a = Some (rd with_pointer (field_dr 0x7042)) /\
    (forall b, 0 <= b -> b <> a -> cell st1 b = cell with_pointer b) /\
    same_but_memory with_pointer st1 /\
    forall st2 i2, wf st2 -> memory st2 = memory st1 ->
      u16 (rd st2 (field_base i2) + signed 6 (Z.land i2 0x3F)) = a ->
      exists st3, op_ldr i2 st2 = Ok (tt, st3) /\
        rd st3 (field_dr i2) = rd with_pointer (field_dr 0x7042) /\
        rd st3 R_COND = flag_of (rd with_pointer (field_dr 0x7042)) /\
        memory st3 = memory st2.
Proof.
  assert (u16 (rd with_pointer (field_base 0x7042) + signed 6 (Z.land 0x7042 0x3F))
          <> MR_KBSR) as Hne by (by vm_compute).
  assert (u16 (rd with_pointer (field_base 0x7042) + signed 6 (Z.land 0x7042 0x3F))
          < UINT16_MAX) as Hlt by (by vm_compute).
  split; [exact wf_with_pointer|]. split; [exact Hne|]. split; [exact Hlt|].
  exact (str_then_ldr with_pointer 0x7042 wf_with_pointer Hne Hlt).
Defined.

Lemma sti_then_ldi_witness :
  wf with_pointer /\
  let p := u16 (rd with_pointer R_PC + signed 9 (Z.land 0xB001 0x1FF)) in
  p <> MR_KBSR /\ cell with_pointer p = Some 0x4000 /\
  0x4000 <> MR_KBSR /\ 0x4000 < UINT16_MAX /\ 0x4000 <> p /\
  exists st1, op_sti 0xB001 with_pointer = Ok (tt, st1) /\ wf st1 /\
    cell st1 0x4000 = Some (rd with_pointer (field_dr 0xB001)) /\
    (forall b, 0 <= b -> b <> 0x4000 -> cell st1 b = cell with_pointer b) /\
    same_but_memory with_pointer st1 /\
    forall st2 i2, wf st2 -> memory st2 = memory st1 ->
      u16 (rd st2 R_PC + signed 9 (Z.land i2 0x1FF)) = p ->
      exists st3, op_ldi i2 st2 = Ok (tt, st3) /\
        rd st3 (field_dr i2) = rd with_pointer (field_dr 0xB001) /\
        rd st3 R_COND = flag_of (rd with_pointer (field_dr 0xB001)) /\
        memory st3 = memory st2.
Proof.
  assert (u16 (rd with_pointer R_PC + signed 9 (Z.land 0xB001 0x1FF)) <> MR_KBSR) as H1
    by (by vm_compute).
  assert (cell with_pointer (u16 (rd with_pointer R_PC + signed 9 (Z.land 0xB001 0x1FF)))
          = Some 0x4000) as H2 by (vm_compute; reflexivity).
  assert (0x4000 <> MR_KBSR) as H3 by (by vm_compute).
  assert (0x4000 < UINT16_MAX) as H4 by (by vm_compute).
  assert (0x4000 <> u16 (rd with_pointer R_PC + signed 9 (Z.land 0xB001 0x1FF))) as H5
    by (by vm_compute).
  split; [exact wf_with_pointer|]. split; [exact H1|]. split; [exact H2|].
  split; [exact H3|]. split; [exact H4|]. split; [exact H5|].
  exact (sti_then_ldi with_pointer 0xB001 0x4000 wf_with_pointer
           H1 H2 H3 H4 H5).
Defined.

Lemma puts_writes_the_string_witness :
  wf string_over_devices /\ trapvect8 0xF022 = TRAP_PUTS /\
  op_trap 0xF022 string_over_devices =
    match string_at string_over_devices (rd string_over_devices R_R0) with
    | Some ws =>
        Ok (tt, with_stdout (stdout string_over_devices
                             ++ map (fun w => w mod 256) ws)
                  string_over_devices)
    | None => OutOfBounds
    end.
Proof.
  assert (trapvect8 0xF022 = TRAP_PUTS) as Hv by reflexivity.
  split; [exact wf_string_over_devices|]. split; [exact Hv|].
  exact (puts_writes_the_string string_over_devices 0xF022
           wf_string_over_devices Hv).
Defined.

Lemma putsp_writes_the_packed_string_witness :
  wf string_over_devices /\ trapvect8 0xF024 = TRAP_PUTSP /\
  op_trap 0xF024 string_over_devices =
    match string_at string_over_devices (rd string_over_devices R_R0) with
    | Some ws =>
        Ok (tt, with_stdout (stdout string_over_devices
                             ++ concat (map packed_chars ws))
                  string_over_devices)
    | None => OutOfBounds
    end.
Proof.
  assert (trapvect8 0xF024 = TRAP_PUTSP) as Hv by reflexivity.
  split; [exact wf_string_over_devices|]. split; [exact Hv|].
  exact (putsp_writes_the_packed_string string_over_devices 0xF024
           wf_string_over_devices Hv).
Defined.

(** The string that PUTS finds in [string_over_devices]. *)
Example string_over_devices_string :
  string_at string_over_devices (rd string_over_devices R_R0)
  = Some [104; 105; 33; 63].
Proof. by vm_compute. Qed.

(** No zero word from [0xFFF0] on in zeroed memory with the tail filled:
    the scan leaves the array. *)
Example string_without_terminator :
  string_at (machine_with [(0xFFFD, 65); (0xFFFE, 66)] [0] []) 0xFFFD = None.
Proof. by vm_compute. Qed.

Lemma wf_key_in_buffer : wf key_in_buffer.
Proof. apply wfb_wf. by vm_compute. Qed.

Lemma wf_input_closed : wf input_closed.
Proof. apply wfb_wf. by vm_compute. Qed.

Lemma getc_takes_one_key_witness :
  wf key_in_buffer /\ trapvect8 0xF020 = TRAP_GETC /\
  (forall c rest, undelivered (stdin key_in_buffer) = c :: rest ->
     exists st', op_trap 0xF020 key_in_buffer = Ok (tt, st') /\
       rd st' R_R0 = c /\ undelivered (stdin st') = rest /\
       at_eof (stdin st') = at_eof (stdin key_in_buffer) /\
       stdout st' = stdout key_in_buffer /\
       (forall r, 0 <= r -> r <> R_R0 -> rd st' r = rd key_in_buffer r) /\
       memory st' = memory key_in_buffer /\
       running st' = running key_in_buffer) /\
  (undelivered (stdin key_in_buffer) = [] ->
   at_eof (stdin key_in_buffer) = false ->
     op_trap 0xF020 key_in_buffer = Blocked key_in_buffer) /\
  (undelivered (stdin key_in_buffer) = [] ->
   at_eof (stdin key_in_buffer) = true ->
     exists st', op_trap 0xF020 key_in_buffer = Ok (tt, st') /\
       rd st' R_R0 = 0xFFFF /\ stdin st' = stdin key_in_buffer /\
       stdout st' = stdout key_in_buffer /\
       (forall r, 0 <= r -> r <> R_R0 -> rd st' r = rd key_in_buffer r) /\
       memory st' = memory key_in_buffer /\
       running st' = running key_in_buffer).
Proof.
  assert (trapvect8 0xF020 = TRAP_GETC) as Hv by reflexivity.
  split; [exact wf_key_in_buffer|]. split; [exact Hv|].
  exact (getc_takes_one_key key_in_buffer 0xF020 wf_key_in_buffer Hv).
Defined.

(** GETC, evaluated: the buffered key is delivered; with nothing to
    deliver GETC waits; at end of file R0 receives [0xFFFF]. *)
Example getc_from_buffer :
  match op_trap 0xF020 key_in_buffer with
  | Ok (_, st') => Some (rd st' R_R0, stdin st')
  | _ => None
  end = Some (98, keyboard []).
Proof. by vm_compute. Qed.

Example getc_waits : op_trap 0xF020 idle = Blocked idle.
Proof. reflexivity. Qed.

Example getc_at_end_of_file :
  match op_trap 0xF020 input_closed with
  | Ok (_, st') => Some (rd st' R_R0, stdin st')
  | _ => None
  end = Some (0xFFFF, stdin input_closed).
Proof. by vm_compute. Qed.


(** IN, evaluated: with two keys typed ahead the first is echoed after the
    prompt; with none the prompt is out when the wait begins; at end of
    file the byte 255 is echoed. *)
Example in_echoes_first_key :
  match op_trap 0xF023 keys_pending with
  | Ok (_, st') => Some (rd st' R_R0, stdout st', undelivered (stdin st'))
  | _ => None
  end = Some (97, bytes_of_string "Enter a character:" ++ [10; 97], [98]).
Proof. by vm_compute. Qed.

Example in_waits_after_prompt :
  op_trap 0xF023 idle =
    Blocked (with_stdout (bytes_of_string "Enter a character:" ++ [10]) idle).
Proof. reflexivity. Qed.

Example in_at_end_of_file :
  match op_trap 0xF023 input_closed with
  | Ok (_, st') => Some (rd st' R_R0, stdout st')
  | _ => None
  end = Some (0xFFFF, bytes_of_string "Enter a character:" ++ [10; 255]).
Proof. by vm_compute. Qed.

Lemma read_KBSR_follows_the_descriptor_witness :
  wf input_closed /\
  exists v st', mem_read MR_KBSR input_closed = Ok (v, st') /\
    cell st' MR_KBSR = Some v /\
    (forall b, 0 <= b -> b <> MR_KBSR -> b <> MR_KBDR ->
       cell st' b = cell input_closed b) /\
    reg st' = reg input_closed /\ stdout st' = stdout input_closed /\
    running st' = running input_closed /\
    (pending (stdin input_closed) = [] ->
     at_eof (stdin input_closed) = false ->
       v = 0 /\ cell st' MR_KBDR = cell input_closed MR_KBDR /\
       stdin st' = stdin input_closed) /\
    (pending (stdin input_closed) <> [] \/
     at_eof (stdin input_closed) = true ->
       v = 0x8000 /\
       (forall c rest, undelivered (stdin input_closed) = c :: rest ->
          cell st' MR_KBDR = Some c /\ undelivered (stdin st') = rest /\
          at_eof (stdin st') = at_eof (stdin input_closed)) /\
       (undelivered (stdin input_closed) = [] ->
          cell st' MR_KBDR = Some 0xFFFF /\
          stdin st' = stdin input_closed)).
Proof.
  split; [exact wf_input_closed|].
  exact (read_KBSR_follows_the_descriptor input_closed wf_input_closed).
Defined.

(** The read of KBSR, evaluated: a key that stdio has buffered is not
    reported; at end of file a key is reported and KBDR receives
    [0xFFFF]. *)
Example read_KBSR_key_in_buffer :
  match mem_read MR_KBSR key_in_buffer with
  | Ok (v, st') => Some (v, cell st' MR_KBSR, cell st' MR_KBDR, stdin st')
  | _ => None
  end = Some (0, Some 0, Some 97, stdin key_in_buffer).
Proof. by vm_compute. Qed.

Example read_KBSR_at_end_of_file :
  match mem_read MR_KBSR input_closed with
  | Ok (v, st') => Some (v, cell st' MR_KBSR, cell st' MR_KBDR, stdin st')
  | _ => None
  end = Some (0x8000, Some 0x8000, Some 0xFFFF, stdin input_closed).
Proof. by vm_compute. Qed.

Lemma halt_stops_the_loop_witness :
  running before_halt = true /\
  fetch before_halt = Ok (0xF025, halt_fetched) /\
  opcode 0xF025 = OP_TRAP /\ trapvect8 0xF025 = TRAP_HALT /\
  steps (S 7) before_halt =
    Ok (tt, with_running false
              (with_stdout
                 (stdout halt_fetched ++ bytes_of_string "HATL" ++ [10])
                 halt_fetched)).
Proof.
  assert (fetch before_halt = Ok (0xF025, halt_fetched)) as Hf by reflexivity.
  split; [reflexivity|]. split; [exact Hf|].
  split; [reflexivity|]. split; [reflexivity|].
  exact (halt_stops_the_loop before_halt 0xF025 halt_fetched 7
           eq_refl Hf eq_refl eq_refl).
Defined.

Lemma abort_only_on_rti_and_res_witness :
  word_ok 0x8000 /\
  (dispatch 0x8000 idle = Aborted <->
   opcode 0x8000 = OP_RTI \/ opcode 0x8000 = OP_RES).
Proof.
  assert (word_ok 0x8000) as Hw by (unfold word_ok; lia).
  split; [exact Hw | exact (abort_only_on_rti_and_res idle 0x8000 Hw)].
Defined.

Lemma missing_image_runs_zeroed_memory_witness :
  PC_START + Z.of_nat 3 <= MR_KBSR /\
  main_for 3 None (initial [97]) = Ok (tt, spinning [97] (Z.of_nat 3)).
Proof.
  assert (PC_START + Z.of_nat 3 <= MR_KBSR) as Hn
    by (unfold PC_START, MR_KBSR; lia).
  split; [exact Hn | exact (missing_image_runs_zeroed_memory [97] 3 Hn)].
Defined.
